(** * pi-nas OLED status daemon: TTL caches, alarm cooldowns, home page,
      navigation and buzzer patterns

    A shallow embedding of the modular variant of the daemon
    (sources/base.py, sources/system.py, context.py,
    oled-status/sources/*.py, oled-status/alarms.py,
    oled-status/pages/home.py, oled-status/formatters.py,
    oled-status/hardware/display.py, oled-status/screensaver.py,
    oled-status/main.py, oled-status/test_smoke.py, buzzer.py) and the
    properties established about it.

    Conventions of the embedding:
    - a Python [float] is a primitive binary64 float, with the operators of
      the source ([-], [<], [>=], [*], [/]) read as the IEEE operations;
    - a Python [str] is a [string] (the text handled here is ASCII);
    - a Python [dict] keyed by strings is a [gmap string _];
    - a call that may raise returns a [result];
    - readings of the clock ([time.time()], [time.monotonic()]) and the
      contents of files and HTTP endpoints are inputs of the functions. *)

From Stdlib Require Import ZArith String Ascii List Bool Floats Lia DecimalString.
From stdpp Require Import gmap strings.
From Equations Require Import Equations.
Import ListNotations.

Set Warnings "-register-all,-inexact-float".

Local Open Scope string_scope.
Local Open Scope Z_scope.

(** ** Python runtime: exceptions and results *)

Module py.

(** The exception classes the modelled code can meet.  [OSError] stands for
    the I/O errors that are neither a missing file nor a permission error,
    [HTTPError] for what [requests] raises. *)
Inductive exn : Type :=
| FileNotFoundError
| PermissionError
| OSError
| KeyError
| ValueError
| TypeError
| OverflowError
| ZeroDivisionError
| NotImplementedError
| HTTPError.

Inductive result (A : Type) : Type :=
| Ok (a : A)
| Raise (e : exn).

Arguments Ok {A} a.
Arguments Raise {A} e.

Definition raises {A : Type} (r : result A) : bool :=
  match r with Ok _ => false | Raise _ => true end.

(** [except FileNotFoundError] matches that class only; [except Exception]
    matches every class above. *)
Definition is_FileNotFoundError (e : exn) : bool :=
  match e with FileNotFoundError => true | _ => false end.

End py.

Import py.

(** ** sources/base.py: CachedDataSource *)

Module base.

(** [self._cache] and [self._timestamps]. *)
Record CachedDataSource (V : Type) : Type := mkSource {
  _cache : gmap string V;
  _timestamps : gmap string float
}.

Arguments mkSource {V} _ _.
Arguments _cache {V} _.
Arguments _timestamps {V} _.

(** [__init__]: both dictionaries start empty. *)
Definition init {V : Type} : CachedDataSource V := mkSource ∅ ∅.

(** What one call of [get] leaves behind: the returned value or the raised
    exception, the source after the call, the outside world after the call,
    and the keys [_fetch] was invoked with during the call (a ghost log, in
    call order). *)
Record outcome (V W : Type) : Type := mkOutcome {
  returned : result V;
  source : CachedDataSource V;
  world : W;
  fetched : list string
}.

Arguments mkOutcome {V W} _ _ _ _.
Arguments returned {V W} _.
Arguments source {V W} _.
Arguments world {V W} _.
Arguments fetched {V W} _.

Section Get.

Context {V W : Type}.

(** The subclass's [_fetch]: it reads (and may change) the outside world [W]
    and returns a value or raises. *)
Variable _fetch : string -> W -> result V * W.

(** The tail of [get], from "Fetch fresh data" on. *)
Definition refresh (now : float) (key : string)
    (self : CachedDataSource V) (w : W) : outcome V W :=
  let (r, w') := _fetch key w in
  match r with
  | Ok value =>
      mkOutcome (Ok value)
        (mkSource (<[key := value]> (_cache self))
                  (<[key := now]> (_timestamps self)))
        w' [key]
  | Raise e => mkOutcome (Raise e) self w' [key]
  end.

(** [get(key, ttl_s)], with [now] the reading of [time.time()] taken at its
    first line.  [self._timestamps[key]] raises [KeyError] on a missing key. *)
Definition get (now : float) (key : string) (ttl_s : float)
    (self : CachedDataSource V) (w : W) : outcome V W :=
  match _cache self !! key with
  | Some v =>
      match _timestamps self !! key with
      | None => mkOutcome (Raise KeyError) self w []
      | Some ts =>
          if (now - ts <? ttl_s)%float
          then mkOutcome (Ok v) self w []
          else refresh now key self w
      end
  | None => refresh now key self w
  end.

End Get.

(** [invalidate(key)]: [None] clears both dictionaries, a key is popped from
    both (a missing key is ignored by [pop(key, None)]). *)
Definition invalidate {V : Type} (key : option string)
    (self : CachedDataSource V) : CachedDataSource V :=
  match key with
  | None => mkSource ∅ ∅
  | Some k => mkSource (delete k (_cache self)) (delete k (_timestamps self))
  end.

(** The base class's own [_fetch]. *)
Definition _fetch {V W : Type} (key : string) (w : W) : result V * W :=
  (Raise NotImplementedError, w).

(** A caller's view of a source: a sequence of [get] and [invalidate]
    calls, each [get] with the clock reading it sees. *)
Inductive call : Type :=
| Get (now : float) (key : string) (ttl_s : float)
| Invalidate (key : option string).

Fixpoint run {V W : Type} (_fetch : string -> W -> result V * W)
    (calls : list call) (self : CachedDataSource V) (w : W)
    : CachedDataSource V * W :=
  match calls with
  | [] => (self, w)
  | Get now key ttl_s :: rest =>
      let o := get _fetch now key ttl_s self w in
      run _fetch rest (source o) (world o)
  | Invalidate key :: rest => run _fetch rest (invalidate key self) w
  end.

(** The two dictionaries hold the same keys. *)
Definition consistent {V : Type} (self : CachedDataSource V) : Prop :=
  dom (_cache self) = dom (_timestamps self).

End base.

(** ** Python values held in the caches ([Any]) *)

Module pyval.

(** JSON-like values: what [r.json()] yields, and what the sources put in
    their caches.  A [dict] value keeps its items in insertion order. *)
Inductive t : Type :=
| PNone
| PBool (b : bool)
| PInt (z : Z)
| PFloat (f : float)
| PStr (s : string)
| PList (l : list t)
| PDict (items : list (string * t)).

End pyval.

Import pyval.

(** ** oled-status/sources/glances.py: GlancesSource._fetch *)

Module glances.

(** config.GLANCES_URL *)
Definition GLANCES_URL : string := "http://localhost:61208/api/4".

(** What an HTTP GET ends in: [requests.get] raises (unreachable host,
    timeout), or returns a response whose [raise_for_status()] passes or
    raises and whose [json()] decodes or raises. *)
Record response : Type := mkResponse {
  status_ok : bool;
  json : result pyval.t
}.

(** The network as seen by [requests.get(url, timeout=2)]. *)
Definition network : Type := string -> result response.

Section Fetch.

(** [_parse_smart_data] reshapes the SMART dump; its result does not matter
    to the properties below, only that it returns or raises. *)
Variable _parse_smart_data : pyval.t -> result pyval.t.

(** [_fetch(endpoint)]: the whole body is inside [try: ... except Exception:
    return None]. *)
Definition _fetch (url : string) (endpoint : string) (net : network)
    : result pyval.t * network :=
  let attempt : result pyval.t :=
    match net (url ++ "/" ++ endpoint) with
    | Raise e => Raise e
    | Ok r =>
        if status_ok r then
          match json r with
          | Raise e => Raise e
          | Ok data =>
              if String.eqb endpoint "smart"
              then _parse_smart_data data
              else Ok data
          end
        else Raise HTTPError
    end in
  match attempt with
  | Ok data => (Ok data, net)
  | Raise _ => (Ok PNone, net)
  end.

(** The request for [endpoint] fails: the host is unreachable or times
    out, the status is an error, the body is not JSON, or the SMART dump
    cannot be parsed. *)
Definition fails (url : string) (endpoint : string) (net : network) : bool :=
  match net (url ++ "/" ++ endpoint) with
  | Raise _ => true
  | Ok r =>
      negb (status_ok r) ||
      match json r with
      | Raise _ => true
      | Ok data => String.eqb endpoint "smart" && raises (_parse_smart_data data)
      end
  end.

(** [GlancesSource.get], inherited from [CachedDataSource]. *)
Definition get (url : string) :=
  base.get (V := pyval.t) (W := network) (_fetch url).

End Fetch.

End glances.

(** ** Python strings *)

Module pystr.

(** [str.isspace] on ASCII: tab to carriage return, the four separators
    0x1c-0x1f, and the space.  The regex class [\s] is the same set. *)
Definition is_space (c : ascii) : bool :=
  let n := nat_of_ascii c in
  ((9 <=? n) && (n <=? 13) || (28 <=? n) && (n <=? 32))%nat.

(** The regex class [\d] on ASCII. *)
Definition is_digit (c : ascii) : bool :=
  let n := nat_of_ascii c in ((48 <=? n) && (n <=? 57))%nat.

(** The regex class [[\d\.]]. *)
Definition is_digit_or_dot (c : ascii) : bool :=
  is_digit c || Ascii.eqb c ".".

Definition lower_char (c : ascii) : ascii :=
  let n := nat_of_ascii c in
  if ((65 <=? n) && (n <=? 90))%nat then ascii_of_nat (n + 32) else c.

(** [s.lower()] *)
Fixpoint lower (s : string) : string :=
  match s with
  | EmptyString => EmptyString
  | String c rest => String (lower_char c) (lower rest)
  end.

(** [s.startswith(pre)] *)
Fixpoint startswith (pre s : string) : bool :=
  match pre, s with
  | EmptyString, _ => true
  | String a pre', String b s' => Ascii.eqb a b && startswith pre' s'
  | String _ _, EmptyString => false
  end.

(** [sub in s]: [sub] occurs in [s] as a run of consecutive characters. *)
Fixpoint contains (sub s : string) : bool :=
  startswith sub s ||
  match s with
  | EmptyString => false
  | String _ rest => contains sub rest
  end.

(** What follows the prefix [pre] in [s], when [s] starts with it. *)
Fixpoint after_prefix (pre s : string) : option string :=
  match pre, s with
  | EmptyString, _ => Some s
  | String a pre', String b s' =>
      if Ascii.eqb a b then after_prefix pre' s' else None
  | String _ _, EmptyString => None
  end.

(** The longest prefix of [s] made of characters in the class [p], and
    what follows it: a greedy [[p]*]. *)
Fixpoint span (p : ascii -> bool) (s : string) : string * string :=
  match s with
  | EmptyString => (EmptyString, EmptyString)
  | String c rest =>
      if p c then let (run, tail) := span p rest in (String c run, tail)
      else (EmptyString, s)
  end.

Definition lstrip (s : string) : string := snd (span is_space s).

Fixpoint rev_onto (s acc : string) : string :=
  match s with
  | EmptyString => acc
  | String c rest => rev_onto rest (String c acc)
  end.

Definition rev (s : string) : string := rev_onto s EmptyString.

Definition rstrip (s : string) : string := rev (lstrip (rev s)).

(** [s.strip()] *)
Definition strip (s : string) : string := rstrip (lstrip s).

(** [x in (a, b, ...)] for strings. *)
Definition in_tuple (x : string) (choices : list string) : bool :=
  existsb (String.eqb x) choices.

(** Truthiness of a string: non-empty. *)
Definition truthy (s : string) : bool :=
  match s with EmptyString => false | String _ _ => true end.

(** [s.split()]: the maximal runs of non-space characters; [word] holds
    the current run, reversed. *)
Fixpoint split_from (s word : string) : list string :=
  match s with
  | EmptyString => if truthy word then [rev word] else []
  | String c rest =>
      if is_space c
      then (if truthy word then rev word :: split_from rest EmptyString
            else split_from rest EmptyString)
      else split_from rest (String c word)
  end.

Definition split (s : string) : list string := split_from s EmptyString.

(** The lines of a text, as [for line in f] yields them: each with its
    newline, the last one possibly without. *)
Fixpoint lines_from (s line : string) : list string :=
  match s with
  | EmptyString => if truthy line then [rev line] else []
  | String c rest =>
      if Ascii.eqb c "010"
      then rev (String c line) :: lines_from rest EmptyString
      else lines_from rest (String c line)
  end.

Definition lines (s : string) : list string := lines_from s EmptyString.

(** [os.path.basename(path)]: what follows the last slash. *)
Fixpoint basename_from (path name : string) : string :=
  match path with
  | EmptyString => rev name
  | String c rest =>
      if Ascii.eqb c "/" then basename_from rest EmptyString
      else basename_from rest (String c name)
  end.

Definition basename (path : string) : string :=
  basename_from path EmptyString.

(** The first element of [sorted(names)], if any: the least in the order
    of the character codes. *)
Definition least (names : list string) : option string :=
  fold_left
    (fun best name =>
       match best with
       | None => Some name
       | Some b => if String.ltb name b then Some name else Some b
       end)
    names None.

(** Every character of [s] is in the class [p]. *)
Fixpoint all_chars (p : ascii -> bool) (s : string) : bool :=
  match s with
  | EmptyString => true
  | String c rest => p c && all_chars p rest
  end.

(** [str(n)] for an integer. *)
Definition of_Z (n : Z) : string := NilZero.string_of_int (Z.to_int n).

End pystr.

(** ** test_smoke.py: the counting source of [test_caching] *)

Module test_smoke.

(** [TestSource._fetch]: the world is [self.fetch_count]; the result is
    [f"data_{key}_{self.fetch_count}"] with the count just incremented. *)
Definition _fetch (key : string) (fetch_count : nat)
    : result string * nat :=
  let count := S fetch_count in
  (Ok ("data_" ++ key ++ "_" ++ pystr.of_Z (Z.of_nat count)), count).

(** [result1 != result2] on what two [get]s returned. *)
Definition differ (a b : result string) : bool :=
  match a, b with
  | Ok x, Ok y => negb (String.eqb x y)
  | _, _ => true
  end.

(** [test_caching()]: whether it returns [True], given the readings of
    [time.time()] its five [get]s see.  Each [return False] of the test is
    one [else false] here. *)
Definition test_caching (t1 t2 t3 t4 t5 : float) : bool :=
  let get := base.get _fetch in
  let o1 := get t1 "test" 1%float base.init 0%nat in
  if negb (base.world o1 =? 1)%nat then false else
  let o2 := get t2 "test" 1%float (base.source o1) (base.world o1) in
  if negb (base.world o2 =? 1)%nat then false else
  if differ (base.returned o1) (base.returned o2) then false else
  let o3 := get t3 "test" 1%float (base.source o2) (base.world o2) in
  if negb (base.world o3 =? 2)%nat then false else
  let o4 := get t4 "other" 1%float (base.source o3) (base.world o3) in
  if negb (base.world o4 =? 3)%nat then false else
  let source := base.invalidate (Some "test") (base.source o4) in
  let o5 := get t5 "test" 1%float source (base.world o4) in
  if negb (base.world o5 =? 4)%nat then false else
  true.

End test_smoke.

(** ** Python floats: [float(str)], [int(float)] and ['%.Nf'] *)

Module pyfloat.

(** Round-half-to-even of [num / den], for [0 <= num] and [0 < den]. *)
Definition round_half_even (num den : Z) : Z :=
  let q := num / den in
  let r := num mod den in
  match 2 * r ?= den with
  | Lt => q
  | Gt => q + 1
  | Eq => if Z.even q then q else q + 1
  end.

(** The binary64 nearest to [num / den] (ties to even), for [0 <= num] and
    [0 < den]: the significand is brought into [2^52, 2^53), or the
    exponent stops at the subnormal one, and the quotient is rounded once. *)
Definition nearest (num den : Z) : float :=
  if num =? 0 then 0%float else
  let l := Z.log2 num - Z.log2 den in
  let scaled (e : Z) : Z * Z :=
    if 0 <=? e then (num, den * 2 ^ e) else (num * 2 ^ (- e), den) in
  let e0 := l - 52 in
  let (n0, d0) := scaled e0 in
  let e1 := if d0 * 2 ^ 52 <=? n0 then e0 else e0 - 1 in
  let e := Z.max e1 (-1074) in
  let (n, d) := scaled e in
  match round_half_even n d with
  | Zpos m => SF2Prim (S754_finite false m e)
  | _ => 0%float
  end.

(** Reads a run of decimal digits: the number read so far, the count of
    digits read, and the rest of the text. *)
Fixpoint digits (s : string) (acc : Z) (count : nat) : Z * nat * string :=
  match s with
  | EmptyString => (acc, count, EmptyString)
  | String c rest =>
      if pystr.is_digit c
      then digits rest (10 * acc + (Z.of_nat (nat_of_ascii c) - 48)) (S count)
      else (acc, count, s)
  end.

(** [float(s)] for a text made of digits and dots, which is all the callers
    pass (captures of [[\d\.]+]): digits with at most one dot and at least
    one digit give the nearest binary64; anything else is a [ValueError]. *)
Definition of_string (s : string) : result float :=
  let '(int_part, n1, rest) := digits s 0 0%nat in
  match rest with
  | EmptyString =>
      if (n1 =? 0)%nat then Raise ValueError else Ok (nearest int_part 1)
  | String c frac =>
      if Ascii.eqb c "." then
        let '(all, n2, rest') := digits frac int_part 0%nat in
        match rest' with
        | EmptyString =>
            if (n1 + n2 =? 0)%nat then Raise ValueError
            else Ok (nearest all (10 ^ Z.of_nat n2))
        | String _ _ => Raise ValueError
        end
      else Raise ValueError
  end.

(** [int(x)]: truncation toward zero; infinities and NaN raise. *)
Definition to_int (x : float) : result Z :=
  match Prim2SF x with
  | S754_nan => Raise ValueError
  | S754_infinity _ => Raise OverflowError
  | S754_zero _ => Ok 0
  | S754_finite s m e =>
      let a := if 0 <=? e then Zpos m * 2 ^ e else Zpos m / 2 ^ (- e) in
      Ok (if s then - a else a)
  end.

Fixpoint zeros (n : nat) : string :=
  match n with O => EmptyString | S n' => String "0" (zeros n') end.

(** [width] decimal digits of [n], zero-padded on the left. *)
Definition padded (width : nat) (n : Z) : string :=
  let d := pystr.of_Z n in
  zeros (width - String.length d) ++ d.

(** [f"{x:.<d>f}"]: the exact value of [x], rounded half-to-even to [d]
    decimals. *)
Definition format_fixed (d : nat) (x : float) : string :=
  let sign (s : bool) : string := if s then "-" else "" in
  let body (r : Z) : string :=
    let unit := 10 ^ Z.of_nat d in
    pystr.of_Z (r / unit) ++
    (match d with O => "" | S _ => "." ++ padded d (r mod unit) end) in
  match Prim2SF x with
  | S754_nan => "nan"
  | S754_infinity s => sign s ++ "inf"
  | S754_zero s => sign s ++ body 0
  | S754_finite s m e =>
      let num := Zpos m * 10 ^ Z.of_nat d in
      let r := if 0 <=? e then num * 2 ^ e
               else round_half_even num (2 ^ (- e)) in
      sign s ++ body r
  end.

End pyfloat.

(** ** oled-status/formatters.py *)

Module formatters.

(** [fmt_rate(k_per_s)] for a float or [None]: [float(None)] raises
    [TypeError], which gives "N/A"; [1024**2] is 1048576. *)
Definition fmt_rate (k_per_s : option float) : string :=
  match k_per_s with
  | None => "N/A"
  | Some k =>
      if (k <? 1024)%float then pyfloat.format_fixed 0 k ++ "K/s"
      else if (k <? 1048576)%float
           then pyfloat.format_fixed 1 (k / 1024)%float ++ "M/s"
           else pyfloat.format_fixed 1 (k / 1048576)%float ++ "G/s"
  end.

(** [fmt_time(seconds)]: [None] gives "N/A"; [int(seconds)] may raise. *)
Definition fmt_time (seconds : option float) : result string :=
  match seconds with
  | None => Ok "N/A"
  | Some x =>
      match pyfloat.to_int x with
      | Raise e => Raise e
      | Ok s0 =>
          let m0 := s0 / 60 in
          let h0 := m0 / 60 in
          let m := m0 mod 60 in
          let d := h0 / 24 in
          let h := h0 mod 24 in
          if 0 <? d then Ok (pystr.of_Z d ++ "d " ++ pystr.of_Z h ++ "h")
          else if 0 <? h then Ok (pystr.of_Z h ++ "h " ++ pystr.of_Z m ++ "m")
          else Ok (pystr.of_Z m ++ "m")
      end
  end.








(** The three [divmod]s of [fmt_time]: days, hours, minutes and seconds. *)
Definition split_seconds (s0 : Z) : Z * Z * Z * Z :=
  let m0 := s0 / 60 in
  let h0 := m0 / 60 in
  (h0 / 24, h0 mod 24, m0 mod 60, s0 mod 60).

(** [fmt_minutes(minutes)] *)
Definition fmt_minutes (minutes : float) : result string :=
  fmt_time (Some (minutes * 60)%float).

(** [fmt_temp(val, warn=..., hot=...)] for a float or [None]. *)
Definition fmt_temp_at (warn hot : float) (val : option float) : string :=
  match val with
  | None => "N/A"
  | Some t =>
      if (hot <=? t)%float then "!!" ++ pyfloat.format_fixed 1 t ++ "C"
      else if (warn <=? t)%float then "! " ++ pyfloat.format_fixed 1 t ++ "C"
      else "  " ++ pyfloat.format_fixed 1 t ++ "C"
  end.

(** [fmt_temp(val)], with the default thresholds [warn=50.0], [hot=60.0]. *)
Definition fmt_temp : option float -> string := fmt_temp_at 50 60.

End formatters.

(** ** config.py *)

Module config.

Definition NAV_TIMEOUT : float := 10%float.
Definition SCREEN_H : Z := 64.
Definition HEADER_HEIGHT : Z := 16.
Definition BODY_TOP : Z := HEADER_HEIGHT.
Definition BODY_HEIGHT : Z := SCREEN_H - HEADER_HEIGHT.
Definition BODY_CENTER_Y : Z := BODY_TOP + BODY_HEIGHT / 2.
Definition LINE_HEIGHT : Z := 14.
Definition BODY_TEXT_LINES : Z := 3.
Definition BODY_TEXT_HEIGHT : Z := LINE_HEIGHT * BODY_TEXT_LINES.
Definition BODY_ICON_SIZE : Z := 28.
Definition BODY_ICON_Y : Z := BODY_CENTER_Y - BODY_ICON_SIZE / 2.
Definition L1 : Z := BODY_CENTER_Y - BODY_TEXT_HEIGHT / 2.
Definition L2 : Z := L1 + LINE_HEIGHT.
Definition L3 : Z := L2 + LINE_HEIGHT.
Definition STORAGE_MOUNT : string := "/mnt/storage".
Definition SCREEN_W : Z := 128.

End config.

(** ** oled-status/hardware/display.py: animation frame, icons, column fit *)

Module display.

(** [Display.advance_frame()]: the class attribute [_frame], which starts
    at 0. *)
Definition advance_frame (_frame : Z) : Z := (_frame + 1) mod 4.

(** The frame after [n] iterations of the main loop. *)
Definition frame_after (n : nat) : Z := Nat.iter n advance_frame 0.

(** The loop of [compute_cols_fit]: a bisection that keeps [lo] and
    lowers [hi] when [mid] does not fit, and raises [lo] when it does. *)
Equations? bisect (fits : Z -> bool) (lo hi : Z) : Z
  by wf (Z.to_nat (hi - lo)) lt :=
  bisect fits lo hi with Z_lt_dec lo hi => {
    | left _ with fits ((lo + hi + 1) / 2) => {
        | true := bisect fits ((lo + hi + 1) / 2) hi;
        | false := bisect fits lo ((lo + hi + 1) / 2 - 1) };
    | right _ := lo }.
Proof.
  - assert (lo + 1 <= (lo + hi + 1) / 2)
      by (apply (Z.div_le_lower_bound _ 2 (lo + 1)); lia).
    lia.
  - assert ((lo + hi + 1) / 2 <= hi) by (apply Z.div_le_upper_bound; lia).
    lia.
Qed.

(** [compute_cols_fit(screen_w, font, sample_char)], with [text_width] the
    pixel width of a text in the font: [mid] copies of the sample fit when
    they are at most [screen_w] wide. *)
Definition compute_cols_fit (text_width : string -> Z) (screen_w : Z)
    (sample_char : string) : Z :=
  bisect (fun mid =>
            text_width (String.concat "" (repeat sample_char (Z.to_nat mid)))
              <=? screen_w)
         1 64.

(** [make_icon(pattern)]: the (x, y) of every '#', row by row. *)
Fixpoint row_coords (row : string) (x y : Z) : list (Z * Z) :=
  match row with
  | EmptyString => []
  | String ch rest =>
      ((if Ascii.eqb ch "#" then [(x, y)] else []) ++ row_coords rest (x + 1) y)%list
  end.

Fixpoint rows_coords (pattern : list string) (y : Z) : list (Z * Z) :=
  match pattern with
  | [] => []
  | row :: rest => (row_coords row 0 y ++ rows_coords rest (y + 1))%list
  end.

Definition make_icon (pattern : list string) : list (Z * Z) :=
  rows_coords pattern 0.

Definition REBUILD_PATTERNS : list (list string) :=
  [["....######....";
    "...#......#...";
    "..#........#..";
    ".#...#......#.";
    "#...#........#";
    "#..#..##.....#";
    "#.#..#..#..#.#";
    "#.#..#..#..#.#";
    "#.....##..#..#";
    "#........#...#";
    ".#......#...#.";
    "..#........#..";
    "...#......#...";
    "....######...."];
   ["....######....";
    "...#......#...";
    "..#...##...#..";
    ".#...#..#...#.";
    "#...#........#";
    "#.....##.....#";
    "#....#..#....#";
    "#....#..#....#";
    "#.....##.....#";
    "#........#...#";
    ".#...#..#...#.";
    "..#...##...#..";
    "...#......#...";
    "....######...."];
   ["....######....";
    "...#......#...";
    "..#....#...#..";
    ".#......#...#.";
    "#........#...#";
    "#.....##..#..#";
    "#....#..#..#.#";
    "#.#..#..#....#";
    "#..#..##.....#";
    "#...#........#";
    ".#...#......#.";
    "..#...#....#..";
    "...#......#...";
    "....######...."];
   ["....######....";
    "...#......#...";
    "..#........#..";
    ".#..........#.";
    "#........#...#";
    "#..#..##..#..#";
    "#.#..#..#..#.#";
    "#.#..#..#..#.#";
    "#..#..##..#..#";
    "#...#........#";
    ".#..........#.";
    "..#........#..";
    "...#......#...";
    "....######...."]].

Definition DEGRADED_PATTERNS : list (list string) :=
  [["....######....";
    "...#......#...";
    "..#........#..";
    ".#....##....#.";
    "#.....##.....#";
    "#.....##.....#";
    "#.....##.....#";
    "#.....##.....#";
    "#............#";
    "#.....##.....#";
    ".#....##....#.";
    "..#........#..";
    "...#......#...";
    "....######...."];
   ["....######....";
    "...#......#...";
    "..#........#..";
    ".#..........#.";
    "#............#";
    "#............#";
    "#............#";
    "#............#";
    "#............#";
    "#............#";
    ".#..........#.";
    "..#........#..";
    "...#......#...";
    "....######...."]].

Definition UNKNOWN_PATTERNS : list (list string) :=
  [["....######....";
    "...#......#...";
    "..#........#..";
    ".#...####...#.";
    "#...#....#...#";
    "#........#...#";
    "#........#...#";
    "#......##....#";
    "#.....#......#";
    "#.....#......#";
    ".#..........#.";
    "..#...#....#..";
    "...#......#...";
    "....######...."];
   ["....######....";
    "...#......#...";
    "..#........#..";
    ".#..........#.";
    "#............#";
    "#............#";
    "#............#";
    "#............#";
    "#............#";
    "#............#";
    ".#..........#.";
    "..#........#..";
    "...#......#...";
    "....######...."]].

Definition DEGRADED_BIG_PATTERNS : list (list string) :=
  [[".............##.............";
    "............####............";
    "...........##..##...........";
    "..........##....##..........";
    ".........##......##.........";
    "........##........##........";
    ".......##....##....##.......";
    "......##.....##.....##......";
    ".....##......##......##.....";
    "....##.......##.......##....";
    "...##........##........##...";
    "..##.........##.........##..";
    ".##..........##..........##.";
    "##...........##...........##";
    "##...........##...........##";
    "##...........##...........##";
    "##.......................##";
    "##.......................##";
    "##.......................##";
    "##.......................##";
    "##.......................##";
    "##.......................##";
    "##..........####.........##";
    "##..........####.........##";
    "##.......................##";
    ".##.....................##.";
    "..##...................##..";
    "....################...."];
   [".............##.............";
    "............####............";
    "...........##..##...........";
    "..........##....##..........";
    ".........##......##.........";
    "........##........##........";
    ".......##..........##.......";
    "......##............##......";
    ".....##..............##.....";
    "....##................##....";
    "...##..................##...";
    "..##....................##..";
    ".##......................##.";
    "##........................##";
    "##........................##";
    "##........................##";
    "##........................##";
    "##........................##";
    "##........................##";
    "##........................##";
    "##........................##";
    "##........................##";
    "##........................##";
    "##........................##";
    "##........................##";
    ".##......................##.";
    "..##....................##..";
    "....################...."]].

Definition POWER_PATTERNS : list (list string) :=
  [["..............";
    ".##...........";
    ".##......#....";
    ".##......#....";
    ".##....#.#.#..";
    ".##...#..#..#.";
    ".##..#...#...#";
    ".##..#.......#";
    ".##..#.......#";
    "......#.....#.";
    ".......#...#..";
    ".##.....###...";
    ".##...........";
    ".............."];
   ["..............";
    "..............";
    ".........#....";
    ".........#....";
    ".......#.#.#..";
    "......#..#..#.";
    ".....#...#...#";
    ".....#.......#";
    ".....#.......#";
    "......#.....#.";
    ".......#...#..";
    "........###...";
    "..............";
    ".............."]].

Definition CLEAN_PATTERN : list string :=
  ["....######....";
   "..##......#.##";
   "..#.........##";
   ".#.........##.";
   "#.........##..";
   "#........##..#";
   "#...#...##...#";
   "#...##.##....#";
   "#....###.....#";
   "#.....#......#";
   ".#..........#.";
   "..#........#..";
   "...#......#...";
   "....######...."].

Definition REBUILD_FRAMES : list (list (Z * Z)) := map make_icon REBUILD_PATTERNS.
Definition DEGRADED_FRAMES : list (list (Z * Z)) := map make_icon DEGRADED_PATTERNS.
Definition DEGRADED_BIG_FRAMES : list (list (Z * Z)) :=
  map make_icon DEGRADED_BIG_PATTERNS.
Definition UNKNOWN_FRAMES : list (list (Z * Z)) := map make_icon UNKNOWN_PATTERNS.
Definition CLEAN_FRAME : list (Z * Z) := make_icon CLEAN_PATTERN.
Definition POWER_FRAMES : list (list (Z * Z)) := map make_icon POWER_PATTERNS.

(** [l[i]] for a Python list: a negative index counts from the end, and an
    index out of range raises [IndexError], here [None]. *)
Definition item {A : Type} (l : list A) (i : Z) : option A :=
  let n := Z.of_nat (length l) in
  if (0 <=? i) && (i <? n) then nth_error l (Z.to_nat i)
  else if (- n <=? i) && (i <? 0) then nth_error l (Z.to_nat (n + i))
  else None.

(** What is drawn: [draw.point((x, y))] and
    [draw.rectangle((x0, y0, x1, y1))], both corners included. *)
Inductive shape : Type :=
| point (x y : Z)
| rectangle (x0 y0 x1 y1 : Z).

(** The 2x scaling of the big icons: one 2 by 2 square for each dot. *)
Definition doubled (x y : Z) (coords : list (Z * Z)) : list shape :=
  map (fun d => let px := x + fst d * 2 in
                let py := y + snd d * 2 in
                rectangle px py (px + 1) (py + 1)) coords.

Definition dotted (x y : Z) (coords : list (Z * Z)) : list shape :=
  map (fun d => point (x + fst d) (y + snd d)) coords.

(** [draw_clean_big(draw, x, y)] *)
Definition draw_clean_big (x y : Z) : list shape := doubled x y CLEAN_FRAME.

(** [draw_resync_big(draw, x, y)], at the animation frame [frame]. *)
Definition draw_resync_big (frame x y : Z) : option (list shape) :=
  match item REBUILD_FRAMES frame with
  | Some coords => Some (doubled x y coords)
  | None => None
  end.

(** [draw_degraded_big(draw, x, y)], at the animation frame [frame]. *)
Definition draw_degraded_big (frame x y : Z) : option (list shape) :=
  match item DEGRADED_BIG_FRAMES ((frame / 2) mod 2) with
  | Some coords => Some (dotted x y coords)
  | None => None
  end.

(** [draw_raid_sync], [draw_raid_degraded], [draw_raid_unknown] and the
    loop of [draw_power_icon], at the animation frame [frame]. *)
Definition draw_raid_sync (frame x y : Z) : option (list shape) :=
  match item REBUILD_FRAMES frame with
  | Some coords => Some (dotted x y coords)
  | None => None
  end.

Definition draw_raid_degraded (frame x y : Z) : option (list shape) :=
  match item DEGRADED_FRAMES ((frame / 2) mod 2) with
  | Some coords => Some (dotted x y coords)
  | None => None
  end.

Definition draw_raid_unknown (frame x y : Z) : option (list shape) :=
  match item UNKNOWN_FRAMES ((frame / 2) mod 2) with
  | Some coords => Some (dotted x y coords)
  | None => None
  end.

Definition draw_power_icon (frame x y : Z) (throttled : bool)
    : option (list shape) :=
  if negb throttled then Some []
  else match item POWER_FRAMES ((frame / 2) mod 2) with
       | Some coords => Some (dotted x y coords)
       | None => None
       end.

(** The pattern has at most [h] rows, each of at most [w] characters. *)
Definition sized (w h : nat) (pattern : list string) : bool :=
  (length pattern <=? h)%nat
  && forallb (fun row => (String.length row <=? w)%nat) pattern.

(** Every pixel of the shape lies in the window [x0, x1) by [y0, y1). *)
Definition inside (x0 y0 x1 y1 : Z) (s : shape) : Prop :=
  match s with
  | point x y => x0 <= x < x1 /\ y0 <= y < y1
  | rectangle a b c d => x0 <= a /\ a <= c < x1 /\ y0 <= b /\ b <= d < y1
  end.

End display.

(** ** oled-status/screensaver.py: BouncingRaidIcon *)

Module screensaver.

(** [ICON_SIZE = 28] *)
Definition ICON_SIZE : Z := 28.

(** [self.x], [self.y], [self.vx], [self.vy]: integers. *)
Record BouncingRaidIcon : Type := mkIcon {
  x : Z;
  y : Z;
  vx : Z;
  vy : Z
}.

(** What [__init__] can draw at random: a position in the body area and
    velocities among -2, -1, 1, 2. *)
Definition initial (self : BouncingRaidIcon) : Prop :=
  0 <= x self <= config.SCREEN_W - ICON_SIZE /\
  config.BODY_TOP <= y self <= config.SCREEN_H - ICON_SIZE /\
  In (vx self) [-2; -1; 1; 2] /\ In (vy self) [-2; -1; 1; 2].

(** [update()] *)
Definition update (self : BouncingRaidIcon) : BouncingRaidIcon :=
  let x1 := x self + vx self in
  let y1 := y self + vy self in
  let (x2, vx2) :=
    if x1 <=? 0 then (0, Z.abs (vx self))
    else if config.SCREEN_W - ICON_SIZE <=? x1
         then (config.SCREEN_W - ICON_SIZE, - Z.abs (vx self))
         else (x1, vx self) in
  let (y2, vy2) :=
    if y1 <=? config.BODY_TOP then (config.BODY_TOP, Z.abs (vy self))
    else if config.SCREEN_H - ICON_SIZE <=? y1
         then (config.SCREEN_H - ICON_SIZE, - Z.abs (vy self))
         else (y1, vy self) in
  mkIcon x2 y2 vx2 vy2.

(** [render(draw, ctx)]: the clean icon, scaled 2x, at the position. *)
Definition render (self : BouncingRaidIcon) : list display.shape :=
  display.doubled (x self) (y self) display.CLEAN_FRAME.

End screensaver.

(** ** oled-status/sources/mdadm.py: MdadmSource *)

Module mdadm.

(** The dict built by [_get_status]: a key is present when its field is
    [Some]. *)
Record status : Type := mkStatus {
  array_state : option string;
  sync_action : option string;
  progress : option float;
  finish_min : option float;
  speed_kps : option float
}.

(** [{}] *)
Definition no_status : status := mkStatus None None None None None.

(** What [open(path)] followed by [f.read()] ends in, for every path: the
    text of the file, or the exception raised. *)
Definition files : Type := string -> result string.

(** The world of the source: the file system (the files, and the paths
    [glob.glob("/dev/md[0-9]*")] returns), and the field [self._md_name]
    (it is not part of the cache). *)
Record env : Type := mkEnv {
  fs : files;
  dev_md : list string;
  _md_name : option string
}.

(** The values [_fetch] returns: the status dict for "status", the device
    name (or [None]) for "name", [None] for any other key. *)
Inductive value : Type :=
| Status (st : status)
| Name (md : option string)
| NoValue.

(** The first place at or after the start of [s] where [tag], a non-empty
    run of digits and dots, and then [unit] follow one another; the run is
    returned.  This is [re.search(tag + r"([\d\.]+)" + unit, s).group(1)]
    for literal [tag] and [unit], [unit] starting with neither a digit nor a
    dot: the greedy run cannot give characters back to [unit]. *)
Definition tagged_number_here (tag unit s : string) : option string :=
  match pystr.after_prefix tag s with
  | None => None
  | Some rest =>
      let (run, tail) := pystr.span pystr.is_digit_or_dot rest in
      if pystr.truthy run && pystr.startswith unit tail then Some run else None
  end.

Fixpoint search_tagged_number (tag unit s : string) : option string :=
  match tagged_number_here tag unit s with
  | Some run => Some run
  | None =>
      match s with
      | EmptyString => None
      | String _ rest => search_tagged_number tag unit rest
      end
  end.

(** [\s*=\s*([\d\.]+)%] matched at the start of [s]. *)
Definition percent_here (s : string) : option string :=
  match pystr.lstrip s with
  | String c rest =>
      if Ascii.eqb c "=" then tagged_number_here "" "%" (pystr.lstrip rest)
      else None
  | EmptyString => None
  end.

(** [(resync|check|recover|recovery)\s*=\s*([\d\.]+)%] matched at the start
    of [s]: the alternatives are tried in this order, each followed by the
    rest of the pattern. *)
Definition action_percent_here (s : string) : option string :=
  let try_action (found : option string) (action : string) : option string :=
    match found with
    | Some run => Some run
    | None =>
        match pystr.after_prefix action s with
        | Some rest => percent_here rest
        | None => None
        end
    end in
  fold_left try_action ["resync"; "check"; "recover"; "recovery"] None.

(** The lazy [.*?] with [re.DOTALL]: the first place, at or after the start
    of [s] and on whatever line, where the action and its percentage match. *)
Fixpoint search_action_percent (s : string) : option string :=
  match action_percent_here s with
  | Some run => Some run
  | None =>
      match s with
      | EmptyString => None
      | String _ rest => search_action_percent rest
      end
  end.

(** [re.search(rf"{md_name} :.*?(resync|check|recover|recovery)\s*=\s*([\d\.]+)%",
    mdstat, re.DOTALL).group(2)], for a device name without regex
    metacharacters (such as the [md<digits>] names the resolver returns):
    the first occurrence of the header ["<md_name> :"], then the first
    percentage after it.  A later header has fewer places after it, so it
    matches only if the first one does. *)
Fixpoint search_progress (md_name mdstat : string) : option string :=
  match pystr.after_prefix (md_name ++ " :") mdstat with
  | Some rest => search_action_percent rest
  | None =>
      match mdstat with
      | EmptyString => None
      | String _ rest => search_progress md_name rest
      end
  end.

(** [float(m.group(..))] when the search matched, the key left out when it
    did not. *)
Definition parsed (m : option string) : result (option float) :=
  match m with
  | None => Ok None
  | Some text =>
      match pyfloat.of_string text with
      | Ok x => Ok (Some x)
      | Raise e => Raise e
      end
  end.

(** Step 3 of [_get_status], inside [try: ... except Exception: pass]: an
    exception leaves the keys set so far and drops the rest. *)
Definition parse_mdstat (md_name : string) (fs : files) (st : status)
    : status :=
  match fs "/proc/mdstat" with
  | Raise _ => st
  | Ok mdstat =>
      match parsed (search_progress md_name mdstat) with
      | Raise _ => st
      | Ok pct =>
          let st1 := mkStatus (array_state st) (sync_action st)
                              pct (finish_min st) (speed_kps st) in
          match parsed (search_tagged_number "finish=" "min" mdstat) with
          | Raise _ => st1
          | Ok fin =>
              let st2 := mkStatus (array_state st) (sync_action st)
                                  pct fin (speed_kps st) in
              match parsed (search_tagged_number "speed=" "K/sec" mdstat) with
              | Raise _ => st2
              | Ok spd =>
                  mkStatus (array_state st) (sync_action st) pct fin spd
              end
          end
      end
  end.

(** Steps 1 and 2: [open(...).read().strip()] inside [try: ... except
    FileNotFoundError: pass]; any other exception leaves the function. *)
Definition read_attribute (fs : files) (path : string)
    : result (option string) :=
  match fs path with
  | Ok text => Ok (Some (pystr.strip text))
  | Raise e => if is_FileNotFoundError e then Ok None else Raise e
  end.

(** [sync_action and sync_action not in ("idle", "frozen")] *)
Definition sync_active (sync_action : option string) : bool :=
  match sync_action with
  | None => false
  | Some a => pystr.truthy a && negb (pystr.in_tuple a ["idle"; "frozen"])
  end.

(** [_get_status()], given the value of [self.md_name]. *)
Definition _get_status (md_name : option string) (fs : files)
    : result status :=
  match md_name with
  | None => Ok no_status
  | Some md =>
      if negb (pystr.truthy md) then Ok no_status else
      match read_attribute fs ("/sys/block/" ++ md ++ "/md/array_state") with
      | Raise e => Raise e
      | Ok state =>
          match read_attribute fs ("/sys/block/" ++ md ++ "/md/sync_action") with
          | Raise e => Raise e
          | Ok action =>
              let st := mkStatus state action None None None in
              if sync_active action then Ok (parse_mdstat md fs st)
              else Ok st
          end
      end
  end.

(** [re.match(r"^(md\d+)", s)]: the name matched and what follows it. *)
Definition match_md (s : string) : option (string * string) :=
  match pystr.after_prefix "md" s with
  | None => None
  | Some rest =>
      let (number, tail) := pystr.span pystr.is_digit rest in
      if pystr.truthy number then Some ("md" ++ number, tail) else None
  end.

(** The loop over /proc/mounts: a line of fewer than two fields makes the
    unpacking [dev, mnt, *_ = line.split()] raise [ValueError]. *)
Fixpoint scan_mounts (prefer_mountpoint : string) (lines : list string)
    : result (option string) :=
  match lines with
  | [] => Ok None
  | line :: rest =>
      match pystr.split line with
      | dev :: mnt :: _ =>
          if String.eqb mnt prefer_mountpoint then
            match match_md (pystr.basename dev) with
            | Some (name, _) => Ok (Some name)
            | None => scan_mounts prefer_mountpoint rest
            end
          else scan_mounts prefer_mountpoint rest
      | _ => Raise ValueError
      end
  end.

(** The loop over /proc/mdstat: the first line matching
    [^(md\d+)\s*:\s*]. *)
Fixpoint scan_mdstat (lines : list string) : option string :=
  match lines with
  | [] => None
  | line :: rest =>
      match match_md line with
      | Some (name, tail) =>
          if pystr.startswith ":" (pystr.lstrip tail) then Some name
          else scan_mdstat rest
      | None => scan_mdstat rest
      end
  end.

(** [_resolve_md_name(prefer_mountpoint)]: the mount table, then
    /proc/mdstat, each inside [try: ... except Exception: pass], then the
    first of the sorted /dev/md* paths. *)
Definition _resolve_md_name (prefer_mountpoint : string) (fs : files)
    (dev_md : list string) : option string :=
  let from_mounts :=
    match fs "/proc/mounts" with
    | Ok text =>
        match scan_mounts prefer_mountpoint (pystr.lines text) with
        | Ok found => found
        | Raise _ => None
        end
    | Raise _ => None
    end in
  match from_mounts with
  | Some name => Some name
  | None =>
      let from_mdstat :=
        match fs "/proc/mdstat" with
        | Ok text => scan_mdstat (pystr.lines text)
        | Raise _ => None
        end in
      match from_mdstat with
      | Some name => Some name
      | None =>
          match pystr.least dev_md with
          | Some path => Some (pystr.basename path)
          | None => None
          end
      end
  end.

(** A name of the form [md<digits>], with at least one digit. *)
Definition md_device (name : string) : bool :=
  match pystr.after_prefix "md" name with
  | Some number =>
      pystr.truthy number && pystr.all_chars pystr.is_digit number
  | None => false
  end.

(** A non-empty run of digits and dots: what [[\d\.]+] matches. *)
Definition number_text (run : string) : bool :=
  pystr.truthy run && pystr.all_chars pystr.is_digit_or_dot run.

(** The property [md_name]: resolved when [self._md_name] is [None], and
    kept. *)
Definition md_name (w : env) : option string * env :=
  match _md_name w with
  | Some md => (Some md, w)
  | None =>
      let md := _resolve_md_name config.STORAGE_MOUNT (fs w) (dev_md w) in
      (md, mkEnv (fs w) (dev_md w) md)
  end.

(** [_fetch(key)] *)
Definition _fetch (key : string) (w : env) : result value * env :=
  if String.eqb key "status" then
    let (md, w') := md_name w in
    match _get_status md (fs w') with
    | Ok st => (Ok (Status st), w')
    | Raise e => (Raise e, w')
    end
  else if String.eqb key "name" then
    let (md, w') := md_name w in (Ok (Name md), w')
  else (Ok NoValue, w).

(** [MdadmSource.get], inherited from [CachedDataSource]. *)
Definition get := base.get (V := value) (W := env) _fetch.

End mdadm.

(** ** sources/system.py: SystemSource *)

Module system.

(** The dict of [_get_power_throttled]. *)
Record throttle : Type := mkThrottle {
  under_voltage : bool;
  freq_capped : bool;
  throttled : bool;
  soft_temp_limit : bool;
  under_voltage_occurred : bool;
  freq_capped_occurred : bool;
  throttled_occurred : bool;
  soft_temp_limit_occurred : bool;
  raw : string
}.

(** The dict [_get_power_throttled] builds from [val = int(hexval, 16)]:
    [bool(val & mask)] for each flag. *)
Definition flags_of (val : Z) (hexval : string) : throttle :=
  let flag (mask : Z) : bool := negb (Z.land val mask =? 0) in
  mkThrottle (flag 0x1) (flag 0x2) (flag 0x4) (flag 0x8)
             (flag 0x10000) (flag 0x20000) (flag 0x40000) (flag 0x80000)
             hexval.

(** The dict of the [except Exception] branch. *)
Definition not_throttled : throttle :=
  mkThrottle false false false false false false false false "0x0".

(** What the body of each [try] ends in: the socket query, the read of
    /proc/uptime and the two [vcgencmd] calls, parsing included. *)
Record probes : Type := mkProbes {
  ip_address : result string;
  uptime_seconds : result float;
  power_throttled : result throttle;
  cpu_temp : result float
}.

Inductive value : Type :=
| Ip (s : string)
| Seconds (x : option float)
| Throttle (t : throttle)
| Celsius (x : option float)
| NoValue.

Definition _get_ip_address (w : probes) : string :=
  match ip_address w with Ok ip => ip | Raise _ => "unknown" end.

Definition _get_uptime_seconds (w : probes) : option float :=
  match uptime_seconds w with Ok x => Some x | Raise _ => None end.

Definition _get_power_throttled (w : probes) : throttle :=
  match power_throttled w with Ok t => t | Raise _ => not_throttled end.

Definition _get_cpu_temp (w : probes) : option float :=
  match cpu_temp w with Ok x => Some x | Raise _ => None end.

(** [_fetch(key)] *)
Definition _fetch (key : string) (w : probes) : result value * probes :=
  if String.eqb key "ip" then (Ok (Ip (_get_ip_address w)), w)
  else if String.eqb key "uptime" then
    (Ok (Seconds (_get_uptime_seconds w)), w)
  else if String.eqb key "power_throttled" then
    (Ok (Throttle (_get_power_throttled w)), w)
  else if String.eqb key "cpu_temp" then (Ok (Celsius (_get_cpu_temp w)), w)
  else (Ok NoValue, w).

(** [SystemSource.get], inherited from [CachedDataSource]. *)
Definition get := base.get (V := value) (W := probes) _fetch.

End system.

(** ** oled-status/alarms.py *)

Module alarms.

(** [AlarmState]: [self.cooldown] and [self.last_alert]. *)
Record AlarmState : Type := mkAlarmState {
  cooldown : float;
  last_alert : gmap string float
}.

(** [AlarmState(cooldown_seconds)] *)
Definition init (cooldown_seconds : float) : AlarmState :=
  mkAlarmState cooldown_seconds ∅.

(** [should_alert(alarm_id)], with [now] the reading of [time.time()].
    [now - last >= self.cooldown] is [self.cooldown <= now - last]. *)
Definition should_alert (now : float) (alarm_id : string)
    (self : AlarmState) : bool * AlarmState :=
  let last := default 0%float (last_alert self !! alarm_id) in
  if (cooldown self <=? now - last)%float
  then (true, mkAlarmState (cooldown self) (<[alarm_id := now]> (last_alert self)))
  else (false, self).

(** [clear(alarm_id)] *)
Definition clear (alarm_id : string) (self : AlarmState) : AlarmState :=
  mkAlarmState (cooldown self) (delete alarm_id (last_alert self)).

(** A sequence of calls on one [AlarmState], and what each call did. *)
Inductive call : Type :=
| ShouldAlert (now : float) (alarm_id : string)
| Clear (alarm_id : string).

Inductive event : Type :=
| Alerted (now : float) (alarm_id : string)
| Suppressed (now : float) (alarm_id : string)
| Cleared (alarm_id : string).

Fixpoint run (calls : list call) (self : AlarmState)
    : list event * AlarmState :=
  match calls with
  | [] => ([], self)
  | ShouldAlert now alarm_id :: rest =>
      let (answer, self') := should_alert now alarm_id self in
      let (log, final) := run rest self' in
      ((if answer then Alerted now alarm_id else Suppressed now alarm_id)
         :: log, final)
  | Clear alarm_id :: rest =>
      let (log, final) := run rest (clear alarm_id self) in
      (Cleared alarm_id :: log, final)
  end.

(** The times at which [should_alert(alarm_id)] answered true since the
    last [clear(alarm_id)], latest first; [since] holds those seen before
    the log starts. *)
Fixpoint episode (alarm_id : string) (log : list event) (since : list float)
    : list float :=
  match log with
  | [] => since
  | Alerted now id :: rest =>
      episode alarm_id rest
        (if String.eqb id alarm_id then now :: since else since)
  | Suppressed _ _ :: rest => episode alarm_id rest since
  | Cleared id :: rest =>
      episode alarm_id rest (if String.eqb id alarm_id then [] else since)
  end.

(** Each time of the list (latest first) is at least [cooldown] after the
    one before it. *)
Fixpoint spaced (cooldown : float) (times : list float) : Prop :=
  match times with
  | later :: (earlier :: _) as rest =>
      (cooldown <=? later - earlier)%float = true /\ spaced cooldown rest
  | _ => True
  end.

(** The SMART dict of one disk, as [_parse_smart_data] builds it: a key is
    present when its field is [Some]. *)
Record disk : Type := mkDisk {
  temperature_c : option float;
  power_on_hours : option Z;
  power_cycles : option Z;
  reallocated_sectors : option Z;
  pending_sectors : option Z;
  uncorrectable_sectors : option Z;
  crc_errors : option Z
}.

(** The module state [check] works on: the global [_alarm_state], the
    number of clock readings taken so far, and the patterns passed to
    [buzzer.pattern], in order. *)
Record state : Type := mkState {
  alarm_state : AlarmState;
  readings : nat;
  dispatched : list string
}.

(** [_alarm_state = AlarmState(cooldown_seconds=300.0)] *)
Definition _alarm_state : AlarmState := init 300%float.

Definition start : state := mkState _alarm_state 0 [].

Section Check.

(** The wall clock: the value of the n-th reading of [time.time()]. *)
Variable time : nat -> float.

(** [if _alarm_state.should_alert(alarm_id): buzzer.pattern(name)] *)
Definition alert (alarm_id name : string) (s : state) : state :=
  let (answer, a) := should_alert (time (readings s)) alarm_id (alarm_state s) in
  mkState a (S (readings s))
          (if answer then (dispatched s ++ [name])%list else dispatched s).

(** [_alarm_state.clear(alarm_id)] *)
Definition resolve (alarm_id : string) (s : state) : state :=
  mkState (clear alarm_id (alarm_state s)) (readings s) (dispatched s).

(** [sync_action in ("resync", "recovery", "recover")] *)
Definition resyncing (sync_action : string) : bool :=
  pystr.in_tuple sync_action ["resync"; "recovery"; "recover"].

(** ["degraded" in array_state.lower()] *)
Definition degraded (array_state : string) : bool :=
  pystr.contains "degraded" (pystr.lower array_state).

(** The first block of [check]: the RAID status. *)
Definition check_raid (raid_status : mdadm.status) (s : state) : state :=
  let array_state := default "" (mdadm.array_state raid_status) in
  let sync_action := default "" (mdadm.sync_action raid_status) in
  if degraded array_state then alert "raid_degraded" "double" s
  else if resyncing sync_action then alert "raid_resync" "short" s
  else resolve "raid_resync" (resolve "raid_degraded" s).

(** The body of the first loop over [smart.items()]. *)
Definition check_temperature (item : string * disk) (s : state) : state :=
  let (name, data) := item in
  match temperature_c data with
  | None => s
  | Some temp =>
      let alarm_id := "temp_" ++ name in
      if (60 <=? temp)%float then alert alarm_id "triple" s
      else if (50 <=? temp)%float then alert alarm_id "short" s
      else resolve alarm_id s
  end.

(** The body of the second loop over [smart.items()]. *)
Definition check_sectors (item : string * disk) (s : state) : state :=
  let (name, data) := item in
  let reallocated := default 0 (reallocated_sectors data) in
  let pending := default 0 (pending_sectors data) in
  let uncorrectable := default 0 (uncorrectable_sectors data) in
  let alarm_id := "smart_" ++ name in
  if (0 <? reallocated) || (0 <? pending) || (0 <? uncorrectable)
  then alert alarm_id "long" s
  else resolve alarm_id s.

(** The last block of [check]: power. *)
Definition check_power (throttle : system.throttle) (s : state) : state :=
  if system.under_voltage throttle || system.throttled throttle
  then alert "power_throttle" "double" s
  else resolve "power_throttle" s.

(** [check(ctx, buzzer)], given what the three reads of the context
    returned: [raid_status] from [ctx.mdadm.get("status", ttl_s=5.0)],
    [smart] from [ctx.glances.get("smart", ttl_s=10.0)] ([None] or the
    items of the dict, in order) and [throttle] from
    [ctx.system.get("power_throttled", ttl_s=10.0)]. *)
Definition check (raid_status : mdadm.status)
    (smart : option (list (string * disk))) (throttle : system.throttle)
    (s : state) : state :=
  let items := default [] smart in
  let s1 := check_raid raid_status s in
  let s2 := fold_left (fun acc item => check_temperature item acc) items s1 in
  let s3 := fold_left (fun acc item => check_sectors item acc) items s2 in
  check_power throttle s3.

End Check.

(** [s'] continues [s]: it has dispatched what [s] had and possibly more,
    and the stamp of the alarm [other] is as in [s]. *)
Definition extends_keeping (other : string) (s s' : state) : Prop :=
  (exists more, dispatched s' = (dispatched s ++ more)%list) /\
  last_alert (alarm_state s') !! other = last_alert (alarm_state s) !! other.

(** A disk whose temperature, if known, is below both thresholds of
    [check]. *)
Definition disk_cool (data : disk) : bool :=
  match temperature_c data with
  | None => true
  | Some temp => negb (60 <=? temp)%float && negb (50 <=? temp)%float
  end.

(** A disk with no reallocated, pending or uncorrectable sector. *)
Definition disk_sound (data : disk) : bool :=
  negb ((0 <? default 0 (reallocated_sectors data))
        || (0 <? default 0 (pending_sectors data))
        || (0 <? default 0 (uncorrectable_sectors data))).

(** [s'] is [s] with some alarms cleared and nothing else done: nothing
    dispatched, no clock reading taken, no stamp added or moved. *)
Definition cleared_only (s s' : state) : Prop :=
  dispatched s' = dispatched s /\
  readings s' = readings s /\
  cooldown (alarm_state s') = cooldown (alarm_state s) /\
  last_alert (alarm_state s') ⊆ last_alert (alarm_state s).

(** [s'] has dispatched what [s] had, followed by at most [k] more
    patterns, each of which satisfies [ok]. *)
Definition dispatches_more (ok : string -> bool) (k : nat) (s s' : state)
    : Prop :=
  exists more,
    dispatched s' = (dispatched s ++ more)%list /\
    (length more <= k)%nat /\
    forallb ok more = true.

(** What one evaluation asks of the alarm state, in order: for each alarm
    id it consults, the pattern to sound if [should_alert] allows it, or
    [None] when the alarm is cleared. *)
Definition raid_plan (raid_status : mdadm.status)
    : list (string * option string) :=
  let array_state := default "" (mdadm.array_state raid_status) in
  let sync_action := default "" (mdadm.sync_action raid_status) in
  if degraded array_state then [("raid_degraded", Some "double")]
  else if resyncing sync_action then [("raid_resync", Some "short")]
  else [("raid_degraded", None); ("raid_resync", None)].

Definition temperature_plan (item : string * disk)
    : list (string * option string) :=
  match temperature_c (snd item) with
  | None => []
  | Some temp =>
      [("temp_" ++ fst item,
        if (60 <=? temp)%float then Some "triple"
        else if (50 <=? temp)%float then Some "short"
        else None)]
  end.

Definition sectors_plan (item : string * disk)
    : list (string * option string) :=
  [("smart_" ++ fst item, if disk_sound (snd item) then None else Some "long")].

Definition power_plan (throttle : system.throttle)
    : list (string * option string) :=
  [("power_throttle",
    if system.under_voltage throttle || system.throttled throttle
    then Some "double" else None)].

Definition plan (raid_status : mdadm.status)
    (smart : option (list (string * disk))) (throttle : system.throttle)
    : list (string * option string) :=
  let items := default [] smart in
  (raid_plan raid_status ++ flat_map temperature_plan items
     ++ flat_map sectors_plan items ++ power_plan throttle)%list.

Definition perform (time : nat -> float) (s : state)
    (action : string * option string) : state :=
  match snd action with
  | Some name => alert time (fst action) name s
  | None => resolve (fst action) s
  end.

(** No alarm id is both sounded and cleared. *)
Definition exclusive (actions : list (string * option string)) : Prop :=
  forall alarm_id name,
    In (alarm_id, Some name) actions -> ~ In (alarm_id, None) actions.

(** The two alarms of the RAID block. *)
Definition raid_id (other : string) : Prop :=
  other = "raid_degraded" \/ other = "raid_resync".

End alarms.

(** ** oled-status/pages/home.py *)

Module home.

(** The calls made on the drawing surface, in order. *)
Inductive draw_op : Type :=
| draw_header (title : string)
| draw_resync_big (x y : Z)
| draw_degraded_big (x y : Z)
| draw_clean_big (x y : Z)
| draw_body_lines_at (x : Z) (lines : list (Z * string * string)).

(** What a page function leaves behind: the calls it made, and whether it
    returned or raised. *)
Definition drawing : Type := list draw_op * result unit.

(** [header_map.get(sync_action, "Syncing")] *)
Definition header_map : list (string * string) :=
  [("resync", "Resync"); ("recovery", "Recovery"); ("recover", "Recovery");
   ("check", "Check"); ("repair", "Repair")].

Fixpoint lookup (key : string) (table : list (string * string))
    (missing : string) : string :=
  match table with
  | [] => missing
  | (k, v) :: rest => if String.eqb k key then v else lookup key rest missing
  end.

(** [_render_resync(draw, ctx, raid_status, sync_action)] *)
Definition _render_resync (raid_status : mdadm.status) (sync_action : string)
    : drawing :=
  let header := lookup sync_action header_map "Syncing" in
  let prog_val :=
    match mdadm.progress raid_status with
    | None => "N/A"
    | Some p => pyfloat.format_fixed 1 p ++ "%"
    end in
  let rate_val :=
    match mdadm.speed_kps raid_status with
    | None => "N/A"
    | Some k => formatters.fmt_rate (Some k)
    end in
  let eta :=
    match mdadm.finish_min raid_status with
    | Some finish_min => formatters.fmt_time (Some (finish_min * 60)%float)
    | None => Ok "N/A"
    end in
  let head := [draw_header header; draw_resync_big 0 config.BODY_ICON_Y] in
  match eta with
  | Raise e => (head, Raise e)
  | Ok eta_val =>
      ((head ++ [draw_body_lines_at 34
                   [(config.L1, "Prog:", prog_val);
                    (config.L2, "Rate:", rate_val);
                    (config.L3, "ETA:", eta_val)]])%list,
       Ok tt)
  end.

Section Render.

(** The context as the degraded and clean views read it.  Their three body
    values are computed from the Glances data (or the computation raises);
    the views are told apart by their header and icon. *)
Context {Ctx : Type}.
Variable degraded_values : Ctx -> mdadm.status -> result (string * string * string).
Variable clean_values : Ctx -> result (string * string * string).

(** [_render_degraded(draw, ctx, raid_status)] *)
Definition _render_degraded (ctx : Ctx) (raid_status : mdadm.status)
    : drawing :=
  let head := [draw_header "DEGRADED"; draw_degraded_big 0 config.BODY_ICON_Y] in
  match degraded_values ctx raid_status with
  | Raise e => (head, Raise e)
  | Ok (array_val, raid_type, temp_val) =>
      ((head ++ [draw_body_lines_at 34
                   [(config.L1, "Disks:", array_val);
                    (config.L2, "Type:", raid_type);
                    (config.L3, "Temp:", temp_val)]])%list,
       Ok tt)
  end.

(** [_render_clean(draw, ctx)] *)
Definition _render_clean (ctx : Ctx) : drawing :=
  let head := [draw_header "Online"; draw_clean_big 0 config.BODY_ICON_Y] in
  match clean_values ctx with
  | Raise e => (head, Raise e)
  | Ok (used_val, rw_val, temp_val) =>
      ((head ++ [draw_body_lines_at 34
                   [(config.L1, "Used:", used_val);
                    (config.L2, "R/W:", rw_val);
                    (config.L3, "Temp:", temp_val)]])%list,
       Ok tt)
  end.

(** [render(draw, ctx)], given [raid_status], what
    [ctx.mdadm.get("status", ttl_s=2.0)] returned. *)
Definition render (ctx : Ctx) (raid_status : mdadm.status) : drawing :=
  let sync_action := default "" (mdadm.sync_action raid_status) in
  let array_state := default "" (mdadm.array_state raid_status) in
  let otherwise :=
    if pystr.contains "degraded" (pystr.lower array_state)
    then _render_degraded ctx raid_status
    else _render_clean ctx in
  if pystr.truthy sync_action
     && negb (pystr.in_tuple sync_action ["idle"; "frozen"])
  then
    if pystr.in_tuple sync_action
         ["resync"; "recovery"; "recover"; "check"; "repair"]
    then _render_resync raid_status sync_action
    else otherwise
  else otherwise.

End Render.

(** The three views of the home page, told apart by the header and the
    icon a drawing starts with. *)
Inductive view : Type := SyncView | DegradedView | CleanView.

Definition view_of (d : drawing) : option view :=
  match fst d with
  | draw_header _ :: draw_resync_big _ _ :: _ => Some SyncView
  | draw_header _ :: draw_degraded_big _ _ :: _ => Some DegradedView
  | draw_header _ :: draw_clean_big _ _ :: _ => Some CleanView
  | _ => None
  end.

(** The condition under which [render] draws the sync view. *)
Definition sync_shown (raid_status : mdadm.status) : bool :=
  pystr.in_tuple (default "" (mdadm.sync_action raid_status))
    ["resync"; "recovery"; "recover"; "check"; "repair"].

(** The title a drawing starts with. *)
Definition header_of (d : drawing) : option string :=
  match fst d with
  | draw_header title :: _ => Some title
  | _ => None
  end.

End home.

(** ** context.py: Context *)

Module context.

(** The three sources a [Context] owns, each with its own cache. *)
Record Context : Type := mkContext {
  glances : base.CachedDataSource pyval.t;
  mdadm : base.CachedDataSource mdadm.value;
  system : base.CachedDataSource system.value
}.

(** [Context()] *)
Definition init : Context := mkContext base.init base.init base.init.

(** [invalidate_all()] *)
Definition invalidate_all (self : Context) : Context :=
  mkContext (base.invalidate None (glances self))
            (base.invalidate None (mdadm self))
            (base.invalidate None (system self)).

End context.

(** ** The end-to-end scenario of the resync view *)

Module scenario.

(** /proc/mdstat while md0 resyncs. *)
Definition mdstat : string :=
  "Personalities : [raid1]
md0 : active resync = 52.2% (510000000/976630464) finish=396.1min speed=99181K/sec
unused devices: <none>
".

(** The files of the scenario: the storage mount is on md0, the array is
    clean and resyncs. *)
Definition fs : mdadm.files := fun path =>
  if String.eqb path "/proc/mounts"
  then Ok "/dev/root / ext4 rw,noatime 0 0
/dev/md0 /mnt/storage ext4 rw,relatime 0 0
"
  else if String.eqb path "/sys/block/md0/md/array_state" then Ok "clean
"
  else if String.eqb path "/sys/block/md0/md/sync_action" then Ok "resync
"
  else if String.eqb path "/proc/mdstat" then Ok mdstat
  else Raise FileNotFoundError.

(** /proc/mdstat of two arrays on the same disks: md0 waits for its resync
    ([sync_action] reads "resync", the log says DELAYED) while md1 resyncs. *)
Definition md0_delayed : string :=
  "md0 : active raid1 sdb1[1] sda1[0]
      976630464 blocks super 1.2 [2/2] [UU]
        resync=DELAYED
".

Definition md1_resyncing : string :=
  "md1 : active raid1 sdb2[1] sda2[0]
      488254464 blocks super 1.2 [2/2] [UU]
      [=>...................]  resync =  8.3% (40600000/488254464) finish=71.4min speed=104477K/sec
".

(** /proc/mdstat of two arrays on separate disks: md1, listed first, is
    checked while md0 resyncs. *)
Definition md1_checking : string :=
  "md1 : active raid1 sdd1[1] sdc1[0]
      488254464 blocks super 1.2 [2/2] [UU]
      [=>...................]  check =  8.3% (40600000/488254464) finish=71.4min speed=104477K/sec
".

Definition md0_resyncing : string :=
  "md0 : active raid1 sdb1[1] sda1[0]
      976630464 blocks super 1.2 [2/2] [UU]
      [==========>..........]  resync = 52.2% (510000000/976630464) finish=396.1min speed=99181K/sec
".

(** The files of the scenario, with another text in /proc/mdstat. *)
Definition fs_with (log : string) : mdadm.files := fun path =>
  if String.eqb path "/proc/mdstat" then Ok log else fs path.

(** The files of the scenario, with [array_state] unreadable. *)
Definition fs_denied : mdadm.files := fun path =>
  if String.eqb path "/sys/block/md0/md/array_state"
  then Raise PermissionError else fs path.

End scenario.

(** ** pages/__init__.py *)

Module pages.

Inductive page : Type := network | system | storage | raid | temps.

(** [BROWSE_PAGES = [network, system, storage, raid, temps]] *)
Definition BROWSE_PAGES : list page := [network; system; storage; raid; temps].

End pages.

(** ** oled-status/main.py: navigation *)

Module main.

(** The globals [current_page] and [last_nav_at]. *)
Record nav : Type := mkNav {
  current_page : Z;
  last_nav_at : float
}.

(** The values the globals are created with. *)
Definition initial : nav := mkNav (-1) 0%float.

(** [on_button(channel)], with [now] the reading of [time.monotonic()].
    [last_nav_at] is assigned first; [%] raises on an empty page list. *)
Definition on_button (browse_pages : list pages.page) (now : float) (s : nav)
    : result unit * nav :=
  if current_page s =? -1 then (Ok tt, mkNav 0 now)
  else
    let n := Z.of_nat (length browse_pages) in
    if n =? 0 then (Raise ZeroDivisionError, mkNav (current_page s) now)
    else (Ok tt, mkNav ((current_page s + 1) mod n) now).

(** The idle check of the main loop, with [now_mono] the reading of
    [time.monotonic()] taken at the top of the iteration. *)
Definition idle_timeout (now_mono : float) (s : nav) : nav :=
  if negb (current_page s =? -1)
     && (config.NAV_TIMEOUT <=? now_mono - last_nav_at s)%float
  then mkNav (-1) (last_nav_at s)
  else s.

(** What happens to the navigation state: a button press or an iteration of
    the main loop, each with its clock reading. *)
Inductive input : Type :=
| Press (now : float)
| Tick (now_mono : float).

Definition step (browse_pages : list pages.page) (i : input) (s : nav) : nav :=
  match i with
  | Press now => snd (on_button browse_pages now s)
  | Tick now_mono => idle_timeout now_mono s
  end.

Definition steps (browse_pages : list pages.page) (inputs : list input)
    (s : nav) : nav :=
  fold_left (fun acc i => step browse_pages i acc) inputs s.

(** What the render step of the main loop passes to [display.render]. *)
Inductive shown : Type :=
| Home
| Browse (p : pages.page).

(** The page selection of the main loop, from the copies [page] and
    [nav_at]; [None] is the [IndexError] of [pages.BROWSE_PAGES[page]]. *)
Definition select_page (browse_pages : list pages.page) (now_mono : float)
    (page : Z) (nav_at : float) : option shown :=
  if (page =? -1) || (config.NAV_TIMEOUT <=? now_mono - nav_at)%float
  then Some Home
  else option_map Browse (display.item browse_pages page).

(** One iteration of the main loop, as far as navigation goes: the idle
    check, the copies, the selection. *)
Definition iteration (browse_pages : list pages.page) (now_mono : float)
    (s : nav) : nav * option shown :=
  let s' := idle_timeout now_mono s in
  (s', select_page browse_pages now_mono (current_page s') (last_nav_at s')).

(** [current_page] is Home or the index of a browse page. *)
Definition valid_page (browse_pages : list pages.page) (s : nav) : Prop :=
  current_page s = -1 \/
  0 <= current_page s < Z.of_nat (length browse_pages).

End main.

(** ** buzzer.py: Buzzer *)

Module buzzer.

(** What the buzzer does to the hardware, in order: [GPIO.PWM(pin,
    frequency)], [pwm.start(duty_cycle)], [time.sleep(ms / 1000.0)] (the
    event keeps the milliseconds) and [pwm.stop()]. *)
Inductive event : Type :=
| PWM (pin frequency : Z)
| Start (duty_cycle : Z)
| Sleep (ms : Z)
| Stop.

Record Buzzer : Type := mkBuzzer {
  pin : Z;
  frequency : Z
}.

(** [beep(duration_ms)], with the default duty cycle of 50. *)
Definition beep (self : Buzzer) (duration_ms : Z) : list event :=
  [PWM (pin self) (frequency self); Start 50; Sleep duration_ms; Stop].

(** The dict [patterns]: (beep_ms, pause_ms) pairs. *)
Definition patterns : list (string * list (Z * Z)) :=
  [("short", [(100, 100)]);
   ("long", [(500, 100)]);
   ("double", [(100, 100); (100, 100)]);
   ("triple", [(100, 100); (100, 100); (100, 100)])].

(** [patterns[name]], which raises [KeyError] on a missing key. *)
Fixpoint lookup (name : string) (table : list (string * list (Z * Z)))
    : result (list (Z * Z)) :=
  match table with
  | [] => Raise KeyError
  | (k, v) :: rest => if String.eqb k name then Ok v else lookup name rest
  end.

(** [name in patterns] *)
Definition known (name : string) : bool :=
  existsb (fun entry => String.eqb (fst entry) name) patterns.

(** The loop of [pattern]: a beep, then a pause, for each pair. *)
Definition play (self : Buzzer) (pairs : list (Z * Z)) : list event :=
  flat_map (fun pair => (beep self (fst pair) ++ [Sleep (snd pair)])%list) pairs.

(** [pattern(name)] *)
Definition pattern (self : Buzzer) (name : string) : result (list event) :=
  let name' := if known name then name else "short" in
  match lookup name' patterns with
  | Ok pairs => Ok (play self pairs)
  | Raise e => Raise e
  end.



End buzzer.

(** * Properties *)

Import base.

(** ** The TTL cache *)

Section CacheFacts.

Context {V W : Type}.
Variable _fetch : string -> W -> result V * W.

Lemma refresh_fetched now key (self : CachedDataSource V) w :
  fetched (refresh _fetch now key self w) = [key].
Proof.
  unfold refresh. destruct (_fetch key w) as [r w']. destruct r; reflexivity.
Qed.

Lemma refresh_world now key (self : CachedDataSource V) w :
  world (refresh _fetch now key self w) = snd (_fetch key w).
Proof.
  unfold refresh. destruct (_fetch key w) as [r w']. destruct r; reflexivity.
Qed.

Lemma refresh_ok now key (self : CachedDataSource V) w value w' :
  _fetch key w = (Ok value, w') ->
  refresh _fetch now key self w =
    mkOutcome (Ok value)
      (mkSource (<[key := value]> (_cache self)) (<[key := now]> (_timestamps self)))
      w' [key].
Proof. intros E. unfold refresh. rewrite E. reflexivity. Qed.

Lemma refresh_raise now key (self : CachedDataSource V) w e w' :
  _fetch key w = (Raise e, w') ->
  refresh _fetch now key self w = mkOutcome (Raise e) self w' [key].
Proof. intros E. unfold refresh. rewrite E. reflexivity. Qed.

Lemma get_hit now key ttl_s (self : CachedDataSource V) w v ts :
  _cache self !! key = Some v ->
  _timestamps self !! key = Some ts ->
  (now - ts <? ttl_s)%float = true ->
  get _fetch now key ttl_s self w = mkOutcome (Ok v) self w [].
Proof. intros Hc Ht Hage. unfold get. rewrite Hc, Ht, Hage. reflexivity. Qed.

Lemma get_stale now key ttl_s (self : CachedDataSource V) w ts :
  _timestamps self !! key = Some ts ->
  (now - ts <? ttl_s)%float = false ->
  get _fetch now key ttl_s self w = refresh _fetch now key self w.
Proof.
  intros Ht Hage. unfold get. rewrite Ht, Hage.
  destruct (_cache self !! key); reflexivity.
Qed.

Lemma get_absent now key ttl_s (self : CachedDataSource V) w :
  _cache self !! key = None ->
  get _fetch now key ttl_s self w = refresh _fetch now key self w.
Proof. intros Hc. unfold get. rewrite Hc. reflexivity. Qed.

(** Every step keeps the two dictionaries on the same keys. *)
Lemma refresh_consistent now key (self : CachedDataSource V) w :
  consistent self -> consistent (source (refresh _fetch now key self w)).
Proof.
  unfold consistent, refresh. intros H.
  destruct (_fetch key w) as [[value|e] w']; simpl; [|exact H].
  rewrite !dom_insert_L, H. reflexivity.
Qed.

Lemma get_consistent now key ttl_s (self : CachedDataSource V) w :
  consistent self -> consistent (source (get _fetch now key ttl_s self w)).
Proof.
  intros H. unfold get.
  destruct (_cache self !! key) as [v|]; [|by apply refresh_consistent].
  destruct (_timestamps self !! key) as [ts|]; [|exact H].
  destruct (now - ts <? ttl_s)%float; [exact H|by apply refresh_consistent].
Qed.

Lemma invalidate_consistent key (self : CachedDataSource V) :
  consistent self -> consistent (invalidate key self).
Proof.
  unfold consistent. intros H. destruct key as [k|]; simpl.
  - rewrite !dom_delete_L, H. reflexivity.
  - rewrite !dom_empty_L. reflexivity.
Qed.

Lemma run_consistent calls : forall (self : CachedDataSource V) w,
  consistent self -> consistent (fst (run _fetch calls self w)).
Proof.
  induction calls as [|c calls IH]; intros self w H; [exact H|].
  destruct c as [now key ttl_s|key]; simpl.
  - apply IH. by apply get_consistent.
  - apply IH. by apply invalidate_consistent.
Qed.

Lemma consistent_lookup (self : CachedDataSource V) key :
  consistent self ->
  is_Some (_cache self !! key) -> is_Some (_timestamps self !! key).
Proof.
  unfold consistent. intros H Hc.
  apply elem_of_dom. rewrite <- H. by apply elem_of_dom.
Qed.

End CacheFacts.

(** A failed request makes [GlancesSource._fetch] return [None]. *)
Lemma glances_fetch_failed parse url endpoint (net : glances.network) :
  glances.fails parse url endpoint net = true ->
  glances._fetch parse url endpoint net = (Ok PNone, net).
Proof.
  unfold glances.fails, glances._fetch.
  destruct (net (url ++ "/" ++ endpoint)) as [r|e]; [|reflexivity].
  destruct (glances.status_ok r); [|reflexivity].
  destruct (glances.json r) as [data|e]; [|reflexivity].
  destruct (String.eqb endpoint "smart"); [|discriminate].
  destruct (parse data); [discriminate|reflexivity].
Qed.

(** C1. TTL cache get semantics.  For every source ([_fetch]), key, TTL,
    clock reading and cache state:
    - if the key has an entry whose age [now - fetched_at] is strictly less
      than the TTL, [get] returns the stored value, invokes [_fetch] not at
      all and leaves the cache and the world as they were;
    - if the key has no entry, or its entry is not younger than the TTL,
      [get] invokes [_fetch] exactly once (on that key); when the fetch
      returns a value, [get] returns it and overwrites the entry's value and
      timestamp with it and with the current time, after which the entry is
      served without a fetch exactly while it is younger than the caller's
      TTL and fetched again otherwise;
    - the same holds when the fetch fails: a failed request to Glances
      (host unreachable, error status, undecodable body) yields [None],
      which is stored with the current time and served from the cache while
      younger than the TTL. *)
Theorem get_ttl_cache_semantics {V W : Type}
    (_fetch : string -> W -> result V * W)
    (now : float) (key : string) (ttl_s : float)
    (self : CachedDataSource V) (w : W) :
  (forall v ts,
      _cache self !! key = Some v ->
      _timestamps self !! key = Some ts ->
      (now - ts <? ttl_s)%float = true ->
      get _fetch now key ttl_s self w = mkOutcome (Ok v) self w [])
  /\
  (_cache self !! key = None \/
   (exists ts, _timestamps self !! key = Some ts /\
               (now - ts <? ttl_s)%float = false) ->
   let o := get _fetch now key ttl_s self w in
   fetched o = [key] /\
   world o = snd (_fetch key w) /\
   forall value, fst (_fetch key w) = Ok value ->
     returned o = Ok value /\
     source o = mkSource (<[key := value]> (_cache self))
                         (<[key := now]> (_timestamps self)) /\
     forall now' ttl' w',
       get _fetch now' key ttl' (source o) w' =
         if (now' - now <? ttl')%float
         then mkOutcome (Ok value) (source o) w' []
         else refresh _fetch now' key (source o) w')
  /\
  (forall parse url (net : glances.network) (cached : CachedDataSource pyval.t),
      glances.fails parse url key net = true ->
      _cache cached !! key = None ->
      let o := glances.get parse url now key ttl_s cached net in
      returned o = Ok PNone /\
      fetched o = [key] /\
      _cache (source o) !! key = Some PNone /\
      _timestamps (source o) !! key = Some now /\
      forall now' ttl',
        (now' - now <? ttl')%float = true ->
        glances.get parse url now' key ttl' (source o) net =
          mkOutcome (Ok PNone) (source o) net []).
Proof.
  split; [|split].
  - intros v ts Hc Ht Hage. by apply get_hit with ts.
  - intros Hmiss o.
    assert (Ho : o = refresh _fetch now key self w).
    { subst o. destruct Hmiss as [Hc|(ts & Ht & Hage)].
      - by apply get_absent.
      - by apply get_stale with ts. }
    rewrite Ho. split; [apply refresh_fetched|].
    split; [apply refresh_world|].
    intros value Hv.
    destruct (_fetch key w) as [r w1] eqn:E. simpl in Hv. subst r.
    rewrite (refresh_ok _fetch now key self w value w1 E). simpl.
    split; [reflexivity|]. split; [reflexivity|].
    intros now' ttl' w'. unfold get at 1. simpl.
    rewrite !lookup_insert_eq. reflexivity.
  - intros parse url net cached Hdown Hc o.
    assert (Ho : o = mkOutcome (Ok PNone)
                       (mkSource (<[key := PNone]> (_cache cached))
                                 (<[key := now]> (_timestamps cached)))
                       net [key]).
    { subst o. unfold glances.get. rewrite get_absent by exact Hc.
      apply refresh_ok. by apply glances_fetch_failed. }
    rewrite Ho. simpl.
    split; [reflexivity|]. split; [reflexivity|].
    split; [apply lookup_insert_eq|]. split; [apply lookup_insert_eq|].
    intros now' ttl' Hage. unfold glances.get.
    apply get_hit with now; simpl;
      [apply lookup_insert_eq|apply lookup_insert_eq|exact Hage].
Qed.

(** The first call of [test_caching]: an empty cache, one fetch. *)
Lemma get_ttl_cache_semantics_witness :
  _cache (init (V := string)) !! "test" = None /\
  fetched (get test_smoke._fetch 100 "test" 1 init 0%nat) = ["test"] /\
  returned (get test_smoke._fetch 100 "test" 1 init 0%nat) = Ok "data_test_1".
Proof.
  assert (Hc : _cache (init (V := string)) !! "test" = None) by reflexivity.
  split; [exact Hc|].
  destruct (get_ttl_cache_semantics test_smoke._fetch 100 "test" 1 init 0%nat)
    as (_ & Hmiss & _).
  destruct (Hmiss (or_introl Hc)) as (Hf & _ & Hv).
  split; [exact Hf|].
  exact (proj1 (Hv "data_test_1" eq_refl)).
Defined.

(** The sequence of [test_caching]: a first fetch, a hit within the TTL, a
    fetch after the TTL has passed, another key, and a fetch forced by
    [invalidate]; the world is the fetch count. *)
Example test_caching_counts :
  snd (run test_smoke._fetch [Get 100 "test" 1] init 0%nat) = 1%nat /\
  snd (run test_smoke._fetch [Get 100 "test" 1; Get 100.5 "test" 1]
           init 0%nat) = 1%nat /\
  snd (run test_smoke._fetch
           [Get 100 "test" 1; Get 100.5 "test" 1; Get 101.25 "test" 1]
           init 0%nat) = 2%nat /\
  snd (run test_smoke._fetch
           [Get 100 "test" 1; Get 100.5 "test" 1; Get 101.25 "test" 1;
            Get 101.25 "other" 1; Invalidate (Some "test");
            Get 101.5 "test" 1]
           init 0%nat) = 4%nat.
Proof. repeat split; vm_compute; reflexivity. Qed.

(** C9. Cache internal consistency.  After every sequence of [get] and
    [invalidate] calls on a fresh source, [_cache] and [_timestamps] hold
    exactly the same keys; every further [get] and [invalidate] keeps it so;
    hence the timestamp lookup of the cache-hit path finds a timestamp for
    every key present in [_cache], and a [KeyError] leaves [get] only when
    [_fetch] itself raised it. *)
Theorem cache_maps_same_keys {V W : Type}
    (_fetch : string -> W -> result V * W) (calls : list call) (w : W) :
  let self := fst (run _fetch calls (init (V := V)) w) in
  dom (_cache self) = dom (_timestamps self) /\
  (forall key, is_Some (_cache self !! key) ->
               is_Some (_timestamps self !! key)) /\
  (forall now key ttl_s w',
      consistent (source (get _fetch now key ttl_s self w')) /\
      (returned (get _fetch now key ttl_s self w') = Raise KeyError ->
       fst (_fetch key w') = Raise KeyError)) /\
  (forall key, consistent (invalidate key self)).
Proof.
  intros self.
  assert (H : consistent self).
  { apply run_consistent. unfold consistent, init. simpl.
    rewrite !dom_empty_L. reflexivity. }
  split; [exact H|]. split; [|split].
  - intros key. by apply consistent_lookup.
  - intros now key ttl_s w'. split; [by apply get_consistent|].
    unfold get. destruct (_cache self !! key) as [v|] eqn:Hc.
    + destruct (consistent_lookup self key H (mk_is_Some _ _ Hc)) as [ts Ht].
      rewrite Ht. destruct (now - ts <? ttl_s)%float; [discriminate|].
      unfold refresh. destruct (_fetch key w') as [[value|e] w1]; simpl;
        [discriminate|tauto].
    + unfold refresh. destruct (_fetch key w') as [[value|e] w1]; simpl;
        [discriminate|tauto].
  - intros key. by apply invalidate_consistent.
Qed.

(** ** Strings *)

Lemma startswith_app pre s : pystr.startswith pre (pre ++ s) = true.
Proof.
  induction pre as [|a pre IH]; simpl; [reflexivity|].
  rewrite Ascii.eqb_refl. exact IH.
Qed.

Lemma startswith_inv pre : forall s,
  pystr.startswith pre s = true -> exists rest, s = pre ++ rest.
Proof.
  induction pre as [|a pre IH]; intros s H; simpl in *.
  - exists s. reflexivity.
  - destruct s as [|b s]; [discriminate|].
    apply andb_prop in H as [Hab Hrest].
    apply Ascii.eqb_eq in Hab. subst b.
    destruct (IH s Hrest) as [rest ->]. exists rest. reflexivity.
Qed.

Lemma contains_here sub s :
  pystr.startswith sub s = true -> pystr.contains sub s = true.
Proof. intros H. destruct s; simpl; rewrite H; reflexivity. Qed.

(** [sub in s] holds exactly when [s] is some text, then [sub], then some
    text. *)
Lemma contains_iff sub s :
  pystr.contains sub s = true <-> exists before after, s = before ++ sub ++ after.
Proof.
  split.
  - induction s as [|c s IH]; simpl; intros H.
    + apply orb_prop in H as [H|H]; [|discriminate].
      destruct (startswith_inv _ _ H) as [rest ->].
      exists "", rest. reflexivity.
    + apply orb_prop in H as [H|H].
      * destruct (startswith_inv _ _ H) as [rest ->].
        exists "", rest. reflexivity.
      * destruct (IH H) as (before & after & ->).
        exists (String c before), after. reflexivity.
  - intros (before & after & ->).
    induction before as [|c before IH].
    + change ("" ++ sub ++ after) with (sub ++ after).
      apply contains_here. apply startswith_app.
    + simpl. simpl in IH. rewrite IH. apply orb_true_r.
Qed.

(** ** Alarm cooldown *)

Import alarms.

Lemma should_alert_cases now alarm_id (self : AlarmState) :
  let last := default 0%float (last_alert self !! alarm_id) in
  ((cooldown self <=? now - last)%float = true /\
   should_alert now alarm_id self =
     (true, mkAlarmState (cooldown self) (<[alarm_id := now]> (last_alert self))))
  \/
  ((cooldown self <=? now - last)%float = false /\
   should_alert now alarm_id self = (false, self)).
Proof.
  intros last. unfold should_alert. fold last.
  destruct (cooldown self <=? now - last)%float; [left|right]; auto.
Qed.

Lemma should_alert_cooldown now alarm_id self :
  cooldown (snd (should_alert now alarm_id self)) = cooldown self.
Proof.
  destruct (should_alert_cases now alarm_id self) as [[_ ->]|[_ ->]];
    reflexivity.
Qed.

Lemma should_alert_other now a b self :
  a <> b ->
  last_alert (snd (should_alert now a self)) !! b = last_alert self !! b.
Proof.
  intros Hab.
  destruct (should_alert_cases now a self) as [[_ ->]|[_ ->]]; simpl;
    [by rewrite lookup_insert_ne|reflexivity].
Qed.

Lemma clear_other a b self :
  a <> b -> last_alert (clear a self) !! b = last_alert self !! b.
Proof. intros Hab. simpl. by rewrite lookup_delete_ne. Qed.

(** The answer of [should_alert] depends on the cooldown and on the stamp
    of its own id only. *)
Lemma should_alert_answer now alarm_id self self' :
  cooldown self = cooldown self' ->
  last_alert self !! alarm_id = last_alert self' !! alarm_id ->
  fst (should_alert now alarm_id self) = fst (should_alert now alarm_id self').
Proof.
  intros Hc Hl. unfold should_alert. rewrite Hc, Hl.
  destruct (cooldown self' <=? now - default 0%float (last_alert self' !! alarm_id))%float;
    reflexivity.
Qed.

(** Along any run, the latest stamp of an id is the head of its episode,
    and the episode stays spaced. *)
Lemma run_spaced alarm_id calls : forall self since,
  spaced (cooldown self) since ->
  head since = last_alert self !! alarm_id ->
  spaced (cooldown self) (episode alarm_id (fst (run calls self)) since) /\
  head (episode alarm_id (fst (run calls self)) since)
    = last_alert (snd (run calls self)) !! alarm_id.
Proof.
  induction calls as [|c calls IH]; intros self since Hsp Hhd; [by split|].
  destruct c as [now id|id]; simpl.
  - destruct (should_alert_cases now id self) as [[Hle E]|[Hle E]];
      rewrite E; simpl.
    + set (self' := mkAlarmState (cooldown self) (<[id := now]> (last_alert self))).
      specialize (IH self').
      destruct (run calls self') as [log final] eqn:R. simpl in *.
      destruct (String.eqb_spec id alarm_id) as [->|Hne].
      * apply IH.
        -- destruct since as [|earlier since']; [exact I|].
           split; [|exact Hsp].
           simpl in Hhd. rewrite <- Hhd in Hle. exact Hle.
        -- simpl. by rewrite lookup_insert_eq.
      * apply IH; [exact Hsp|]. by rewrite lookup_insert_ne.
    + specialize (IH self since Hsp Hhd).
      destruct (run calls self) as [log final]. exact IH.
  - specialize (IH (clear id self)).
    destruct (run calls (clear id self)) as [log final] eqn:R. simpl in *.
    destruct (String.eqb_spec id alarm_id) as [->|Hne].
    + apply IH; [exact I|]. by rewrite lookup_delete_eq.
    + apply IH; [exact Hsp|]. by rewrite lookup_delete_ne.
Qed.

(** C2. Alarm cooldown.  For every alarm id:
    - along every sequence of calls on a fresh [AlarmState], the times at
      which [should_alert(id)] answered true since the last [clear(id)] are
      spaced: each is at least [cooldown] after the one before it;
    - after [clear(id)] the next [should_alert(id)] answers as on a fresh
      state, whatever the stamp was: true at once (the default stamp 0 is
      used, so the clock reading itself has to be at least [cooldown],
      which Unix time is);
    - a call that answers false leaves the state as it was;
    - hence a call made once [cooldown] has elapsed since the last true
      answer answers true, and stamps the id with the current time;
    - calls on one id leave the stamp and the answers of every other id
      as they were. *)
Theorem alarm_cooldown (self : AlarmState) :
  (forall cooldown_seconds calls alarm_id,
      spaced cooldown_seconds
        (episode alarm_id (fst (run calls (init cooldown_seconds))) []))
  /\
  (forall now alarm_id,
      fst (should_alert now alarm_id (clear alarm_id self))
        = fst (should_alert now alarm_id (init (cooldown self))) /\
      ((cooldown self <=? now - 0)%float = true ->
       fst (should_alert now alarm_id (clear alarm_id self)) = true))
  /\
  (forall now alarm_id,
      fst (should_alert now alarm_id self) = false ->
      snd (should_alert now alarm_id self) = self)
  /\
  (forall now alarm_id last,
      last_alert self !! alarm_id = Some last ->
      (cooldown self <=? now - last)%float = true ->
      should_alert now alarm_id self =
        (true, mkAlarmState (cooldown self)
                 (<[alarm_id := now]> (last_alert self))))
  /\
  (forall now a b,
      a <> b ->
      last_alert (snd (should_alert now a self)) !! b = last_alert self !! b /\
      last_alert (clear a self) !! b = last_alert self !! b /\
      forall now',
        fst (should_alert now' b (snd (should_alert now a self)))
          = fst (should_alert now' b self) /\
        fst (should_alert now' b (clear a self))
          = fst (should_alert now' b self)).
Proof.
  split; [|split; [|split; [|split]]].
  - intros cd calls alarm_id.
    apply (run_spaced alarm_id calls (init cd) []); [exact I|].
    simpl. by rewrite lookup_empty.
  - intros now alarm_id. unfold should_alert. simpl.
    rewrite lookup_delete_eq, lookup_empty. simpl.
    split; [|intros Hle; rewrite Hle; reflexivity].
    destruct (cooldown self <=? now - 0)%float; reflexivity.
  - intros now alarm_id H.
    destruct (should_alert_cases now alarm_id self) as [[_ E]|[_ E]];
      rewrite E in *; [discriminate H|reflexivity].
  - intros now alarm_id last Hl Hle.
    destruct (should_alert_cases now alarm_id self) as [[_ E]|[Hf _]];
      [exact E|].
    rewrite Hl in Hf. simpl in Hf. congruence.
  - intros now a b Hab.
    split; [by apply should_alert_other|].
    split; [by apply clear_other|].
    intros now'. split; apply should_alert_answer.
    + apply should_alert_cooldown.
    + by apply should_alert_other.
    + reflexivity.
    + by apply clear_other.
Qed.

(** Test 5 of [test_alarms]: cooldown 0.1 s, an alert, a clear, and the
    next call alerts again at the same instant. *)
Lemma alarm_cooldown_witness :
  let self := snd (should_alert 1700000000 "alarm3" (init 0.1)) in
  (cooldown self <=? 1700000000 - 0)%float = true /\
  fst (should_alert 1700000000 "alarm3" self) = false /\
  fst (should_alert 1700000000 "alarm3" (clear "alarm3" self)) = true.
Proof.
  intros self.
  assert (Hle : (cooldown self <=? 1700000000 - 0)%float = true)
    by (vm_compute; reflexivity).
  split; [exact Hle|]. split; [vm_compute; reflexivity|].
  destruct (alarm_cooldown self) as (_ & Hclear & _).
  exact (proj2 (Hclear 1700000000%float "alarm3") Hle).
Defined.

(** An episode at a cooldown of 300 s: an alert, a call suppressed 100 s
    later, an alert 300 s after the first, and an alert right after a
    clear. *)
Example episode_of_a_run :
  let calls :=
    [ShouldAlert 1700000000 "a"; ShouldAlert 1700000100 "a";
     ShouldAlert 1700000300 "a"] in
  fst (run calls (init 300)) =
    [Alerted 1700000000 "a"; Suppressed 1700000100 "a";
     Alerted 1700000300 "a"] /\
  episode "a" (fst (run calls (init 300))) [] = [1700000300; 1700000000]%float /\
  episode "a"
    (fst (run (calls ++ [Clear "a"; ShouldAlert 1700000301 "a"]) (init 300)))
    [] = [1700000301]%float.
Proof. repeat split; vm_compute; reflexivity. Qed.

(** ** The alarm engine *)

Section CheckFacts.

Variable time : nat -> float.

Lemma alert_dispatched alarm_id name s :
  dispatched (alert time alarm_id name s) =
    (dispatched s ++
     if fst (should_alert (time (readings s)) alarm_id (alarm_state s))
     then [name] else [])%list.
Proof.
  unfold alert.
  destruct (should_alert (time (readings s)) alarm_id (alarm_state s))
    as [[|] a]; simpl; [reflexivity|by rewrite app_nil_r].
Qed.

Lemma alert_alarm_state alarm_id name s :
  alarm_state (alert time alarm_id name s) =
    snd (should_alert (time (readings s)) alarm_id (alarm_state s)).
Proof.
  unfold alert.
  destruct (should_alert (time (readings s)) alarm_id (alarm_state s));
    reflexivity.
Qed.

Lemma alert_other alarm_id name s other :
  alarm_id <> other ->
  last_alert (alarm_state (alert time alarm_id name s)) !! other
    = last_alert (alarm_state s) !! other.
Proof. intros H. rewrite alert_alarm_state. by apply should_alert_other. Qed.

Lemma resolve_other alarm_id s other :
  alarm_id <> other ->
  last_alert (alarm_state (resolve alarm_id s)) !! other
    = last_alert (alarm_state s) !! other.
Proof. intros H. by apply clear_other. Qed.

Lemma extends_keeping_refl other s : extends_keeping other s s.
Proof. split; [exists []; by rewrite app_nil_r|reflexivity]. Qed.

Lemma extends_keeping_trans other s1 s2 s3 :
  extends_keeping other s1 s2 -> extends_keeping other s2 s3 ->
  extends_keeping other s1 s3.
Proof.
  intros [[m1 H1] K1] [[m2 H2] K2]. split.
  - exists (m1 ++ m2)%list. by rewrite H2, H1, app_assoc.
  - by rewrite K2.
Qed.

Lemma alert_extends alarm_id name s other :
  alarm_id <> other -> extends_keeping other s (alert time alarm_id name s).
Proof.
  intros H. split; [|by apply alert_other].
  rewrite alert_dispatched. eauto.
Qed.

Lemma resolve_extends alarm_id s other :
  alarm_id <> other -> extends_keeping other s (resolve alarm_id s).
Proof.
  intros H. split; [|by apply resolve_other].
  exists []. simpl. by rewrite app_nil_r.
Qed.

(** The ids of the RAID block start with an "r"; those of the later blocks
    with "t", "s" and "p". *)
Lemma check_temperature_extends item s other :
  raid_id other -> extends_keeping other s (check_temperature time item s).
Proof.
  intros Hid. destruct item as [name data]. unfold check_temperature.
  assert (Hne : "temp_" ++ name <> other)
    by (destruct Hid as [->| ->]; discriminate).
  destruct (temperature_c data) as [temp|]; [|apply extends_keeping_refl].
  destruct (60 <=? temp)%float; [by apply alert_extends|].
  destruct (50 <=? temp)%float; [by apply alert_extends|].
  by apply resolve_extends.
Qed.

Lemma check_sectors_extends item s other :
  raid_id other -> extends_keeping other s (check_sectors time item s).
Proof.
  intros Hid. destruct item as [name data]. unfold check_sectors.
  assert (Hne : "smart_" ++ name <> other)
    by (destruct Hid as [->| ->]; discriminate).
  destruct ((0 <? default 0 (reallocated_sectors data))
            || (0 <? default 0 (pending_sectors data))
            || (0 <? default 0 (uncorrectable_sectors data)));
    [by apply alert_extends|by apply resolve_extends].
Qed.

Lemma check_power_extends throttle s other :
  raid_id other -> extends_keeping other s (check_power time throttle s).
Proof.
  intros Hid. unfold check_power.
  assert (Hne : "power_throttle" <> other)
    by (destruct Hid as [->| ->]; discriminate).
  destruct (system.under_voltage throttle || system.throttled throttle);
    [by apply alert_extends|by apply resolve_extends].
Qed.

Lemma fold_extends (f : string * disk -> state -> state) other :
  (forall item s, extends_keeping other s (f item s)) ->
  forall items s,
    extends_keeping other s (fold_left (fun acc item => f item acc) items s).
Proof.
  intros Hf items. induction items as [|item items IH]; intros s; simpl.
  - apply extends_keeping_refl.
  - eapply extends_keeping_trans; [apply Hf|apply IH].
Qed.

(** The blocks after the RAID block add their dispatched after those of the
    RAID block and leave the two RAID stamps alone. *)
Lemma check_after_raid raid_status smart throttle s other :
  raid_id other ->
  extends_keeping other (check_raid time raid_status s)
                  (check time raid_status smart throttle s).
Proof.
  intros Hid. unfold check.
  eapply extends_keeping_trans;
    [|apply check_power_extends; exact Hid].
  eapply extends_keeping_trans;
    [|apply fold_extends; intros; apply check_sectors_extends; exact Hid].
  apply fold_extends; intros; apply check_temperature_extends; exact Hid.
Qed.

End CheckFacts.

(** C5, as stated, fails.  With [array_state = "clean, degraded"] and
    [sync_action = "resync"], and the resync alarm eligible, one evaluation
    dispatches "double" only: no "short", and the resync alarm is not even
    stamped.  And with the resync alarm stamped, an evaluation with a
    degraded array and [sync_action = "idle"] does not clear it. *)
Lemma resync_alarm_not_independent :
  let time := fun _ : nat => 1700000000%float in
  let degraded_resync :=
    mdadm.mkStatus (Some "clean, degraded") (Some "resync") None None None in
  let s1 := check time degraded_resync None system.not_throttled start in
  let clean_resync :=
    mdadm.mkStatus (Some "clean") (Some "resync") None None None in
  let stamped := check time clean_resync None system.not_throttled start in
  let degraded_idle :=
    mdadm.mkStatus (Some "clean, degraded") (Some "idle") None None None in
  let s2 := check time degraded_idle None system.not_throttled stamped in
  (resyncing "resync" = true /\
   fst (should_alert 1700000000 "raid_resync" (alarm_state start)) = true /\
   dispatched s1 = ["double"] /\
   last_alert (alarm_state s1) !! "raid_resync" = None)
  /\
  (resyncing "idle" = false /\
   last_alert (alarm_state stamped) !! "raid_resync" = Some 1700000000%float /\
   last_alert (alarm_state s2) !! "raid_resync" = Some 1700000000%float).
Proof. vm_compute. repeat split; reflexivity. Qed.

(** C5, amended.  On every evaluation the RAID conditions are a cascade,
    evaluated before the other blocks, which leave the two RAID alarms
    alone:
    - if [array_state] contains "degraded" (in any case), only the
      [raid_degraded] alarm is consulted ("double", subject to its
      cooldown) and the [raid_resync] stamp stays as it is;
    - otherwise, if [sync_action] is in {resync, recovery, recover}, the
      "short" pattern is dispatched, subject to the [raid_resync] cooldown;
    - otherwise both [raid_degraded] and [raid_resync] are cleared and
      nothing is dispatched. *)
Theorem resync_alarm_behind_degraded (time : nat -> float)
    (raid_status : mdadm.status) (smart : option (list (string * disk)))
    (throttle : system.throttle) (s : state) :
  let array_state := default "" (mdadm.array_state raid_status) in
  let sync_action := default "" (mdadm.sync_action raid_status) in
  let s1 := check_raid time raid_status s in
  let s' := check time raid_status smart throttle s in
  let now := time (readings s) in
  (exists later, dispatched s' = (dispatched s1 ++ later)%list) /\
  last_alert (alarm_state s') !! "raid_resync"
    = last_alert (alarm_state s1) !! "raid_resync" /\
  (degraded array_state = true ->
     dispatched s1 =
       (dispatched s ++
        if fst (should_alert now "raid_degraded" (alarm_state s))
        then ["double"] else [])%list /\
     last_alert (alarm_state s1) !! "raid_resync"
       = last_alert (alarm_state s) !! "raid_resync") /\
  (degraded array_state = false -> resyncing sync_action = true ->
     dispatched s1 =
       (dispatched s ++
        if fst (should_alert now "raid_resync" (alarm_state s))
        then ["short"] else [])%list /\
     alarm_state s1 = snd (should_alert now "raid_resync" (alarm_state s))) /\
  (degraded array_state = false -> resyncing sync_action = false ->
     dispatched s1 = dispatched s /\
     last_alert (alarm_state s1) !! "raid_resync" = None /\
     last_alert (alarm_state s1) !! "raid_degraded" = None).
Proof.
  intros array_state sync_action s1 s' now.
  destruct (check_after_raid time raid_status smart throttle s "raid_resync")
    as [Hpat Hkeep]; [by right|].
  split; [exact Hpat|]. split; [exact Hkeep|].
  subst s1. unfold check_raid. fold array_state sync_action.
  split; [|split].
  - intros Hd. rewrite Hd. split; [apply alert_dispatched|].
    by apply alert_other.
  - intros Hd Hr. rewrite Hd, Hr.
    split; [apply alert_dispatched|apply alert_alarm_state].
  - intros Hd Hr. rewrite Hd, Hr. simpl.
    split; [reflexivity|]. split.
    + by rewrite lookup_delete_eq.
    + rewrite lookup_delete_ne by discriminate. by rewrite lookup_delete_eq.
Qed.

(** A clean array that resyncs: "short" is dispatched on the first
    evaluation. *)
Lemma resync_alarm_behind_degraded_witness :
  let time := fun _ : nat => 1700000000%float in
  let clean_resync :=
    mdadm.mkStatus (Some "clean") (Some "resync") None None None in
  degraded "clean" = false /\ resyncing "resync" = true /\
  dispatched (check_raid time clean_resync start) = ["short"].
Proof.
  intros time clean_resync.
  assert (Hd : degraded "clean" = false) by reflexivity.
  assert (Hr : resyncing "resync" = true) by reflexivity.
  split; [exact Hd|]. split; [exact Hr|].
  destruct (resync_alarm_behind_degraded time clean_resync None
              system.not_throttled start) as (_ & _ & _ & Hshort & _).
  destruct (Hshort Hd Hr) as [Hp _]. rewrite Hp. vm_compute. reflexivity.
Defined.

(** ** The home page *)

Import home.

Section HomeFacts.

Context {Ctx : Type}.
Variable degraded_values : Ctx -> mdadm.status -> result (string * string * string).
Variable clean_values : Ctx -> result (string * string * string).

Lemma view_of_resync raid_status sync_action :
  view_of (_render_resync raid_status sync_action) = Some SyncView.
Proof.
  unfold _render_resync, view_of.
  destruct (mdadm.finish_min raid_status) as [finish|]; [|reflexivity].
  destruct (formatters.fmt_time _); reflexivity.
Qed.

Lemma view_of_degraded ctx raid_status :
  view_of (_render_degraded degraded_values ctx raid_status) = Some DegradedView.
Proof.
  unfold _render_degraded, view_of.
  destruct (degraded_values ctx raid_status) as [[[a b] c]|]; reflexivity.
Qed.

Lemma view_of_clean ctx :
  view_of (_render_clean clean_values ctx) = Some CleanView.
Proof.
  unfold _render_clean, view_of.
  destruct (clean_values ctx) as [[[a b] c]|]; reflexivity.
Qed.

(** The names of the sync view are non-empty and are neither "idle" nor
    "frozen". *)
Lemma sync_name_active a :
  pystr.in_tuple a ["resync"; "recovery"; "recover"; "check"; "repair"] = true ->
  pystr.truthy a && negb (pystr.in_tuple a ["idle"; "frozen"]) = true.
Proof.
  unfold pystr.in_tuple. simpl. intros H.
  repeat (apply orb_prop in H as [H|H];
          [apply String.eqb_eq in H; subst a; reflexivity|]).
  discriminate H.
Qed.

Lemma render_cases ctx raid_status :
  let sync_action := default "" (mdadm.sync_action raid_status) in
  let array_state := default "" (mdadm.array_state raid_status) in
  render degraded_values clean_values ctx raid_status =
    if sync_shown raid_status then _render_resync raid_status sync_action
    else if pystr.contains "degraded" (pystr.lower array_state)
         then _render_degraded degraded_values ctx raid_status
         else _render_clean clean_values ctx.
Proof.
  intros sync_action array_state. unfold render, sync_shown.
  fold sync_action array_state.
  destruct (pystr.in_tuple sync_action
              ["resync"; "recovery"; "recover"; "check"; "repair"]) eqn:E.
  - rewrite (sync_name_active _ E). reflexivity.
  - destruct (pystr.truthy sync_action
              && negb (pystr.in_tuple sync_action ["idle"; "frozen"]));
      reflexivity.
Qed.

End HomeFacts.

(** C3. Home-page priority cascade.  Whenever [sync_action] is present,
    not in {idle, frozen} and in {resync, recovery, recover, check,
    repair}, the sync view is drawn, whatever [array_state] is; the
    degraded view is drawn exactly when no such sync is active and
    [array_state] contains "degraded" in any case; otherwise the clean view
    is drawn.  In particular [sync_action = "resync"] with
    [array_state = "clean, degraded"] draws the view headed "Resync". *)
Theorem home_priority_cascade {Ctx : Type}
    (degraded_values : Ctx -> mdadm.status -> result (string * string * string))
    (clean_values : Ctx -> result (string * string * string))
    (ctx : Ctx) (raid_status : mdadm.status) :
  let array_state := default "" (mdadm.array_state raid_status) in
  let is_degraded := pystr.contains "degraded" (pystr.lower array_state) in
  let drawn := render degraded_values clean_values ctx raid_status in
  (forall a,
      mdadm.sync_action raid_status = Some a ->
      pystr.in_tuple a ["idle"; "frozen"] = false ->
      pystr.in_tuple a ["resync"; "recovery"; "recover"; "check"; "repair"] = true ->
      drawn = _render_resync raid_status a /\ view_of drawn = Some SyncView)
  /\
  (view_of drawn = Some DegradedView <->
   sync_shown raid_status = false /\ is_degraded = true)
  /\
  (view_of drawn = Some CleanView <->
   sync_shown raid_status = false /\ is_degraded = false)
  /\
  (forall progress finish_min speed_kps,
      let both := mdadm.mkStatus (Some "clean, degraded") (Some "resync")
                                 progress finish_min speed_kps in
      view_of (render degraded_values clean_values ctx both) = Some SyncView /\
      head (fst (render degraded_values clean_values ctx both))
        = Some (draw_header "Resync")).
Proof.
  intros array_state is_degraded drawn.
  assert (Hcases := render_cases degraded_values clean_values ctx raid_status).
  cbv zeta in Hcases. fold array_state is_degraded drawn in Hcases.
  split; [|split; [|split]].
  - intros a Ha _ Hin. unfold sync_shown in Hcases.
    rewrite Ha in Hcases. change (default "" (Some a)) with a in Hcases.
    rewrite Hin in Hcases.
    rewrite Hcases. split; [reflexivity|apply view_of_resync].
  - rewrite Hcases.
    destruct (sync_shown raid_status).
    + rewrite view_of_resync. split; [discriminate|intros [? _]; discriminate].
    + destruct is_degraded.
      * rewrite view_of_degraded. tauto.
      * rewrite view_of_clean. split; [discriminate|intros [_ ?]; discriminate].
  - rewrite Hcases.
    destruct (sync_shown raid_status).
    + rewrite view_of_resync. split; [discriminate|intros [? _]; discriminate].
    + destruct is_degraded.
      * rewrite view_of_degraded. split; [discriminate|intros [_ ?]; discriminate].
      * rewrite view_of_clean. tauto.
  - intros progress finish_min speed_kps both.
    rewrite (render_cases degraded_values clean_values ctx both).
    change (sync_shown both) with true. cbv iota.
    split; [apply view_of_resync|].
    unfold _render_resync. simpl mdadm.finish_min.
    destruct finish_min as [f|]; [|reflexivity].
    destruct (formatters.fmt_time _); reflexivity.
Qed.

(** The scenario of the testable property: resync on a degraded array. *)
Lemma home_priority_cascade_witness :
  let both := mdadm.mkStatus (Some "clean, degraded") (Some "resync")
                             None None None in
  let no_values := fun _ : unit => Raise (A := string * string * string) KeyError in
  mdadm.sync_action both = Some "resync" /\
  pystr.in_tuple "resync" ["idle"; "frozen"] = false /\
  pystr.in_tuple "resync"
    ["resync"; "recovery"; "recover"; "check"; "repair"] = true /\
  view_of (render (fun c _ => no_values c) no_values tt both) = Some SyncView.
Proof.
  intros both no_values.
  split; [reflexivity|]. split; [reflexivity|]. split; [reflexivity|].
  destruct (home_priority_cascade (fun c _ => no_values c) no_values tt both)
    as (Hsync & _).
  exact (proj2 (Hsync "resync" eq_refl eq_refl eq_refl)).
Defined.

(** The formatter cases of [test_formatters], and the unit boundaries. *)
Example test_formatters_rate :
  formatters.fmt_rate (Some 512%float) = "512K/s" /\
  formatters.fmt_rate (Some 1023%float) = "1023K/s" /\
  formatters.fmt_rate (Some 1024%float) = "1.0M/s" /\
  formatters.fmt_rate (Some 1048576%float) = "1.0G/s" /\
  formatters.fmt_rate None = "N/A".
Proof. repeat split; vm_compute; reflexivity. Qed.

Example test_formatters_time :
  formatters.fmt_time (Some 59%float) = Ok "0m" /\
  formatters.fmt_time (Some 60%float) = Ok "1m" /\
  formatters.fmt_time (Some 3661%float) = Ok "1h 1m" /\
  formatters.fmt_time (Some 90000%float) = Ok "1d 1h" /\
  formatters.fmt_time None = Ok "N/A".
Proof. repeat split; vm_compute; reflexivity. Qed.

(** [float(str)] agrees with the literals of the scenario. *)
Example float_of_scenario_text :
  pyfloat.of_string "52.2" = Ok 52.2%float /\
  pyfloat.of_string "396.1" = Ok 396.1%float /\
  pyfloat.of_string "99181" = Ok 99181%float /\
  pyfloat.of_string "1.2.3" = Raise ValueError /\
  pyfloat.of_string "." = Raise ValueError.
Proof. repeat split; vm_compute; reflexivity. Qed.

Lemma header_of_resync raid_status sync_action :
  header_of (_render_resync raid_status sync_action)
    = Some (lookup sync_action header_map "Syncing").
Proof.
  unfold _render_resync, header_of.
  destruct (mdadm.finish_min raid_status) as [finish|]; [|reflexivity].
  destruct (formatters.fmt_time _); reflexivity.
Qed.

Lemma header_of_degraded {Ctx : Type}
    (degraded_values : Ctx -> mdadm.status -> result (string * string * string))
    ctx raid_status :
  header_of (_render_degraded degraded_values ctx raid_status) = Some "DEGRADED".
Proof.
  unfold _render_degraded, header_of.
  destruct (degraded_values ctx raid_status) as [[[a b] c]|]; reflexivity.
Qed.

Lemma header_of_clean {Ctx : Type}
    (clean_values : Ctx -> result (string * string * string)) ctx :
  header_of (_render_clean clean_values ctx) = Some "Online".
Proof.
  unfold _render_clean, header_of.
  destruct (clean_values ctx) as [[[a b] c]|]; reflexivity.
Qed.

(** The header of the sync view, for each name [render] draws it for. *)
Lemma shown_header raid_status sync_action :
  pystr.in_tuple sync_action
    ["resync"; "recovery"; "recover"; "check"; "repair"] = true ->
  let header := header_of (_render_resync raid_status sync_action) in
  (sync_action = "resync" /\ header = Some "Resync") \/
  ((sync_action = "recovery" \/ sync_action = "recover") /\
   header = Some "Recovery") \/
  (sync_action = "check" /\ header = Some "Check") \/
  (sync_action = "repair" /\ header = Some "Repair").
Proof.
  intros H header. subst header. rewrite header_of_resync.
  unfold pystr.in_tuple in H. cbn [existsb] in H.
  apply orb_prop in H as [H|H];
    [apply String.eqb_eq in H; subst; left; split; reflexivity|].
  apply orb_prop in H as [H|H];
    [apply String.eqb_eq in H; subst; right; left;
     split; [left|]; reflexivity|].
  apply orb_prop in H as [H|H];
    [apply String.eqb_eq in H; subst; right; left;
     split; [right|]; reflexivity|].
  apply orb_prop in H as [H|H];
    [apply String.eqb_eq in H; subst; right; right; left;
     split; reflexivity|].
  apply orb_prop in H as [H|H]; [|discriminate H].
  apply String.eqb_eq in H. subst. right. right. right. split; reflexivity.
Qed.

(** C8, as stated, fails.  "reshape" is an active [sync_action] (present,
    neither "idle" nor "frozen") outside the table.  The home page does not
    head it "Syncing": [render] draws the clean view, headed "Online", and
    with a degraded array the degraded view, headed "DEGRADED"; the sync
    view is not drawn at all. *)
Lemma reshape_is_not_headed_syncing :
  let degraded_values := fun (_ : unit) (_ : mdadm.status) =>
    Ok ("1/2", "RAID1", "  40.0C") in
  let clean_values := fun (_ : unit) => Ok ("52.0%", "0K/s", "  40.0C") in
  let reshaping :=
    mdadm.mkStatus (Some "clean") (Some "reshape") None None None in
  let reshaping_degraded :=
    mdadm.mkStatus (Some "clean, degraded") (Some "reshape") None None None in
  pystr.truthy "reshape" && negb (pystr.in_tuple "reshape" ["idle"; "frozen"])
    = true /\
  pystr.in_tuple "reshape"
    ["resync"; "recovery"; "recover"; "check"; "repair"] = false /\
  render degraded_values clean_values tt reshaping
    = ([draw_header "Online";
        draw_clean_big 0 26;
        draw_body_lines_at 34
          [(19, "Used:", "52.0%"); (33, "R/W:", "0K/s");
           (47, "Temp:", "  40.0C")]],
       Ok tt) /\
  render degraded_values clean_values tt reshaping_degraded
    = ([draw_header "DEGRADED";
        draw_degraded_big 0 26;
        draw_body_lines_at 34
          [(19, "Disks:", "1/2"); (33, "Type:", "RAID1");
           (47, "Temp:", "  40.0C")]],
       Ok tt).
Proof. vm_compute. repeat split; reflexivity. Qed.

(** C8, amended.  Whenever the home page shows the sync view,
    [sync_action] is one of the five names of the table and the header is
    its entry: "Resync" for resync, "Recovery" for recovery and recover,
    "Check" for check, "Repair" for repair.  For every other [sync_action],
    active or not, [render] draws the degraded view headed "DEGRADED" when
    [array_state] contains "degraded" and the clean view headed "Online"
    otherwise; so no status makes the home page show the header "Syncing",
    the default of the lookup in [_render_resync].  With
    [sync_action = "resync"], progress 52.2, speed 99181 K/sec and finish
    396.1 min, the view is headed "Resync" and shows "52.2%", "96.9M/s" and
    "6h 36m"; the same view results from the status files and log of that
    scenario. *)
Theorem sync_view_headed_by_table :
  (forall (Ctx : Type) degraded_values clean_values (ctx : Ctx) raid_status,
      let drawn := render degraded_values clean_values ctx raid_status in
      let sync_action := default "" (mdadm.sync_action raid_status) in
      view_of drawn = Some SyncView ->
      drawn = _render_resync raid_status sync_action /\
      ((sync_action = "resync" /\ header_of drawn = Some "Resync") \/
       ((sync_action = "recovery" \/ sync_action = "recover") /\
        header_of drawn = Some "Recovery") \/
       (sync_action = "check" /\ header_of drawn = Some "Check") \/
       (sync_action = "repair" /\ header_of drawn = Some "Repair")))
  /\
  (forall (Ctx : Type) degraded_values clean_values (ctx : Ctx) raid_status,
      let drawn := render degraded_values clean_values ctx raid_status in
      let sync_action := default "" (mdadm.sync_action raid_status) in
      let array_state := default "" (mdadm.array_state raid_status) in
      let is_degraded := pystr.contains "degraded" (pystr.lower array_state) in
      pystr.in_tuple sync_action
        ["resync"; "recovery"; "recover"; "check"; "repair"] = false ->
      view_of drawn = Some (if is_degraded then DegradedView else CleanView) /\
      header_of drawn = Some (if is_degraded then "DEGRADED" else "Online"))
  /\
  (forall (Ctx : Type) degraded_values clean_values (ctx : Ctx) raid_status,
      header_of (render degraded_values clean_values ctx raid_status)
        <> Some "Syncing")
  /\
  (forall array_state,
      _render_resync
        (mdadm.mkStatus array_state (Some "resync")
                        (Some 52.2%float) (Some 396.1%float) (Some 99181%float))
        "resync"
      = ([draw_header "Resync";
          draw_resync_big 0 26;
          draw_body_lines_at 34
            [(19, "Prog:", "52.2%"); (33, "Rate:", "96.9M/s");
             (47, "ETA:", "6h 36m")]],
         Ok tt))
  /\
  (exists raid_status,
      mdadm._get_status (Some "md0") scenario.fs = Ok raid_status /\
      forall (Ctx : Type) degraded_values clean_values (ctx : Ctx),
        render degraded_values clean_values ctx raid_status
        = ([draw_header "Resync";
            draw_resync_big 0 26;
            draw_body_lines_at 34
              [(19, "Prog:", "52.2%"); (33, "Rate:", "96.9M/s");
               (47, "ETA:", "6h 36m")]],
           Ok tt)).
Proof.
  split; [|split; [|split]].
  - intros Ctx dv cv ctx raid_status drawn sync_action Hview.
    subst drawn. rewrite render_cases in *. fold sync_action in Hview |- *.
    unfold sync_shown in *. fold sync_action in Hview |- *.
    destruct (pystr.in_tuple sync_action
                ["resync"; "recovery"; "recover"; "check"; "repair"]) eqn:E.
    + split; [reflexivity|]. exact (shown_header raid_status sync_action E).
    + destruct (pystr.contains "degraded"
                  (pystr.lower (default "" (mdadm.array_state raid_status)))).
      * rewrite view_of_degraded in Hview. discriminate Hview.
      * rewrite view_of_clean in Hview. discriminate Hview.
  - intros Ctx dv cv ctx raid_status drawn sync_action array_state is_degraded
           Hout.
    subst drawn. rewrite render_cases. unfold sync_shown.
    fold sync_action array_state is_degraded. rewrite Hout.
    destruct is_degraded.
    + split; [apply view_of_degraded|apply header_of_degraded].
    + split; [apply view_of_clean|apply header_of_clean].
  - intros Ctx dv cv ctx raid_status. rewrite render_cases.
    destruct (sync_shown raid_status) eqn:E.
    + unfold sync_shown in E.
      destruct (shown_header raid_status _ E)
        as [[_ ->]|[[_ ->]|[[_ ->]|[_ ->]]]]; discriminate.
    + destruct (pystr.contains "degraded" _).
      * rewrite header_of_degraded. discriminate.
      * rewrite header_of_clean. discriminate.
  - split; [intros array_state; vm_compute; reflexivity|].
    eexists. split; [vm_compute; reflexivity|].
    intros Ctx dv cv ctx. rewrite render_cases. vm_compute. reflexivity.
Qed.

(** The status of the scenario is drawn as the sync view, headed
    "Resync". *)
Lemma sync_view_headed_by_table_witness :
  let raid_status :=
    mdadm.mkStatus (Some "clean") (Some "resync")
                   (Some 52.2%float) (Some 396.1%float) (Some 99181%float) in
  let drawn :=
    render (fun (_ : unit) _ => Ok ("", "", "")) (fun _ => Ok ("", "", ""))
           tt raid_status in
  view_of drawn = Some SyncView /\ header_of drawn = Some "Resync".
Proof.
  intros raid_status drawn.
  assert (Hview : view_of drawn = Some SyncView) by reflexivity.
  split; [exact Hview|].
  destruct (proj2 (proj1 sync_view_headed_by_table unit
                     (fun (_ : unit) _ => Ok ("", "", ""))
                     (fun _ => Ok ("", "", "")) tt raid_status Hview))
    as [[_ H]|[[[H0|H0] _]|[[H0 _]|[H0 _]]]];
    [exact H|discriminate H0..].
Defined.

(** ** Navigation *)

Import main.

Section NavFacts.

Variable browse_pages : list pages.page.
Hypothesis nonempty : browse_pages <> [].

Lemma page_count_pos : 0 < Z.of_nat (length browse_pages).
Proof. destruct browse_pages; [congruence|simpl; lia]. Qed.

Lemma press_home now s :
  current_page s = -1 -> on_button browse_pages now s = (Ok tt, mkNav 0 now).
Proof. intros H. unfold on_button. rewrite H. reflexivity. Qed.

Lemma press_browsing now s :
  current_page s <> -1 ->
  on_button browse_pages now s =
    (Ok tt, mkNav ((current_page s + 1) mod Z.of_nat (length browse_pages)) now).
Proof.
  intros H. unfold on_button.
  destruct (current_page s =? -1) eqn:E; [apply Z.eqb_eq in E; contradiction|].
  destruct (Z.of_nat (length browse_pages) =? 0) eqn:E0; [|reflexivity].
  apply Z.eqb_eq in E0. pose proof page_count_pos. lia.
Qed.

(** [k] presses from a browse page advance it by [k], modulo the number of
    pages. *)
Lemma presses_advance times : forall s,
  0 <= current_page s < Z.of_nat (length browse_pages) ->
  current_page (steps browse_pages (map Press times) s)
    = (current_page s + Z.of_nat (length times)) mod Z.of_nat (length browse_pages).
Proof.
  pose proof page_count_pos as Hpos.
  induction times as [|now times IH]; intros s Hs.
  - simpl. rewrite Z.add_0_r, Z.mod_small; [reflexivity|exact Hs].
  - change (steps browse_pages (map Press (now :: times)) s)
      with (steps browse_pages (map Press times)
              (snd (on_button browse_pages now s))).
    rewrite press_browsing by lia. cbn [snd].
    rewrite IH; cbn [current_page].
    + rewrite Zplus_mod_idemp_l. f_equal.
      change (length (now :: times)) with (S (length times)). lia.
    + apply Z.mod_pos_bound. exact Hpos.
Qed.

Lemma step_valid i s :
  valid_page browse_pages s -> valid_page browse_pages (step browse_pages i s).
Proof.
  pose proof page_count_pos as Hpos.
  unfold valid_page. intros Hs. destruct i as [now|now_mono]; simpl.
  - destruct (Z.eq_dec (current_page s) (-1)) as [E|E].
    + rewrite press_home by exact E. simpl. right. lia.
    + rewrite press_browsing by exact E. simpl. right.
      apply Z.mod_pos_bound. exact Hpos.
  - unfold idle_timeout.
    destruct (negb (current_page s =? -1)
              && (config.NAV_TIMEOUT <=? now_mono - last_nav_at s)%float);
      [left; reflexivity|exact Hs].
Qed.

Lemma steps_valid inputs : forall s,
  valid_page browse_pages s ->
  valid_page browse_pages (steps browse_pages inputs s).
Proof.
  induction inputs as [|i inputs IH]; intros s Hs; [exact Hs|].
  apply IH. by apply step_valid.
Qed.

End NavFacts.

(** C4. Navigation state machine, for a non-empty list of [N] browse
    pages (the program's list has five):
    - a press from Home ([current_page = -1]) sets [current_page] to 0, a
      press from Browsing(i) sets it to [(i + 1) mod N], and [N] presses
      from Browsing(0) come back to Browsing(0);
    - every press sets [last_nav_at] to the clock reading of the press;
    - on a tick, when [current_page] is not -1 and
      [now - last_nav_at >= NAV_TIMEOUT] (10 s), the state is forced back to
      -1, and the tick changes nothing otherwise;
    - under every sequence of presses and ticks from Home, [current_page]
      is -1 or in [0, N). *)
Theorem navigation_state_machine (browse_pages : list pages.page)
    (nonempty : browse_pages <> []) :
  let N := Z.of_nat (length browse_pages) in
  (forall now s,
      current_page s = -1 ->
      on_button browse_pages now s = (Ok tt, mkNav 0 now))
  /\
  (forall now s,
      current_page s <> -1 ->
      on_button browse_pages now s
        = (Ok tt, mkNav ((current_page s + 1) mod N) now))
  /\
  (forall times s,
      current_page s = 0 ->
      length times = length browse_pages ->
      current_page (steps browse_pages (map Press times) s) = 0)
  /\
  (forall now s, last_nav_at (snd (on_button browse_pages now s)) = now)
  /\
  (config.NAV_TIMEOUT = 10%float /\
   (forall now s,
       current_page s <> -1 ->
       (config.NAV_TIMEOUT <=? now - last_nav_at s)%float = true ->
       idle_timeout now s = mkNav (-1) (last_nav_at s)) /\
   (forall now s,
       current_page s = -1 \/
       (config.NAV_TIMEOUT <=? now - last_nav_at s)%float = false ->
       idle_timeout now s = s))
  /\
  (forall inputs last,
      valid_page browse_pages (steps browse_pages inputs (mkNav (-1) last))).
Proof.
  intros N. pose proof (page_count_pos browse_pages nonempty) as Hpos.
  split; [intros; by apply press_home|].
  split; [intros; by apply press_browsing|].
  split.
  { intros times s H0 Hlen.
    rewrite (presses_advance browse_pages nonempty) by lia.
    rewrite H0, Hlen, Z.add_0_l. apply Z_mod_same_full. }
  split.
  { intros now s. unfold on_button.
    destruct (current_page s =? -1); [reflexivity|].
    destruct (Z.of_nat (length browse_pages) =? 0); reflexivity. }
  split.
  { split; [reflexivity|]. split.
    - intros now s Hp Hle. unfold idle_timeout. rewrite Hle.
      apply Z.eqb_neq in Hp. rewrite Hp. reflexivity.
    - intros now s [Hp|Hle]; unfold idle_timeout.
      + rewrite Hp. reflexivity.
      + rewrite Hle, andb_false_r. reflexivity. }
  intros inputs last. apply steps_valid; [exact nonempty|].
  left. reflexivity.
Qed.

(** The program's five browse pages: five presses from the first page come
    back to it. *)
Lemma navigation_state_machine_witness :
  pages.BROWSE_PAGES <> [] /\
  current_page
    (steps pages.BROWSE_PAGES (map Press [1; 2; 3; 4; 5]%float)
           (mkNav 0 0%float)) = 0.
Proof.
  assert (H : pages.BROWSE_PAGES <> []) by discriminate.
  split; [exact H|].
  destruct (navigation_state_machine pages.BROWSE_PAGES H)
    as (_ & _ & Hcycle & _).
  apply Hcycle; reflexivity.
Defined.

(** ** The buzzer *)

Import buzzer.

Lemma known_iff name :
  known name = false <->
  name <> "short" /\ name <> "long" /\ name <> "double" /\ name <> "triple".
Proof.
  unfold known, patterns. cbn [existsb fst]. split.
  - intros H. repeat (apply orb_false_elim in H as [?%String.eqb_neq H]).
    repeat split; congruence.
  - intros (H1 & H2 & H3 & H4).
    apply not_eq_sym, String.eqb_neq in H1, H2, H3, H4.
    rewrite H1, H2, H3, H4. reflexivity.
Qed.

(** C10. Buzzer pattern fallback.  [pattern(name)] returns for every name,
    and for every name outside {short, long, double, triple} it plays what
    "short" plays: one beep of 100 ms (PWM at 50 % duty) followed by a pause
    of 100 ms. *)
Theorem pattern_falls_back_to_short (self : Buzzer) (name : string) :
  (exists played, pattern self name = Ok played) /\
  (name <> "short" -> name <> "long" -> name <> "double" -> name <> "triple" ->
   pattern self name = pattern self "short" /\
   pattern self name =
     Ok [PWM (pin self) (frequency self); Start 50; Sleep 100; Stop; Sleep 100]).
Proof.
  split.
  - unfold pattern. destruct (known name) eqn:K; [|eexists; reflexivity].
    unfold known, patterns in K. cbn [existsb fst] in K.
    repeat (apply orb_prop in K as [K|K];
            [apply String.eqb_eq in K; subst name; eexists; reflexivity|]).
    discriminate K.
  - intros H1 H2 H3 H4.
    assert (K : known name = false) by (apply known_iff; auto).
    unfold pattern. rewrite K. split; reflexivity.
Qed.

(** An unknown pattern name. *)
Lemma pattern_falls_back_to_short_witness :
  pattern (mkBuzzer 18 2000) "siren" =
    Ok [PWM 18 2000; Start 50; Sleep 100; Stop; Sleep 100].
Proof.
  destruct (pattern_falls_back_to_short (mkBuzzer 18 2000) "siren")
    as [_ H].
  apply H; discriminate.
Defined.

(** ** The sources: what they let escape *)

(** [GlancesSource.get] never raises: [_fetch] turns every exception into
    [None]. *)
Lemma glances_fetch_returns parse url endpoint net :
  exists data, glances._fetch parse url endpoint net = (Ok data, net).
Proof.
  unfold glances._fetch.
  destruct (net (url ++ "/" ++ endpoint)) as [r|e]; [|eauto].
  destruct (glances.status_ok r); [|eauto].
  destruct (glances.json r) as [data|e]; [|eauto].
  destruct (String.eqb endpoint "smart"); [|eauto].
  destruct (parse data); eauto.
Qed.

(** [SystemSource.get] never raises either: every getter has its default. *)
Lemma system_fetch_returns key w :
  exists v, system._fetch key w = (Ok v, w).
Proof.
  unfold system._fetch.
  repeat match goal with |- context [if ?b then _ else _] => destruct b end;
    eauto.
Qed.

(** A consistent cache over a [_fetch] that always returns never raises. *)
Lemma get_returns {V W : Type} (_fetch : string -> W -> result V * W)
    now key ttl_s (self : CachedDataSource V) w :
  (forall k w0, exists v w1, _fetch k w0 = (Ok v, w1)) ->
  consistent self ->
  exists v, returned (get _fetch now key ttl_s self w) = Ok v.
Proof.
  intros Hfetch Hself.
  assert (Hrefresh : exists v,
             returned (refresh _fetch now key self w) = Ok v).
  { destruct (Hfetch key w) as (v & w1 & E).
    exists v. by rewrite (refresh_ok _ _ _ _ _ _ _ E). }
  unfold get. destruct (_cache self !! key) as [v|] eqn:Hc; [|exact Hrefresh].
  destruct (consistent_lookup self key Hself (mk_is_Some _ _ Hc)) as [ts Ht].
  rewrite Ht. destruct (now - ts <? ttl_s)%float; [eauto|exact Hrefresh].
Qed.

(** [MdadmSource._get_status] lets an exception out exactly when the read
    of [array_state] or of [sync_action] raises something other than
    [FileNotFoundError]. *)
Lemma get_status_raises md fs e :
  mdadm._get_status (Some md) fs = Raise e ->
  is_FileNotFoundError e = false /\
  (fs ("/sys/block/" ++ md ++ "/md/array_state") = Raise e \/
   fs ("/sys/block/" ++ md ++ "/md/sync_action") = Raise e).
Proof.
  unfold mdadm._get_status, mdadm.read_attribute.
  destruct (negb (pystr.truthy md)); [discriminate|].
  destruct (fs ("/sys/block/" ++ md ++ "/md/array_state")) as [t1|e1].
  - destruct (fs ("/sys/block/" ++ md ++ "/md/sync_action")) as [t2|e2].
    + destruct (mdadm.sync_active _); discriminate.
    + destruct (is_FileNotFoundError e2) eqn:E2.
      * destruct (mdadm.sync_active _); discriminate.
      * intros [= ->]. auto.
  - destruct (is_FileNotFoundError e1) eqn:E1.
    + destruct (fs ("/sys/block/" ++ md ++ "/md/sync_action")) as [t2|e2].
      * destruct (mdadm.sync_active _); discriminate.
      * destruct (is_FileNotFoundError e2) eqn:E2.
        -- destruct (mdadm.sync_active _); discriminate.
        -- intros [= ->]. auto.
    + intros [= ->]. auto.
Qed.

(** The three probes of [_resolve_md_name]: the device behind the storage
    mount (a partition name is cut back to its array), else the first array
    of /proc/mdstat (also when a short line makes the scan of the mount
    table raise), else the first /dev/md* node. *)
Example resolve_md_name_probes :
  let only (path text : string) : mdadm.files := fun p =>
    if String.eqb p path then Ok text else Raise FileNotFoundError in
  mdadm._resolve_md_name "/mnt/storage" scenario.fs [] = Some "md0" /\
  mdadm._resolve_md_name "/mnt/storage"
    (only "/proc/mounts" "/dev/md3p1 /mnt/storage ext4 rw 0 0
") [] = Some "md3" /\
  mdadm._resolve_md_name "/mnt/storage"
    (only "/proc/mdstat" "Personalities : [raid1]
md127 : active raid1 sdb1[1] sda1[0]
") ["/dev/md0"] = Some "md127" /\
  mdadm._resolve_md_name "/mnt/storage"
    (fun p => if String.eqb p "/proc/mounts" then Ok "
/dev/md3 /mnt/storage ext4 rw 0 0
" else scenario.fs p) [] = Some "md0" /\
  mdadm._resolve_md_name "/mnt/storage" (fun _ => Raise PermissionError)
    ["/dev/md1"; "/dev/md0"] = Some "md0" /\
  mdadm._resolve_md_name "/mnt/storage" (fun _ => Raise FileNotFoundError)
    [] = None.
Proof. repeat split; vm_compute; reflexivity. Qed.

(** [MdadmSource._fetch] returns for every key but "status". *)
Lemma mdadm_fetch_returns key w :
  key <> "status" -> exists v w', mdadm._fetch key w = (Ok v, w').
Proof.
  intros H. unfold mdadm._fetch.
  destruct (String.eqb_spec key "status") as [E|_]; [contradiction|].
  destruct (String.eqb key "name"); [|eauto].
  destruct (mdadm.md_name w). eauto.
Qed.

(** C6 fails on the array status source.  With the device resolved to md0
    and [array_state] unreadable for lack of permission, [get("status")]
    on a fresh cache raises [PermissionError]: only [FileNotFoundError] is
    caught around the two sysfs reads, and the cache wrapper catches
    nothing. *)
Theorem status_permission_error_escapes (now ttl_s : float) :
  scenario.fs_denied "/sys/block/md0/md/array_state" = Raise PermissionError /\
  mdadm.md_name (mdadm.mkEnv scenario.fs_denied [] None)
    = (Some "md0", mdadm.mkEnv scenario.fs_denied [] (Some "md0")) /\
  returned (mdadm.get now "status" ttl_s base.init
                      (mdadm.mkEnv scenario.fs_denied [] None))
    = Raise PermissionError.
Proof. repeat split; vm_compute; reflexivity. Qed.

(** ** Parsing the array status *)

Lemma parse_mdstat_keeps md fs st :
  mdadm.array_state (mdadm.parse_mdstat md fs st) = mdadm.array_state st /\
  mdadm.sync_action (mdadm.parse_mdstat md fs st) = mdadm.sync_action st.
Proof.
  unfold mdadm.parse_mdstat.
  destruct (fs "/proc/mdstat"); [|auto].
  destruct (mdadm.parsed (mdadm.search_progress _ _)); [|auto].
  destruct (mdadm.parsed (mdadm.search_tagged_number "finish=" _ _)); [|auto].
  destruct (mdadm.parsed (mdadm.search_tagged_number "speed=" _ _)); auto.
Qed.

(** The three numbers are present only while a sync is active. *)
Lemma numbers_only_when_active md fs st :
  mdadm._get_status md fs = Ok st ->
  is_Some (mdadm.progress st) \/ is_Some (mdadm.finish_min st)
    \/ is_Some (mdadm.speed_kps st) ->
  mdadm.sync_active (mdadm.sync_action st) = true /\
  exists a, mdadm.sync_action st = Some a /\ a <> "" /\
            a <> "idle" /\ a <> "frozen".
Proof.
  intros Hst Hnum.
  assert (Hnone : forall st0, st0 = mdadm.no_status \/
                    (exists a b, st0 = mdadm.mkStatus a b None None None) ->
                  st = st0 -> False).
  { intros st0 [->|(a & b & ->)] ->; simpl in Hnum;
      destruct Hnum as [[? H]|[[? H]|[? H]]]; discriminate H. }
  assert (Hact : mdadm.sync_active (mdadm.sync_action st) = true).
  { unfold mdadm._get_status in Hst.
    destruct md as [md|]; [|injection Hst as <-; exfalso; eauto].
    destruct (negb (pystr.truthy md)); [injection Hst as <-; exfalso; eauto|].
    destruct (mdadm.read_attribute fs _) as [state|]; [|discriminate].
    destruct (mdadm.read_attribute fs _) as [action|]; [|discriminate].
    destruct (mdadm.sync_active action) eqn:A.
    - injection Hst as <-.
      rewrite (proj2 (parse_mdstat_keeps md fs _)). exact A.
    - injection Hst as <-. exfalso. eauto. }
  split; [exact Hact|].
  unfold mdadm.sync_active in Hact.
  destruct (mdadm.sync_action st) as [a|]; [|discriminate].
  exists a. split; [reflexivity|].
  apply andb_prop in Hact as [Ht Hin].
  apply negb_true_iff in Hin. unfold pystr.in_tuple in Hin.
  cbn [existsb] in Hin.
  apply orb_false_elim in Hin as [H1 Hin].
  apply orb_false_elim in Hin as [H2 _].
  apply String.eqb_neq in H1, H2.
  repeat split; [|exact H1|exact H2].
  intros ->. discriminate Ht.
Qed.

(** C7 fails on the second half.  The device is md0 and its [sync_action]
    reads "resync".
    - When md0's resync is delayed and md1, listed after it, resyncs, the
      status of md0 carries md1's percentage, finish time and speed, where
      md0's own lines give none.
    - When md1, listed first, is checked while md0 resyncs, the status of
      md0 carries md0's percentage but md1's finish time and speed. *)
Theorem status_numbers_from_other_array :
  (mdadm._get_status (Some "md0") (scenario.fs_with scenario.md0_delayed)
     = Ok (mdadm.mkStatus (Some "clean") (Some "resync") None None None) /\
   mdadm._get_status (Some "md0")
       (scenario.fs_with (scenario.md0_delayed ++ scenario.md1_resyncing))
     = Ok (mdadm.mkStatus (Some "clean") (Some "resync")
             (Some 8.3%float) (Some 71.4%float) (Some 104477%float)))
  /\
  (mdadm._get_status (Some "md0") (scenario.fs_with scenario.md0_resyncing)
     = Ok (mdadm.mkStatus (Some "clean") (Some "resync")
             (Some 52.2%float) (Some 396.1%float) (Some 99181%float)) /\
   mdadm._get_status (Some "md0")
       (scenario.fs_with (scenario.md1_checking ++ scenario.md0_resyncing))
     = Ok (mdadm.mkStatus (Some "clean") (Some "resync")
             (Some 52.2%float) (Some 71.4%float) (Some 104477%float))).
Proof. repeat split; vm_compute; reflexivity. Qed.

(** * Further properties of the code *)

(** ** Invalidation and key isolation of the cache *)

Lemma refresh_returned {V W : Type} (_fetch : string -> W -> result V * W)
    now key (self : CachedDataSource V) w :
  returned (refresh _fetch now key self w) = fst (_fetch key w).
Proof.
  unfold refresh. destruct (_fetch key w) as [[value|e] w']; reflexivity.
Qed.

(** The answer of [get] on a key depends on the entries of that key only. *)
Lemma get_returned_local {V W : Type} (_fetch : string -> W -> result V * W)
    now key ttl_s (self self' : CachedDataSource V) w :
  _cache self' !! key = _cache self !! key ->
  _timestamps self' !! key = _timestamps self !! key ->
  returned (get _fetch now key ttl_s self' w)
    = returned (get _fetch now key ttl_s self w) /\
  fetched (get _fetch now key ttl_s self' w)
    = fetched (get _fetch now key ttl_s self w) /\
  world (get _fetch now key ttl_s self' w)
    = world (get _fetch now key ttl_s self w).
Proof.
  intros Hc Ht. unfold get. rewrite Hc, Ht.
  destruct (_cache self !! key) as [v|].
  - destruct (_timestamps self !! key) as [ts|]; [|auto].
    destruct (now - ts <? ttl_s)%float; [auto|].
    rewrite !refresh_returned, !refresh_fetched, !refresh_world. auto.
  - rewrite !refresh_returned, !refresh_fetched, !refresh_world. auto.
Qed.

Lemma get_other_entries {V W : Type} (_fetch : string -> W -> result V * W)
    now key ttl_s (self : CachedDataSource V) w other :
  key <> other ->
  _cache (source (get _fetch now key ttl_s self w)) !! other
    = _cache self !! other /\
  _timestamps (source (get _fetch now key ttl_s self w)) !! other
    = _timestamps self !! other.
Proof.
  intros Hne.
  assert (Hr : _cache (source (refresh _fetch now key self w)) !! other
                 = _cache self !! other /\
               _timestamps (source (refresh _fetch now key self w)) !! other
                 = _timestamps self !! other).
  { unfold refresh. destruct (_fetch key w) as [[value|e] w']; simpl;
      [|auto]. by rewrite !lookup_insert_ne. }
  unfold get. destruct (_cache self !! key) as [v|]; [|exact Hr].
  destruct (_timestamps self !! key) as [ts|]; [|auto].
  destruct (now - ts <? ttl_s)%float; [auto|exact Hr].
Qed.

(** X1. Invalidation forces a fetch whatever the TTL.  After
    [invalidate(key)] the next [get(key, ttl)] invokes [_fetch] exactly
    once and returns (or raises) what it does, for every TTL and clock
    reading, however fresh the entry was; after [invalidate()] this holds
    for every key, and after [Context.invalidate_all()] for every key of
    each of the three sources.  [invalidate(key)] leaves the entries of
    every other key as they were. *)
Theorem invalidate_forces_refetch {V W : Type}
    (_fetch : string -> W -> result V * W)
    (self : CachedDataSource V) (key : string) :
  (forall now ttl_s w,
      let o := get _fetch now key ttl_s (invalidate (Some key) self) w in
      fetched o = [key] /\ returned o = fst (_fetch key w) /\
      world o = snd (_fetch key w))
  /\
  (forall now ttl_s w,
      let o := get _fetch now key ttl_s (invalidate None self) w in
      fetched o = [key] /\ returned o = fst (_fetch key w) /\
      world o = snd (_fetch key w))
  /\
  (forall other,
      key <> other ->
      _cache (invalidate (Some key) self) !! other = _cache self !! other /\
      _timestamps (invalidate (Some key) self) !! other
        = _timestamps self !! other)
  /\
  (forall (ctx : context.Context) parse url net env probes now ttl_s,
      let ctx' := context.invalidate_all ctx in
      fetched (glances.get parse url now key ttl_s (context.glances ctx') net)
        = [key] /\
      fetched (mdadm.get now key ttl_s (context.mdadm ctx') env) = [key] /\
      fetched (system.get now key ttl_s (context.system ctx') probes) = [key]).
Proof.
  assert (Hgone : forall (V' W' : Type) (f : string -> W' -> result V' * W')
                         (s : CachedDataSource V') now ttl_s w,
             _cache s !! key = None ->
             let o := get f now key ttl_s s w in
             fetched o = [key] /\ returned o = fst (f key w) /\
             world o = snd (f key w)).
  { intros V' W' f s now ttl_s w Hc o. subst o.
    rewrite get_absent by exact Hc.
    rewrite refresh_fetched, refresh_returned, refresh_world. auto. }
  split; [|split; [|split]].
  - intros now ttl_s w. apply Hgone. simpl. apply lookup_delete_eq.
  - intros now ttl_s w. apply Hgone. simpl. apply lookup_empty.
  - intros other Hne. simpl. by rewrite !lookup_delete_ne.
  - intros ctx parse url net env probes now ttl_s ctx'.
    repeat split.
    + apply (Hgone _ _ (glances._fetch parse url)). apply lookup_empty.
    + apply (Hgone _ _ mdadm._fetch). apply lookup_empty.
    + apply (Hgone _ _ system._fetch). apply lookup_empty.
Qed.

(** X2. Key isolation.  A [get] on one key leaves the value and the
    timestamp of every other key as they were, so a later [get] on another
    key answers, fetches and changes the world exactly as it would have
    without it: the keys have independent fetch counts and expiry clocks. *)
Theorem get_keys_isolated {V W : Type}
    (_fetch : string -> W -> result V * W)
    (now : float) (key : string) (ttl_s : float)
    (self : CachedDataSource V) (w : W) (other : string) :
  key <> other ->
  let after := source (get _fetch now key ttl_s self w) in
  _cache after !! other = _cache self !! other /\
  _timestamps after !! other = _timestamps self !! other /\
  forall now' ttl' w',
    returned (get _fetch now' other ttl' after w')
      = returned (get _fetch now' other ttl' self w') /\
    fetched (get _fetch now' other ttl' after w')
      = fetched (get _fetch now' other ttl' self w') /\
    world (get _fetch now' other ttl' after w')
      = world (get _fetch now' other ttl' self w').
Proof.
  intros Hne after.
  destruct (get_other_entries _fetch now key ttl_s self w other Hne)
    as [Hc Ht].
  split; [exact Hc|]. split; [exact Ht|].
  intros now' ttl' w'. by apply get_returned_local.
Qed.

(** Test 4 of [test_caching]: a fresh entry for "test" does not serve
    "other". *)
Lemma get_keys_isolated_witness :
  let after := source (get test_smoke._fetch 100 "test" 1 base.init 0%nat) in
  "test" <> "other" /\
  fetched (get test_smoke._fetch 100 "other" 1 after 1%nat) = ["other"].
Proof.
  intros after.
  assert (Hne : "test" <> "other") by discriminate.
  split; [exact Hne|].
  destruct (get_keys_isolated test_smoke._fetch 100 "test" 1 base.init 0%nat
              "other" Hne) as (_ & _ & H).
  destruct (H 100%float 1%float 1%nat) as (_ & Hf & _).
  subst after. rewrite Hf. reflexivity.
Defined.

(** ** The alarm engine on a healthy system, and across severities *)

Section QuietFacts.

Variable time : nat -> float.

Lemma cleared_only_refl s : cleared_only s s.
Proof. by repeat split. Qed.

Lemma cleared_only_trans s1 s2 s3 :
  cleared_only s1 s2 -> cleared_only s2 s3 -> cleared_only s1 s3.
Proof.
  intros (A1 & B1 & C1 & D1) (A2 & B2 & C2 & D2).
  repeat split; try congruence. by etrans.
Qed.

Lemma cleared_only_none s s' alarm_id :
  cleared_only s s' ->
  last_alert (alarm_state s) !! alarm_id = None ->
  last_alert (alarm_state s') !! alarm_id = None.
Proof. intros (_ & _ & _ & Hsub) H. by eapply lookup_weaken_None. Qed.

Lemma resolve_cleared alarm_id s :
  cleared_only s (resolve alarm_id s) /\
  last_alert (alarm_state (resolve alarm_id s)) !! alarm_id = None.
Proof.
  split; [|apply lookup_delete_eq].
  repeat split. simpl. apply delete_subseteq.
Qed.

Lemma check_temperature_cool name data s :
  disk_cool data = true ->
  cleared_only s (check_temperature time (name, data) s) /\
  (is_Some (temperature_c data) ->
   last_alert (alarm_state (check_temperature time (name, data) s))
     !! ("temp_" ++ name) = None).
Proof.
  unfold disk_cool, check_temperature.
  destruct (temperature_c data) as [temp|].
  - intros [H60 H50]%andb_prop.
    apply negb_true_iff in H60, H50. rewrite H60, H50.
    split; [apply resolve_cleared|]. intros _. apply resolve_cleared.
  - intros _. split; [apply cleared_only_refl|].
    intros [? H]. discriminate H.
Qed.

Lemma check_sectors_sound name data s :
  disk_sound data = true ->
  cleared_only s (check_sectors time (name, data) s) /\
  last_alert (alarm_state (check_sectors time (name, data) s))
    !! ("smart_" ++ name) = None.
Proof.
  unfold disk_sound, check_sectors. intros H%negb_true_iff. rewrite H.
  apply resolve_cleared.
Qed.

(** A loop whose every iteration only clears: the whole loop only clears,
    and what an iteration has cleared stays cleared. *)
Lemma fold_cleared (f : string * disk -> state -> state)
    (id_of : string * disk -> option string) items :
  (forall item s, In item items ->
     cleared_only s (f item s) /\
     forall alarm_id, id_of item = Some alarm_id ->
       last_alert (alarm_state (f item s)) !! alarm_id = None) ->
  forall s,
    let s' := fold_left (fun acc item => f item acc) items s in
    cleared_only s s' /\
    forall item alarm_id, In item items -> id_of item = Some alarm_id ->
      last_alert (alarm_state s') !! alarm_id = None.
Proof.
  induction items as [|item items IH]; intros Hf s; simpl.
  - split; [apply cleared_only_refl|]. intros ? ? [].
  - destruct (Hf item s (or_introl eq_refl)) as [Hstep Hid].
    destruct (IH (fun i s0 Hi => Hf i s0 (or_intror Hi)) (f item s))
      as [Hrest Hids].
    split; [by eapply cleared_only_trans|].
    intros item' alarm_id [<-|Hin] Hsome.
    + eapply cleared_only_none; [exact Hrest|]. by apply Hid.
    + by eapply Hids.
Qed.

End QuietFacts.

(** X3. A healthy system is silent.  When the array is neither degraded
    nor resyncing, every known disk temperature is below 50, no disk has a
    reallocated, pending or uncorrectable sector and the power flags are
    clear, one evaluation of [check] dispatches no pattern and reads no
    clock; it adds no stamp, and afterwards the alarms [raid_degraded],
    [raid_resync], [power_throttle], [smart_<disk>] of every disk and
    [temp_<disk>] of every disk with a known temperature are cleared. *)
Theorem healthy_evaluation_is_silent (time : nat -> float)
    (raid_status : mdadm.status) (smart : option (list (string * disk)))
    (throttle : system.throttle) (s : state) :
  degraded (default "" (mdadm.array_state raid_status)) = false ->
  resyncing (default "" (mdadm.sync_action raid_status)) = false ->
  forallb (fun item => disk_cool (snd item) && disk_sound (snd item))
          (default [] smart) = true ->
  system.under_voltage throttle || system.throttled throttle = false ->
  let s' := check time raid_status smart throttle s in
  let stamps := last_alert (alarm_state s') in
  dispatched s' = dispatched s /\
  readings s' = readings s /\
  stamps ⊆ last_alert (alarm_state s) /\
  stamps !! "raid_degraded" = None /\
  stamps !! "raid_resync" = None /\
  stamps !! "power_throttle" = None /\
  forall name data,
    In (name, data) (default [] smart) ->
    stamps !! ("smart_" ++ name) = None /\
    (is_Some (temperature_c data) -> stamps !! ("temp_" ++ name) = None).
Proof.
  intros Hd Hr Hdisks Hp s' stamps.
  rewrite forallb_forall in Hdisks.
  assert (Hcool : forall item, In item (default [] smart) ->
                    disk_cool (snd item) = true /\ disk_sound (snd item) = true).
  { intros item Hin. by apply andb_prop, Hdisks. }
  set (s1 := check_raid time raid_status s).
  set (s2 := fold_left (fun acc item => check_temperature time item acc)
                       (default [] smart) s1).
  set (s3 := fold_left (fun acc item => check_sectors time item acc)
                       (default [] smart) s2).
  assert (H1 : cleared_only s s1 /\
               last_alert (alarm_state s1) !! "raid_degraded" = None /\
               last_alert (alarm_state s1) !! "raid_resync" = None).
  { subst s1. unfold check_raid. rewrite Hd, Hr.
    destruct (resolve_cleared "raid_degraded" s) as [Ha Hb].
    destruct (resolve_cleared "raid_resync" (resolve "raid_degraded" s))
      as [Hc He].
    split; [by eapply cleared_only_trans|]. split; [|exact He].
    by eapply cleared_only_none. }
  destruct H1 as (H1 & H1d & H1r).
  destruct (fold_cleared (check_temperature time)
              (fun item => match temperature_c (snd item) with
                           | Some _ => Some ("temp_" ++ fst item)
                           | None => None
                           end)
              (default [] smart)) with (s := s1) as [H2 H2ids].
  { intros [name data] s0 Hin.
    destruct (check_temperature_cool time name data s0) as [Ha Hb];
      [by apply (Hcool (name, data))|].
    split; [exact Ha|]. cbn [fst snd]. intros alarm_id Hid.
    destruct (temperature_c data) as [temp|] eqn:E; [|discriminate].
    injection Hid as <-. apply Hb. eauto. }
  fold s2 in H2, H2ids.
  destruct (fold_cleared (check_sectors time)
              (fun item => Some ("smart_" ++ fst item))
              (default [] smart)) with (s := s2) as [H3 H3ids].
  { intros [name data] s0 Hin.
    destruct (check_sectors_sound time name data s0) as [Ha Hb];
      [by apply (Hcool (name, data))|].
    split; [exact Ha|]. cbn [fst snd]. by intros alarm_id [= <-]. }
  fold s3 in H3, H3ids.
  assert (H4 : cleared_only s3 s' /\
               last_alert (alarm_state s') !! "power_throttle" = None).
  { subst s'. unfold check. fold s1 s2 s3. unfold check_power. rewrite Hp.
    apply resolve_cleared. }
  destruct H4 as [H4 H4p].
  assert (H23 : cleared_only s2 s') by (by eapply cleared_only_trans).
  assert (H13 : cleared_only s1 s') by (by eapply cleared_only_trans).
  assert (H03 : cleared_only s s') by (by eapply cleared_only_trans).
  destruct H03 as (A & B & _ & D).
  split; [exact A|]. split; [exact B|]. split; [exact D|].
  split; [by eapply cleared_only_none|].
  split; [by eapply cleared_only_none|].
  split; [exact H4p|].
  intros name data Hin. split.
  - eapply cleared_only_none; [exact H4|].
    by apply (H3ids (name, data)).
  - intros [temp Htemp].
    eapply cleared_only_none; [exact H23|].
    apply (H2ids (name, data)); [exact Hin|]. cbn [fst snd].
    by rewrite Htemp.
Qed.

(** A clean, idle array with one cool, sound disk and clear power flags. *)
Lemma healthy_evaluation_is_silent_witness :
  let time := fun _ : nat => 1700000000%float in
  let raid_status := mdadm.mkStatus (Some "clean") (Some "idle") None None None in
  let sda := mkDisk (Some 35%float) None None (Some 0) (Some 0) (Some 0) None in
  dispatched (check time raid_status (Some [("sda", sda)])
                    system.not_throttled start) = [].
Proof.
  intros time raid_status sda.
  destruct (healthy_evaluation_is_silent time raid_status
              (Some [("sda", sda)]) system.not_throttled start)
    as (H & _); [reflexivity|reflexivity|reflexivity|reflexivity|].
  exact H.
Defined.

(** ** Icons: what [make_icon] yields and where it is drawn *)

Lemma row_coords_spec row : forall x0 y x y',
  In (x, y') (display.row_coords row x0 y) <->
  y' = y /\ x0 <= x /\
  String.get (Z.to_nat (x - x0)) row = Some "#"%char.
Proof.
  induction row as [|ch row IH]; intros x0 y x y'; simpl.
  - split; [intros []|intros (_ & _ & H); discriminate H].
  - rewrite in_app_iff, IH. split.
    + intros [H|(-> & Hx & Hget)].
      * destruct (Ascii.eqb_spec ch "#") as [->|_]; [|destruct H].
        destruct H as [[= <- <-]|[]].
        rewrite Z.sub_diag. simpl. split; [reflexivity|]. split; [lia|reflexivity].
      * split; [reflexivity|]. split; [lia|].
        replace (Z.to_nat (x - x0)) with (S (Z.to_nat (x - (x0 + 1)))) by lia.
        exact Hget.
    + intros (-> & Hx & Hget).
      destruct (Z.eq_dec x x0) as [->|Hne].
      * left. rewrite Z.sub_diag in Hget. simpl in Hget.
        injection Hget as ->. simpl. left. reflexivity.
      * right. split; [reflexivity|]. split; [lia|].
        replace (Z.to_nat (x - x0)) with (S (Z.to_nat (x - (x0 + 1)))) in Hget
          by lia.
        exact Hget.
Qed.

Lemma rows_coords_spec pattern : forall y0 x y,
  In (x, y) (display.rows_coords pattern y0) <->
  y0 <= y /\ 0 <= x /\
  exists row, nth_error pattern (Z.to_nat (y - y0)) = Some row /\
              String.get (Z.to_nat x) row = Some "#"%char.
Proof.
  induction pattern as [|row pattern IH]; intros y0 x y; simpl.
  - split; [intros []|]. intros (_ & _ & r & H & _).
    destruct (Z.to_nat (y - y0)); discriminate H.
  - rewrite in_app_iff, row_coords_spec, IH, Z.sub_0_r. split.
    + intros [(-> & Hx & Hget)|(Hy & Hx & r & Hnth & Hget)].
      * split; [lia|]. split; [exact Hx|]. exists row.
        rewrite Z.sub_diag. split; [reflexivity|exact Hget].
      * split; [lia|]. split; [exact Hx|]. exists r.
        replace (Z.to_nat (y - y0)) with (S (Z.to_nat (y - (y0 + 1)))) by lia.
        split; [exact Hnth|exact Hget].
    + intros (Hy & Hx & r & Hnth & Hget).
      destruct (Z.eq_dec y y0) as [->|Hne].
      * left. rewrite Z.sub_diag in Hnth. injection Hnth as ->. auto.
      * right. split; [lia|]. split; [exact Hx|]. exists r.
        replace (Z.to_nat (y - y0)) with (S (Z.to_nat (y - (y0 + 1)))) in Hnth
          by lia.
        auto.
Qed.

Lemma get_in_length n : forall row ch,
  String.get n row = Some ch -> (n < String.length row)%nat.
Proof.
  induction n as [|n IH]; intros [|c row] ch H; simpl in *;
    try discriminate; [lia|].
  apply IH in H. lia.
Qed.

(** X4. [make_icon] lists exactly the '#' cells.  The pair (x, y) is in
    [make_icon(pattern)] exactly when row [y] of the pattern has a '#' at
    column [x]; hence every coordinate of an icon lies within the pattern:
    [0 <= y < len(pattern)] and [0 <= x < len(pattern[y])]. *)
Theorem make_icon_cells (pattern : list string) (x y : Z) :
  (In (x, y) (display.make_icon pattern) <->
   0 <= x /\ 0 <= y /\
   exists row, nth_error pattern (Z.to_nat y) = Some row /\
               String.get (Z.to_nat x) row = Some "#"%char)
  /\
  (In (x, y) (display.make_icon pattern) ->
   0 <= y < Z.of_nat (length pattern) /\
   exists row, nth_error pattern (Z.to_nat y) = Some row /\
               0 <= x < Z.of_nat (String.length row)).
Proof.
  assert (Hspec : In (x, y) (display.make_icon pattern) <->
                  0 <= x /\ 0 <= y /\
                  exists row, nth_error pattern (Z.to_nat y) = Some row /\
                              String.get (Z.to_nat x) row = Some "#"%char).
  { unfold display.make_icon. rewrite rows_coords_spec, Z.sub_0_r. tauto. }
  split; [exact Hspec|].
  intros (Hx & Hy & row & Hnth & Hget)%Hspec.
  split.
  - assert (Z.to_nat y < length pattern)%nat
      by (apply nth_error_Some; congruence).
    lia.
  - exists row. split; [exact Hnth|].
    apply get_in_length in Hget. lia.
Qed.

Lemma make_icon_sized w h pattern x y :
  display.sized w h pattern = true ->
  In (x, y) (display.make_icon pattern) ->
  0 <= x < Z.of_nat w /\ 0 <= y < Z.of_nat h.
Proof.
  intros [Hh Hw]%andb_prop Hin.
  apply Nat.leb_le in Hh. rewrite forallb_forall in Hw.
  destruct (proj2 (make_icon_cells pattern x y) Hin)
    as (Hy & row & Hnth & Hx).
  apply nth_error_In, Hw, Nat.leb_le in Hnth. lia.
Qed.

Lemma item_in_range {A : Type} (l : list A) i :
  0 <= i < Z.of_nat (length l) ->
  exists a, display.item l i = Some a /\ In a l.
Proof.
  intros Hi. unfold display.item.
  replace ((0 <=? i) && (i <? Z.of_nat (length l))) with true
    by (symmetry; apply andb_true_intro; split; lia).
  destruct (nth_error l (Z.to_nat i)) as [a|] eqn:E.
  - exists a. split; [reflexivity|]. by eapply nth_error_In.
  - apply nth_error_None in E. lia.
Qed.

Lemma item_in {A : Type} (l : list A) i a :
  display.item l i = Some a -> In a l.
Proof.
  unfold display.item.
  destruct ((0 <=? i) && (i <? Z.of_nat (length l)));
    [apply nth_error_In|].
  destruct ((- Z.of_nat (length l) <=? i) && (i <? 0));
    [apply nth_error_In|discriminate].
Qed.

Lemma doubled_inside x y coords :
  (forall dx dy, In (dx, dy) coords -> 0 <= dx < 14 /\ 0 <= dy < 14) ->
  Forall (display.inside x y (x + 28) (y + 28)) (display.doubled x y coords).
Proof.
  intros H. unfold display.doubled. apply Forall_map, Forall_forall.
  intros [dx dy] Hin%list_elem_of_In. apply H in Hin. simpl. lia.
Qed.

Lemma dotted_inside w h x y coords :
  (forall dx dy, In (dx, dy) coords -> 0 <= dx < w /\ 0 <= dy < h) ->
  Forall (display.inside x y (x + w) (y + h)) (display.dotted x y coords).
Proof.
  intros H. unfold display.dotted. apply Forall_map, Forall_forall.
  intros [dx dy] Hin%list_elem_of_In. apply H in Hin. simpl. lia.
Qed.

(** A frame of a table made of patterns of at most [w] by [h] cells. *)
Lemma frame_sized (w h : nat) patterns i coords :
  forallb (display.sized w h) patterns = true ->
  display.item (map display.make_icon patterns) i = Some coords ->
  forall dx dy, In (dx, dy) coords ->
    0 <= dx < Z.of_nat w /\ 0 <= dy < Z.of_nat h.
Proof.
  intros Hall Hitem dx dy Hin.
  apply item_in, in_map_iff in Hitem as (pattern & <- & Hp).
  rewrite forallb_forall in Hall.
  by eapply make_icon_sized; [apply Hall|].
Qed.

Lemma frame_after_mod n : display.frame_after n = Z.of_nat n mod 4.
Proof.
  induction n as [|n IH]; [reflexivity|].
  change (display.frame_after (S n))
    with (display.advance_frame (display.frame_after n)).
  unfold display.advance_frame. rewrite IH, Zplus_mod_idemp_l.
  f_equal. lia.
Qed.

(** X5. Animation frames and icons.  After any number of
    [advance_frame()] calls the frame is in [0, 4) and comes back every
    four calls; at every such frame each icon function finds its frame in
    its table (no [IndexError]), and draws inside its box at (x, y): 28 by
    28 pixels for the big icons, 14 by 14 for the small ones.  At the place
    the home page draws them, (0, BODY_ICON_Y), the big icons are below the
    header and on the screen. *)
Theorem icons_stay_in_their_box (n : nat) (x y : Z) :
  let frame := display.frame_after n in
  let big := display.inside x y (x + 28) (y + 28) in
  let small := display.inside x y (x + 14) (y + 14) in
  (0 <= frame < 4 /\ display.frame_after (n + 4) = frame) /\
  Forall big (display.draw_clean_big x y) /\
  (exists shapes, display.draw_resync_big frame x y = Some shapes /\
                  Forall big shapes) /\
  (exists shapes, display.draw_degraded_big frame x y = Some shapes /\
                  Forall big shapes) /\
  (exists shapes, display.draw_raid_sync frame x y = Some shapes /\
                  Forall small shapes) /\
  (exists shapes, display.draw_raid_degraded frame x y = Some shapes /\
                  Forall small shapes) /\
  (exists shapes, display.draw_raid_unknown frame x y = Some shapes /\
                  Forall small shapes) /\
  (forall throttled,
      exists shapes, display.draw_power_icon frame x y throttled = Some shapes /\
                     Forall small shapes) /\
  (config.BODY_TOP <= config.BODY_ICON_Y /\
   config.BODY_ICON_Y + 28 <= config.SCREEN_H /\ 0 + 28 <= config.SCREEN_W).
Proof.
  intros frame big small.
  assert (Hframe : 0 <= frame < 4).
  { subst frame. rewrite frame_after_mod. apply Z.mod_pos_bound. lia. }
  assert (Hslow : 0 <= (frame / 2) mod 2 < 2)
    by (apply Z.mod_pos_bound; lia).
  assert (Hfast : forall (w h : nat) patterns (shift : list (Z * Z) -> list display.shape)
                    (box : display.shape -> Prop) i,
             forallb (display.sized w h) patterns = true ->
             0 <= i < Z.of_nat (length (map display.make_icon patterns)) ->
             (forall coords,
                 (forall dx dy, In (dx, dy) coords ->
                    0 <= dx < Z.of_nat w /\ 0 <= dy < Z.of_nat h) ->
                 Forall box (shift coords)) ->
             exists shapes,
               match display.item (map display.make_icon patterns) i with
               | Some coords => Some (shift coords)
               | None => None
               end = Some shapes /\ Forall box shapes).
  { intros w h patterns shift box i Hall Hi Hbox.
    destruct (item_in_range _ i Hi) as (coords & Hitem & _).
    rewrite Hitem. eexists. split; [reflexivity|].
    apply Hbox. by eapply frame_sized. }
  split.
  { split; [exact Hframe|]. subst frame. rewrite !frame_after_mod.
    rewrite Nat2Z.inj_add, <- Zplus_mod_idemp_r.
    change (Z.of_nat 4 mod 4) with 0. f_equal. lia. }
  split.
  { apply doubled_inside. intros dx dy Hin.
    by apply (make_icon_sized 14 14 display.CLEAN_PATTERN). }
  split.
  { apply (Hfast 14 14)%nat; [reflexivity|exact Hframe|].
    intros coords H. by apply doubled_inside. }
  split.
  { apply (Hfast 28 28)%nat; [reflexivity|exact Hslow|].
    intros coords H. by apply (dotted_inside 28 28). }
  split.
  { apply (Hfast 14 14)%nat; [reflexivity|exact Hframe|].
    intros coords H. by apply (dotted_inside 14 14). }
  split.
  { apply (Hfast 14 14)%nat; [reflexivity|exact Hslow|].
    intros coords H. by apply (dotted_inside 14 14). }
  split.
  { apply (Hfast 14 14)%nat; [reflexivity|exact Hslow|].
    intros coords H. by apply (dotted_inside 14 14). }
  split.
  { intros [|]; unfold display.draw_power_icon; simpl negb; cbv iota.
    - apply (Hfast 14 14)%nat; [reflexivity|exact Hslow|].
      intros coords H. by apply (dotted_inside 14 14).
    - exists []. split; [reflexivity|constructor]. }
  vm_compute. repeat split; discriminate.
Qed.

(** ** The bouncing icon of the screensaver *)

Lemma update_bounds (self : screensaver.BouncingRaidIcon) :
  let self' := screensaver.update self in
  0 <= screensaver.x self' <= config.SCREEN_W - screensaver.ICON_SIZE /\
  config.BODY_TOP <= screensaver.y self'
    <= config.SCREEN_H - screensaver.ICON_SIZE /\
  Z.abs (screensaver.vx self') = Z.abs (screensaver.vx self) /\
  Z.abs (screensaver.vy self') = Z.abs (screensaver.vy self).
Proof.
  unfold screensaver.update, config.SCREEN_W, config.SCREEN_H,
    config.BODY_TOP, config.HEADER_HEIGHT, screensaver.ICON_SIZE.
  destruct self as [x y vx vy]. cbn [screensaver.x screensaver.y
    screensaver.vx screensaver.vy].
  destruct (x + vx <=? 0) eqn:E1;
    [|destruct (128 - 28 <=? x + vx) eqn:E2];
    (destruct (y + vy <=? 16) eqn:E3;
       [|destruct (64 - 28 <=? y + vy) eqn:E4]);
    cbn [screensaver.x screensaver.y screensaver.vx screensaver.vy];
    lia.
Qed.

Lemma updates_bounds n : forall self,
  0 <= screensaver.x self <= config.SCREEN_W - screensaver.ICON_SIZE ->
  config.BODY_TOP <= screensaver.y self
    <= config.SCREEN_H - screensaver.ICON_SIZE ->
  let self' := Nat.iter n screensaver.update self in
  0 <= screensaver.x self' <= config.SCREEN_W - screensaver.ICON_SIZE /\
  config.BODY_TOP <= screensaver.y self'
    <= config.SCREEN_H - screensaver.ICON_SIZE /\
  Z.abs (screensaver.vx self') = Z.abs (screensaver.vx self) /\
  Z.abs (screensaver.vy self') = Z.abs (screensaver.vy self).
Proof.
  induction n as [|n IH]; intros self Hx Hy; [cbn; tauto|].
  change (Nat.iter (S n) screensaver.update self)
    with (screensaver.update (Nat.iter n screensaver.update self)).
  destruct (IH self Hx Hy) as (_ & _ & Hvx & Hvy).
  destruct (update_bounds (Nat.iter n screensaver.update self))
    as (Hx' & Hy' & Hvx' & Hvy').
  repeat split; try apply Hx'; try apply Hy'; congruence.
Qed.

(** X6. The bouncing icon stays in the body area.  One [update()] brings
    the icon to a position with [0 <= x <= SCREEN_W - 28] and
    [BODY_TOP <= y <= SCREEN_H - 28] from any position, and keeps the
    magnitude of both velocities; so from the position and velocities
    [__init__] draws, after any number of updates, the icon keeps moving
    (both speeds stay 1 or 2) and every pixel it renders is on the screen
    and below the header. *)
Theorem bouncing_icon_stays_in_body (self : screensaver.BouncingRaidIcon)
    (n : nat) :
  screensaver.initial self ->
  let self' := Nat.iter n screensaver.update self in
  0 <= screensaver.x self' <= config.SCREEN_W - screensaver.ICON_SIZE /\
  config.BODY_TOP <= screensaver.y self'
    <= config.SCREEN_H - screensaver.ICON_SIZE /\
  1 <= Z.abs (screensaver.vx self') <= 2 /\
  1 <= Z.abs (screensaver.vy self') <= 2 /\
  Forall (display.inside 0 config.BODY_TOP config.SCREEN_W config.SCREEN_H)
         (screensaver.render self').
Proof.
  intros (Hx & Hy & Hvx & Hvy) self'.
  destruct (updates_bounds n self Hx Hy) as (Hx' & Hy' & Hvx' & Hvy').
  fold self' in Hx', Hy', Hvx', Hvy'.
  split; [exact Hx'|]. split; [exact Hy'|].
  split; [rewrite Hvx'; simpl in Hvx; lia|].
  split; [rewrite Hvy'; simpl in Hvy; lia|].
  unfold screensaver.render.
  pose proof (doubled_inside (screensaver.x self') (screensaver.y self')
                display.CLEAN_FRAME) as Hbox.
  eapply Forall_impl; [apply Hbox|].
  - intros dx dy Hin.
    by apply (make_icon_sized 14 14 display.CLEAN_PATTERN).
  - unfold config.SCREEN_W, config.SCREEN_H, config.BODY_TOP,
      config.HEADER_HEIGHT, screensaver.ICON_SIZE in *.
    intros [a b|a b c d]; simpl; lia.
Qed.

(** An icon in the bottom right corner, moving right and down. *)
Lemma bouncing_icon_stays_in_body_witness :
  let self := screensaver.mkIcon 100 36 2 2 in
  screensaver.initial self /\
  screensaver.x (Nat.iter 3 screensaver.update self) <= 100.
Proof.
  intros self.
  assert (H : screensaver.initial self).
  { unfold screensaver.initial. simpl. vm_compute. intuition discriminate. }
  split; [exact H|].
  destruct (bouncing_icon_stays_in_body self 3 H) as ([_ Hx] & _).
  exact Hx.
Defined.

(** ** The render step of the main loop *)

(** X7. The page selection never fails.  Under every sequence of button
    presses and loop iterations from Home, over a non-empty page list, the
    render step of an iteration finds its page function (the index is never
    out of range), shows Home exactly when [current_page] is -1 after the
    idle check of that iteration (the second timeout test of the render
    step never decides), and otherwise shows the browse page at index
    [current_page]. *)
Theorem page_selection_never_fails (browse_pages : list pages.page)
    (inputs : list input) (last now_mono : float) :
  browse_pages <> [] ->
  let s := steps browse_pages inputs (mkNav (-1) last) in
  let s' := fst (iteration browse_pages now_mono s) in
  s' = idle_timeout now_mono s /\
  exists view,
    snd (iteration browse_pages now_mono s) = Some view /\
    (view = Home <-> current_page s' = -1) /\
    (forall p, view = Browse p ->
       0 <= current_page s' < Z.of_nat (length browse_pages) /\
       nth_error browse_pages (Z.to_nat (current_page s')) = Some p).
Proof.
  intros Hne s s'. split; [reflexivity|].
  subst s'. unfold iteration. cbn [fst snd].
  set (t := idle_timeout now_mono s).
  assert (Hvalid : valid_page browse_pages t).
  { pose proof (steps_valid browse_pages Hne (inputs ++ [Tick now_mono])%list
                  (mkNav (-1) last) (or_introl eq_refl)) as H.
    unfold steps in H. rewrite fold_left_app in H. exact H. }
  unfold select_page.
  destruct (current_page t =? -1) eqn:Ehome.
  - exists Home. apply Z.eqb_eq in Ehome.
    split; [reflexivity|]. split; [tauto|discriminate].
  - apply Z.eqb_neq in Ehome.
    assert (Hidle : (config.NAV_TIMEOUT <=? now_mono - last_nav_at t)%float
                    = false).
    { subst t. unfold idle_timeout in *.
      destruct (negb (current_page s =? -1)
                && (config.NAV_TIMEOUT <=? now_mono - last_nav_at s)%float)
        eqn:E; [contradiction Ehome; reflexivity|].
      apply andb_false_iff in E as [E|E]; [|exact E].
      apply negb_false_iff, Z.eqb_eq in E. contradiction. }
    rewrite Hidle. cbn [orb].
    destruct Hvalid as [Hv|Hv]; [contradiction|].
    destruct (item_in_range browse_pages (current_page t) Hv)
      as (p & Hitem & _).
    rewrite Hitem. exists (Browse p).
    split; [reflexivity|]. split; [split; [discriminate|contradiction]|].
    intros p' [= <-]. split; [exact Hv|].
    unfold display.item in Hitem.
    replace ((0 <=? current_page t)
             && (current_page t <? Z.of_nat (length browse_pages)))
      with true in Hitem by (symmetry; apply andb_true_intro; split; lia).
    exact Hitem.
Qed.

(** Two presses from Home, rendered half a second later: the second browse
    page. *)
Lemma page_selection_never_fails_witness :
  pages.BROWSE_PAGES <> [] /\
  snd (iteration pages.BROWSE_PAGES 2.5
         (steps pages.BROWSE_PAGES [Press 1; Press 2] (mkNav (-1) 0%float)))
    = Some (Browse pages.system).
Proof.
  assert (H : pages.BROWSE_PAGES <> []) by discriminate.
  split; [exact H|].
  destruct (page_selection_never_fails pages.BROWSE_PAGES [Press 1; Press 2]
              0%float 2.5%float H) as (_ & view & Hview & _).
  rewrite Hview. vm_compute in Hview. symmetry. exact Hview.
Defined.

(** ** The column count of the display *)

Lemma bisect_maximal (fits : Z -> bool) (lo hi : Z) :
  lo <= hi ->
  (forall a b, lo <= a <= b -> b <= hi -> fits b = true -> fits a = true) ->
  lo <= display.bisect fits lo hi <= hi /\
  (display.bisect fits lo hi = lo \/
   fits (display.bisect fits lo hi) = true) /\
  (forall n, display.bisect fits lo hi < n <= hi -> fits n = false).
Proof.
  funelim (display.bisect fits lo hi); intros Hle Hanti.
  - split; [lia|]. split; [left; reflexivity|]. intros k Hk. lia.
  - assert (Hlow : lo + 1 <= (lo + hi + 1) / 2)
      by (apply (Z.div_le_lower_bound _ 2 (lo + 1)); lia).
    assert (Hup : (lo + hi + 1) / 2 <= hi)
      by (apply Z.div_le_upper_bound; lia).
    match goal with
    | IH : _ <= _ -> _ -> _ <= display.bisect _ _ _ <= _ /\ _ |- _ =>
        destruct IH as (Hr & Hfit & Hmax);
          [lia|intros a b Hab Hb; apply Hanti; lia|]
    end.
    split; [lia|]. split; [|exact Hmax].
    right. destruct Hfit as [->|Hfit]; assumption.
  - assert (Hlow : lo + 1 <= (lo + hi + 1) / 2)
      by (apply (Z.div_le_lower_bound _ 2 (lo + 1)); lia).
    assert (Hup : (lo + hi + 1) / 2 <= hi)
      by (apply Z.div_le_upper_bound; lia).
    match goal with
    | IH : _ <= _ -> _ -> _ <= display.bisect _ _ _ <= _ /\ _ |- _ =>
        destruct IH as (Hr & Hfit & Hmax);
          [lia|intros a b Hab Hb; apply Hanti; lia|]
    end.
    split; [lia|]. split; [exact Hfit|].
    intros k Hk.
    destruct (Z_lt_dec k ((lo + hi + 1) / 2)) as [Hlt|Hge];
      [apply Hmax; lia|].
    destruct (fits k) eqn:Ek; [|reflexivity].
    assert (fits ((lo + hi + 1) / 2) = true)
      by (apply (Hanti _ k); [lia|lia|exact Ek]).
    congruence.
Qed.

Lemma bisect_range (fits : Z -> bool) (lo hi : Z) :
  lo <= hi ->
  lo <= display.bisect fits lo hi <= hi /\
  (display.bisect fits lo hi = lo \/
   fits (display.bisect fits lo hi) = true).
Proof.
  funelim (display.bisect fits lo hi); intros Hle.
  - split; [lia|left; reflexivity].
  - assert (Hlow : lo + 1 <= (lo + hi + 1) / 2)
      by (apply (Z.div_le_lower_bound _ 2 (lo + 1)); lia).
    assert (Hup : (lo + hi + 1) / 2 <= hi)
      by (apply Z.div_le_upper_bound; lia).
    match goal with
    | IH : _ <= _ -> _ <= display.bisect _ _ _ <= _ /\ _ |- _ =>
        destruct (IH ltac:(lia)) as [Hr Hfound]
    end.
    split; [lia|]. right. destruct Hfound as [->|Hfound]; assumption.
  - assert (Hlow : lo + 1 <= (lo + hi + 1) / 2)
      by (apply (Z.div_le_lower_bound _ 2 (lo + 1)); lia).
    assert (Hup : (lo + hi + 1) / 2 <= hi)
      by (apply Z.div_le_upper_bound; lia).
    match goal with
    | IH : _ <= _ -> _ <= display.bisect _ _ _ <= _ /\ _ |- _ =>
        destruct (IH ltac:(lia)) as [Hr Hfound]
    end.
    split; [lia|exact Hfound].
Qed.

(** X8. [compute_cols_fit] finds the largest count that fits.  For every
    font the result is between 1 and 64, and it is 1 or a count of which
    that many copies of the sample character are at most [screen_w] wide.
    When more copies are never narrower than fewer, the result is the
    largest count in 1..64 that fits: it fits whenever one copy fits, no
    larger count up to 64 fits, and it is 1 when not even one copy fits. *)
Theorem cols_fit_is_maximal (text_width : string -> Z) (screen_w : Z)
    (sample_char : string) :
  let wide (n : Z) :=
    text_width (String.concat "" (repeat sample_char (Z.to_nat n))) in
  let cols := display.compute_cols_fit text_width screen_w sample_char in
  1 <= cols <= 64 /\
  (cols = 1 \/ wide cols <= screen_w) /\
  ((forall a b, 1 <= a <= b -> b <= 64 -> wide a <= wide b) ->
   (wide 1 <= screen_w -> wide cols <= screen_w) /\
   (screen_w < wide 1 -> cols = 1) /\
   (forall n, cols < n <= 64 -> screen_w < wide n)).
Proof.
  intros wide cols.
  set (fits := fun mid => wide mid <=? screen_w).
  destruct (bisect_range fits 1 64 ltac:(lia)) as [Hrange Hfound].
  change (display.bisect fits 1 64) with cols in Hrange, Hfound.
  split; [exact Hrange|]. split.
  { destruct Hfound as [H|H]; [left; exact H|right].
    unfold fits in H. by apply Z.leb_le. }
  intros Hmono.
  assert (Hanti : forall a b, 1 <= a <= b -> b <= 64 ->
                    fits b = true -> fits a = true).
  { intros a b Hab Hb. unfold fits. rewrite !Z.leb_le.
    specialize (Hmono a b Hab Hb). lia. }
  destruct (bisect_maximal fits 1 64 ltac:(lia) Hanti)
    as (Hr & Hfit & Hmax).
  change (display.bisect fits 1 64) with cols in Hr, Hfit, Hmax.
  split; [|split].
  - intros H1. destruct Hfit as [->|Hfit]; [exact H1|].
    unfold fits in Hfit. by apply Z.leb_le.
  - intros H1. destruct Hfit as [Hfit|Hfit]; [exact Hfit|].
    unfold fits in Hfit. apply Z.leb_le in Hfit.
    specialize (Hmono 1 cols ltac:(lia) ltac:(lia)). lia.
  - intros n Hn. specialize (Hmax n Hn). unfold fits in Hmax.
    apply Z.leb_gt in Hmax. exact Hmax.
Qed.

Lemma length_append (a b : string) :
  String.length (a ++ b) = (String.length a + String.length b)%nat.
Proof. induction a as [|c a IH]; simpl; [reflexivity|by rewrite IH]. Qed.

Lemma length_concat_repeat (s : string) n :
  String.length (String.concat "" (repeat s n)) = (n * String.length s)%nat.
Proof.
  induction n as [|n IH]; [reflexivity|].
  destruct n as [|n]; [simpl; lia|].
  change (String.concat "" (repeat s (S (S n))))
    with (s ++ "" ++ String.concat "" (repeat s (S n))).
  rewrite !length_append, IH. simpl. lia.
Qed.

(** A fixed-pitch font of 6 pixels a character on the 128 pixel screen:
    21 columns, and 22 do not fit. *)
Lemma cols_fit_is_maximal_witness :
  let text_width := fun s => 6 * Z.of_nat (String.length s) in
  (forall a b, 1 <= a <= b -> b <= 64 ->
     text_width (String.concat "" (repeat "0" (Z.to_nat a)))
       <= text_width (String.concat "" (repeat "0" (Z.to_nat b)))) /\
  display.compute_cols_fit text_width 128 "0" = 21 /\
  1 <= display.compute_cols_fit text_width 128 "0" <= 64 /\
  (forall n, display.compute_cols_fit text_width 128 "0" < n <= 64 ->
     128 < text_width (String.concat "" (repeat "0" (Z.to_nat n)))).
Proof.
  intros text_width.
  assert (Hmono : forall a b, 1 <= a <= b -> b <= 64 ->
     text_width (String.concat "" (repeat "0" (Z.to_nat a)))
       <= text_width (String.concat "" (repeat "0" (Z.to_nat b)))).
  { intros a b Hab Hb. unfold text_width.
    rewrite !length_concat_repeat. simpl String.length. lia. }
  split; [exact Hmono|]. split; [reflexivity|].
  destruct (cols_fit_is_maximal text_width 128 "0") as (Hrange & _ & Hmax).
  split; [exact Hrange|]. exact (proj2 (proj2 (Hmax Hmono))).
Defined.

(** ** Text layout *)













(** X11. Durations are cut, not rounded.  For a non-negative number of
    whole seconds [s0 = int(seconds)], the three [divmod]s of [fmt_time]
    give days [d >= 0], hours [0 <= h < 24], minutes [0 <= m < 60] and a
    rest under a minute that add up to [s0]; the text shows days and hours
    when [d > 0], hours and minutes when [d = 0 < h], and minutes alone
    otherwise, so what it shows never exceeds the duration and falls short
    of it by less than an hour, respectively a minute. *)
Theorem fmt_time_rounds_down (x : float) (s0 : Z) :
  pyfloat.to_int x = Ok s0 ->
  0 <= s0 ->
  let '(d, h, m, sec) := formatters.split_seconds s0 in
  0 <= d /\ 0 <= h < 24 /\ 0 <= m < 60 /\ 0 <= sec < 60 /\
  s0 = ((d * 24 + h) * 60 + m) * 60 + sec /\
  (0 < d ->
   formatters.fmt_time (Some x)
     = Ok (pystr.of_Z d ++ "d " ++ pystr.of_Z h ++ "h") /\
   (d * 24 + h) * 3600 <= s0 < (d * 24 + h + 1) * 3600) /\
  (d = 0 -> 0 < h ->
   formatters.fmt_time (Some x)
     = Ok (pystr.of_Z h ++ "h " ++ pystr.of_Z m ++ "m") /\
   (h * 60 + m) * 60 <= s0 < (h * 60 + m + 1) * 60) /\
  (d = 0 -> h = 0 ->
   formatters.fmt_time (Some x) = Ok (pystr.of_Z m ++ "m") /\
   m * 60 <= s0 < (m + 1) * 60).
Proof.
  intros Hx Hs. unfold formatters.split_seconds. cbv zeta.
  set (m0 := s0 / 60). set (h0 := m0 / 60).
  assert (Hm0 : 0 <= m0) by (apply Z.div_pos; lia).
  assert (Hh0 : 0 <= h0) by (apply Z.div_pos; lia).
  assert (Hd : 0 <= h0 / 24) by (apply Z.div_pos; lia).
  pose proof (Z.div_mod s0 60 ltac:(lia)) as E1.
  pose proof (Z.div_mod m0 60 ltac:(lia)) as E2.
  pose proof (Z.div_mod h0 24 ltac:(lia)) as E3.
  pose proof (Z.mod_pos_bound s0 60 ltac:(lia)) as B1.
  pose proof (Z.mod_pos_bound m0 60 ltac:(lia)) as B2.
  pose proof (Z.mod_pos_bound h0 24 ltac:(lia)) as B3.
  fold m0 in E1. fold h0 in E2.
  assert (Hfmt : formatters.fmt_time (Some x)
            = if 0 <? h0 / 24
              then Ok (pystr.of_Z (h0 / 24) ++ "d "
                         ++ pystr.of_Z (h0 mod 24) ++ "h")
              else if 0 <? h0 mod 24
                   then Ok (pystr.of_Z (h0 mod 24) ++ "h "
                              ++ pystr.of_Z (m0 mod 60) ++ "m")
                   else Ok (pystr.of_Z (m0 mod 60) ++ "m")).
  { unfold formatters.fmt_time. rewrite Hx. reflexivity. }
  repeat match goal with |- _ /\ _ => split end; try lia.
  - intros H. split; [|lia].
    apply Z.ltb_lt in H. rewrite Hfmt, H. reflexivity.
  - intros H0 H. split; [|lia].
    rewrite Hfmt, H0. apply Z.ltb_lt in H. rewrite H. reflexivity.
  - intros H0 H. split; [|lia]. rewrite Hfmt, H0, H. reflexivity.
Qed.

(** 396.1 minutes, the estimate of the resync scenario. *)
Lemma fmt_time_rounds_down_witness :
  pyfloat.to_int 23766 = Ok 23766 /\ 0 <= 23766 /\
  formatters.fmt_time (Some 23766%float) = Ok "6h 36m" /\
  (6 * 60 + 36) * 60 <= 23766 < (6 * 60 + 36 + 1) * 60.
Proof.
  assert (Hx : pyfloat.to_int 23766 = Ok 23766) by (vm_compute; reflexivity).
  assert (Hs : 0 <= 23766) by (vm_compute; discriminate).
  split; [exact Hx|]. split; [exact Hs|].
  pose proof (fmt_time_rounds_down 23766 23766 Hx Hs) as H.
  destruct H as (_ & _ & _ & _ & _ & _ & H & _).
  specialize (H eq_refl eq_refl). exact H.
Defined.

(** ** One alarm per disk temperature *)

Lemma alert_within_cooldown time id name s t0 :
  alarms.last_alert (alarms.alarm_state s) !! id = Some t0 ->
  (alarms.cooldown (alarms.alarm_state s)
     <=? time (alarms.readings s) - t0)%float = false ->
  alarms.dispatched (alarms.alert time id name s) = alarms.dispatched s /\
  alarms.alarm_state (alarms.alert time id name s) = alarms.alarm_state s.
Proof.
  intros Hstamp Hcool. unfold alarms.alert, alarms.should_alert.
  rewrite Hstamp. change (default 0%float (Some t0)) with t0.
  rewrite Hcool. split; reflexivity.
Qed.

Lemma alert_stamps time id name s :
  alarms.dispatched (alarms.alert time id name s)
    = (alarms.dispatched s ++ [name])%list ->
  alarms.last_alert (alarms.alarm_state (alarms.alert time id name s)) !! id
    = Some (time (alarms.readings s)) /\
  alarms.cooldown (alarms.alarm_state (alarms.alert time id name s))
    = alarms.cooldown (alarms.alarm_state s) /\
  alarms.readings (alarms.alert time id name s) = S (alarms.readings s).
Proof.
  unfold alarms.alert, alarms.should_alert.
  destruct (alarms.cooldown (alarms.alarm_state s) <=? _)%float; cbn.
  - intros _. rewrite lookup_insert_eq. repeat split.
  - intros H. exfalso.
    apply (f_equal (@List.length string)) in H.
    rewrite length_app in H. simpl in H. lia.
Qed.

(** X12. Warning and critical temperature share one alarm.  Both branches
    of the temperature loop ask [should_alert] with the same id
    [temp_<disk>], so once the warning of a disk has sounded ("short"), a
    later evaluation that finds the disk at 60 degrees or more, less than
    the cooldown after the warning, dispatches nothing: the "triple"
    pattern waits for the cooldown of the warning. *)
Theorem critical_waits_for_warning_cooldown
    (time : nat -> float) (name : string) (warm hot : alarms.disk)
    (w h : float) (s : alarms.state) :
  alarms.temperature_c warm = Some w ->
  alarms.temperature_c hot = Some h ->
  (60 <=? w)%float = false -> (50 <=? w)%float = true ->
  (60 <=? h)%float = true ->
  let s1 := alarms.check_temperature time (name, warm) s in
  alarms.dispatched s1 = (alarms.dispatched s ++ ["short"])%list ->
  (alarms.cooldown (alarms.alarm_state s)
     <=? time (S (alarms.readings s)) - time (alarms.readings s))%float
    = false ->
  alarms.dispatched (alarms.check_temperature time (name, hot) s1)
    = alarms.dispatched s1.
Proof.
  intros Hw Hh Hw60 Hw50 Hh60 s1 Hshort Hcool. subst s1.
  unfold alarms.check_temperature in *.
  rewrite Hw in *. rewrite Hh. rewrite Hw60, Hw50 in *. rewrite Hh60.
  destruct (alert_stamps _ _ _ _ Hshort) as (Hstamp & Hcd & Hread).
  apply (alert_within_cooldown time _ "triple" _ _ Hstamp).
  rewrite Hcd, Hread. exact Hcool.
Qed.

(** A disk at 55 degrees at 1000 s, at 61 degrees one minute later. *)
Lemma critical_waits_for_warning_cooldown_witness :
  let time := fun n => match n with O => 1000%float | _ => 1060%float end in
  let disk_at := fun t => alarms.mkDisk (Some t) None None None None None None in
  let s1 := alarms.check_temperature time ("sda", disk_at 55%float)
              alarms.start in
  alarms.dispatched s1 = ["short"] /\
  alarms.dispatched
    (alarms.check_temperature time ("sda", disk_at 61%float) s1) = ["short"].
Proof.
  intros time disk_at s1.
  assert (H1 : alarms.dispatched s1 = ["short"]) by (vm_compute; reflexivity).
  split; [exact H1|].
  exact (eq_trans
           (critical_waits_for_warning_cooldown time "sda"
              (disk_at 55%float) (disk_at 61%float) 55 61 alarms.start
              eq_refl eq_refl eq_refl eq_refl eq_refl H1 eq_refl)
           H1).
Defined.

(** ** Markers, flags and the alarms they go with *)

(** X13. The temperature marker and the temperature alarm agree.  With
    its default thresholds [fmt_temp] marks a reading with "!!" exactly
    when the temperature loop of [check] takes its critical branch
    ("triple"), with "! " exactly when it takes the warning branch
    ("short"), and with two spaces exactly when it clears the alarm. *)
Theorem temperature_marker_matches_alarm
    (time : nat -> float) (name : string) (data : alarms.disk) (t : float)
    (s : alarms.state) :
  alarms.temperature_c data = Some t ->
  let text := formatters.fmt_temp (Some t) in
  let after := alarms.check_temperature time (name, data) s in
  (pystr.startswith "!!" text = true /\
   after = alarms.alert time ("temp_" ++ name) "triple" s) \/
  (pystr.startswith "! " text = true /\
   after = alarms.alert time ("temp_" ++ name) "short" s) \/
  (pystr.startswith "  " text = true /\
   after = alarms.resolve ("temp_" ++ name) s).
Proof.
  intros Ht text after. subst text after.
  unfold alarms.check_temperature, formatters.fmt_temp, formatters.fmt_temp_at.
  rewrite Ht.
  destruct (60 <=? t)%float; [left; split; reflexivity|].
  destruct (50 <=? t)%float; right; [left|right]; split; reflexivity.
Qed.

(** A disk at 55 degrees is marked "! " and warned about. *)
Lemma temperature_marker_matches_alarm_witness :
  let data := alarms.mkDisk (Some 55%float) None None None None None None in
  alarms.temperature_c data = Some 55%float /\
  formatters.fmt_temp (Some 55%float) = "! 55.0C" /\
  ((pystr.startswith "!!" (formatters.fmt_temp (Some 55%float)) = true /\
    alarms.check_temperature (fun _ => 1000%float) ("sda", data) alarms.start
      = alarms.alert (fun _ => 1000%float) ("temp_" ++ "sda") "triple"
          alarms.start) \/
   (pystr.startswith "! " (formatters.fmt_temp (Some 55%float)) = true /\
    alarms.check_temperature (fun _ => 1000%float) ("sda", data) alarms.start
      = alarms.alert (fun _ => 1000%float) ("temp_" ++ "sda") "short"
          alarms.start) \/
   (pystr.startswith "  " (formatters.fmt_temp (Some 55%float)) = true /\
    alarms.check_temperature (fun _ => 1000%float) ("sda", data) alarms.start
      = alarms.resolve ("temp_" ++ "sda") alarms.start)).
Proof.
  intros data. split; [reflexivity|]. split; [vm_compute; reflexivity|].
  exact (temperature_marker_matches_alarm (fun _ => 1000%float) "sda" data 55
           alarms.start eq_refl).
Defined.

Lemma land_pow2_testbit (a k : Z) :
  0 <= k -> negb (Z.land a (2 ^ k) =? 0) = Z.testbit a k.
Proof.
  intros Hk. destruct (Z.testbit a k) eqn:E.
  - apply negb_true_iff, Z.eqb_neq. intros H0.
    assert (Hb : Z.testbit (Z.land a (2 ^ k)) k = true).
    { rewrite Z.land_spec, E, Z.pow2_bits_true by lia. reflexivity. }
    rewrite H0, Z.bits_0 in Hb. discriminate.
  - apply negb_false_iff, Z.eqb_eq, Z.bits_inj'. intros n Hn.
    rewrite Z.land_spec, Z.bits_0, Z.pow2_bits_eqb by lia.
    destruct (k =? n) eqn:Ek.
    + apply Z.eqb_eq in Ek. subst n. rewrite E. reflexivity.
    + apply andb_false_r.
Qed.

(** X14. Throttle flags are single bits, and only two of them sound.  For
    every integer [val] reported by [vcgencmd get_throttled] (negative ones
    included), each flag of the dict is one bit of [val]: bits 0 to 3 for
    the current state and bits 16 to 19 for what has occurred since boot.
    The power block of [check] alerts ("double", alarm [power_throttle])
    exactly when bit 0 or bit 2 is set, and clears the alarm otherwise,
    whatever the other bits are. *)
Theorem throttle_flags_are_bits
    (time : nat -> float) (val : Z) (hexval : string) (s : alarms.state) :
  let flags := system.flags_of val hexval in
  system.under_voltage flags = Z.testbit val 0 /\
  system.freq_capped flags = Z.testbit val 1 /\
  system.throttled flags = Z.testbit val 2 /\
  system.soft_temp_limit flags = Z.testbit val 3 /\
  system.under_voltage_occurred flags = Z.testbit val 16 /\
  system.freq_capped_occurred flags = Z.testbit val 17 /\
  system.throttled_occurred flags = Z.testbit val 18 /\
  system.soft_temp_limit_occurred flags = Z.testbit val 19 /\
  system.raw flags = hexval /\
  alarms.check_power time flags s
    = if Z.testbit val 0 || Z.testbit val 2
      then alarms.alert time "power_throttle" "double" s
      else alarms.resolve "power_throttle" s.
Proof.
  intros flags. subst flags.
  unfold alarms.check_power, system.flags_of.
  cbn [system.under_voltage system.freq_capped system.throttled
       system.soft_temp_limit system.under_voltage_occurred
       system.freq_capped_occurred system.throttled_occurred
       system.soft_temp_limit_occurred system.raw].
  change 0x1 with (2 ^ 0). change 0x2 with (2 ^ 1).
  change 0x4 with (2 ^ 2). change 0x8 with (2 ^ 3).
  change 0x10000 with (2 ^ 16). change 0x20000 with (2 ^ 17).
  change 0x40000 with (2 ^ 18). change 0x80000 with (2 ^ 19).
  rewrite !land_pow2_testbit by lia.
  repeat split.
Qed.

(** ** What a pattern does to the buzzer *)






(** ** How much one evaluation can sound *)

Section DispatchBound.

Variable time : nat -> float.
Variable ok : string -> bool.

Lemma more_refl s : alarms.dispatches_more ok 0 s s.
Proof.
  exists []. rewrite app_nil_r.
  split; [reflexivity|split; [cbn; lia|reflexivity]].
Qed.

Lemma more_trans k1 k2 s1 s2 s3 :
  alarms.dispatches_more ok k1 s1 s2 ->
  alarms.dispatches_more ok k2 s2 s3 ->
  alarms.dispatches_more ok (k1 + k2) s1 s3.
Proof.
  intros (m1 & E1 & L1 & F1) (m2 & E2 & L2 & F2).
  exists (m1 ++ m2)%list. rewrite E2, E1, <- app_assoc.
  split; [reflexivity|]. rewrite length_app, forallb_app, F1, F2.
  split; [lia|reflexivity].
Qed.

Lemma more_weaken k k' s s' :
  (k <= k')%nat ->
  alarms.dispatches_more ok k s s' -> alarms.dispatches_more ok k' s s'.
Proof.
  intros Hk (m & E & L & F). exists m.
  split; [exact E|split; [lia|exact F]].
Qed.

Lemma more_alert id name s :
  ok name = true ->
  alarms.dispatches_more ok 1 s (alarms.alert time id name s).
Proof.
  intros Hok. unfold alarms.alert.
  destruct (alarms.should_alert _ _ _) as [[|] a]; cbn.
  - exists [name]. cbn. rewrite Hok.
    split; [reflexivity|split; [lia|reflexivity]].
  - exists []. rewrite app_nil_r. cbn.
    split; [reflexivity|split; [lia|reflexivity]].
Qed.

Lemma more_resolve id s :
  alarms.dispatches_more ok 0 s (alarms.resolve id s).
Proof.
  exists []. rewrite app_nil_r.
  split; [reflexivity|split; [cbn; lia|reflexivity]].
Qed.

Lemma more_fold (step : string * alarms.disk -> alarms.state -> alarms.state)
    items :
  (forall item s, alarms.dispatches_more ok 1 s (step item s)) ->
  forall s,
    alarms.dispatches_more ok (length items) s
      (fold_left (fun acc item => step item acc) items s).
Proof.
  intros Hstep. induction items as [|item rest IH]; intros s.
  - apply more_refl.
  - cbn [fold_left length].
    apply (more_trans 1 (length rest) s (step item s)); [apply Hstep|apply IH].
Qed.

Hypothesis ok_short : ok "short" = true.
Hypothesis ok_long : ok "long" = true.
Hypothesis ok_double : ok "double" = true.
Hypothesis ok_triple : ok "triple" = true.

Lemma more_check raid_status smart throttle s :
  alarms.dispatches_more ok (2 + 2 * length (default [] smart)) s
    (alarms.check time raid_status smart throttle s).
Proof.
  unfold alarms.check. cbv zeta.
  set (items := default [] smart).
  replace (2 + 2 * length items)%nat
    with (1 + (length items + (length items + 1)))%nat by lia.
  set (s1 := alarms.check_raid time raid_status s).
  set (s2 := fold_left _ items s1).
  set (s3 := fold_left _ items s2).
  apply (more_trans _ _ s s1); [|apply (more_trans _ _ s1 s2);
                                  [|apply (more_trans _ _ s2 s3)]];
    subst s1 s2 s3.
  - unfold alarms.check_raid.
    destruct (alarms.degraded _); [apply more_alert; assumption|].
    destruct (alarms.resyncing _); [apply more_alert; assumption|].
    apply (more_weaken 0); [lia|].
    eapply (more_trans 0 0); apply more_resolve.
  - apply more_fold. intros [name data] s0. unfold alarms.check_temperature.
    destruct (alarms.temperature_c data) as [temp|];
      [|apply (more_weaken 0); [lia|apply more_refl]].
    destruct (60 <=? temp)%float; [apply more_alert; assumption|].
    destruct (50 <=? temp)%float; [apply more_alert; assumption|].
    apply (more_weaken 0); [lia|apply more_resolve].
  - apply more_fold. intros [name data] s0. unfold alarms.check_sectors.
    destruct (_ || _); [apply more_alert; assumption|].
    apply (more_weaken 0); [lia|apply more_resolve].
  - unfold alarms.check_power.
    destruct (_ || _); [apply more_alert; assumption|].
    apply (more_weaken 0); [lia|apply more_resolve].
Qed.

End DispatchBound.

(** X16. One evaluation sounds a bounded number of defined patterns.
    Whatever the sources returned and whatever the alarm state, [check]
    keeps what was dispatched before and adds at most two patterns plus two
    per disk of the SMART dict, and every pattern it passes to
    [buzzer.pattern] is one of the names the buzzer defines, so the
    fallback of [pattern] is never taken by the alarm engine. *)
Theorem check_dispatches_known_patterns
    (time : nat -> float) (raid_status : mdadm.status)
    (smart : option (list (string * alarms.disk)))
    (throttle : system.throttle) (s : alarms.state) :
  alarms.dispatches_more buzzer.known (2 + 2 * length (default [] smart)) s
    (alarms.check time raid_status smart throttle s).
Proof.
  apply more_check; reflexivity.
Qed.

(** ** Where the array name and the sync numbers come from *)

Lemma after_prefix_spec pre : forall s rest,
  pystr.after_prefix pre s = Some rest -> s = pre ++ rest.
Proof.
  induction pre as [|a pre IH]; intros [|b s] rest H; cbn in H;
    try discriminate.
  - injection H as <-. reflexivity.
  - injection H as <-. reflexivity.
  - destruct (Ascii.eqb a b) eqn:E; [|discriminate].
    apply Ascii.eqb_eq in E. subst b.
    change (String a s = String a (pre ++ rest)). f_equal. apply IH, H.
Qed.

Lemma after_prefix_app pre s : pystr.after_prefix pre (pre ++ s) = Some s.
Proof.
  induction pre as [|a pre IH]; [destruct s; reflexivity|].
  change (pystr.after_prefix (String a pre) (String a (pre ++ s)) = Some s).
  cbn [pystr.after_prefix]. rewrite Ascii.eqb_refl. exact IH.
Qed.

Lemma span_spec p : forall s run tail,
  pystr.span p s = (run, tail) ->
  s = run ++ tail /\ pystr.all_chars p run = true.
Proof.
  induction s as [|c s IH]; intros run tail H; cbn in H.
  - injection H as <- <-. split; reflexivity.
  - destruct (p c) eqn:E.
    + destruct (pystr.span p s) as [run' tail'] eqn:Es.
      injection H as <- <-. destruct (IH _ _ eq_refl) as [-> Hall].
      split; [reflexivity|]. cbn. rewrite E, Hall. reflexivity.
    + injection H as <- <-. split; reflexivity.
Qed.

Lemma lstrip_spec s :
  exists ws, s = ws ++ pystr.lstrip s /\ pystr.all_chars pystr.is_space ws = true.
Proof.
  unfold pystr.lstrip. destruct (pystr.span pystr.is_space s) as [ws tail] eqn:E.
  exists ws. apply span_spec in E. exact E.
Qed.

Lemma append_assoc (a b c : string) : (a ++ b) ++ c = a ++ b ++ c.
Proof.
  induction a as [|x a IH]; [reflexivity|].
  change (String x ((a ++ b) ++ c) = String x (a ++ b ++ c)).
  f_equal. exact IH.
Qed.

Lemma match_md_spec s name tail :
  mdadm.match_md s = Some (name, tail) ->
  s = name ++ tail /\ mdadm.md_device name = true.
Proof.
  unfold mdadm.match_md.
  destruct (pystr.after_prefix "md" s) as [rest|] eqn:E; [|discriminate].
  destruct (pystr.span pystr.is_digit rest) as [number tl] eqn:Es.
  destruct (pystr.truthy number) eqn:T; [|discriminate].
  intros H. injection H as <- <-.
  apply after_prefix_spec in E. apply span_spec in Es as [-> Hall].
  split; [subst s; reflexivity|].
  unfold mdadm.md_device. rewrite after_prefix_app, T, Hall. reflexivity.
Qed.

Lemma scan_mounts_spec prefer lines name :
  mdadm.scan_mounts prefer lines = Ok (Some name) ->
  exists line dev rest tail,
    In line lines /\ pystr.split line = dev :: prefer :: rest /\
    pystr.basename dev = name ++ tail /\ mdadm.md_device name = true.
Proof.
  induction lines as [|line lines IH]; [discriminate|].
  cbn [mdadm.scan_mounts].
  destruct (pystr.split line) as [|dev [|mnt rest]] eqn:Es; try discriminate.
  intros H.
  assert (Hrest : mdadm.scan_mounts prefer lines = Ok (Some name) ->
                  exists line0 dev0 rest0 tail0,
                    (line = line0 \/ In line0 lines) /\
                    pystr.split line0 = dev0 :: prefer :: rest0 /\
                    pystr.basename dev0 = name ++ tail0 /\
                    mdadm.md_device name = true).
  { intros H'. destruct (IH H') as (l & d & r & t & Hin & Hrest).
    exists l, d, r, t. split; [right; exact Hin|exact Hrest]. }
  destruct (String.eqb mnt prefer) eqn:Em; [|exact (Hrest H)].
  apply String.eqb_eq in Em. subst mnt.
  destruct (mdadm.match_md (pystr.basename dev)) as [[nm tail]|] eqn:Emd;
    [|exact (Hrest H)].
  injection H as ->. apply match_md_spec in Emd as [Hb Hd].
  exists line, dev, rest, tail. repeat split; [left; reflexivity|..]; assumption.
Qed.

Lemma scan_mdstat_spec lines name :
  mdadm.scan_mdstat lines = Some name ->
  exists line tail,
    In line lines /\ line = name ++ tail /\
    pystr.startswith ":" (pystr.lstrip tail) = true /\
    mdadm.md_device name = true.
Proof.
  induction lines as [|line lines IH]; [discriminate|].
  cbn [mdadm.scan_mdstat]. intros H.
  assert (Hrest : mdadm.scan_mdstat lines = Some name ->
                  exists line0 tail0,
                    (line = line0 \/ In line0 lines) /\ line0 = name ++ tail0 /\
                    pystr.startswith ":" (pystr.lstrip tail0) = true /\
                    mdadm.md_device name = true).
  { intros H'. destruct (IH H') as (l & t & Hin & Hrest).
    exists l, t. split; [right; exact Hin|exact Hrest]. }
  destruct (mdadm.match_md line) as [[nm tail]|] eqn:Emd; [|exact (Hrest H)].
  destruct (pystr.startswith ":" (pystr.lstrip tail)) eqn:Ec;
    [|exact (Hrest H)].
  injection H as ->. apply match_md_spec in Emd as [Hb Hd].
  exists line, tail. repeat split; [left; reflexivity|..]; assumption.
Qed.

Lemma least_in names : forall best name,
  fold_left
    (fun best name =>
       match best with
       | None => Some name
       | Some b => if String.ltb name b then Some name else Some b
       end) names best = Some name ->
  best = Some name \/ In name names.
Proof.
  induction names as [|n names IH]; intros best name H; cbn in H.
  - left. exact H.
  - apply IH in H. destruct H as [H|H]; [|right; right; exact H].
    destruct best as [b|].
    + destruct (String.ltb n b); injection H as <-;
        [right; left; reflexivity|left; reflexivity].
    + injection H as <-. right. left. reflexivity.
Qed.

(** X17. The array name is one the system shows.  Whenever
    [_resolve_md_name] returns a name, it is [md<digits>] taken from the
    start of the device of a /proc/mounts line whose mount point is the
    preferred one, or [md<digits>] from the start of a /proc/mdstat line
    where a colon follows it (after optional blanks), or the base name of
    one of the /dev/md* paths; with no such path, every resolved name has
    the form [md<digits>]. *)
Theorem resolved_name_comes_from_the_system
    (prefer_mountpoint : string) (fs : mdadm.files) (dev_md : list string)
    (name : string) :
  mdadm._resolve_md_name prefer_mountpoint fs dev_md = Some name ->
  (exists text line dev rest tail,
     fs "/proc/mounts" = Ok text /\ In line (pystr.lines text) /\
     pystr.split line = dev :: prefer_mountpoint :: rest /\
     pystr.basename dev = name ++ tail /\ mdadm.md_device name = true) \/
  (exists text line tail,
     fs "/proc/mdstat" = Ok text /\ In line (pystr.lines text) /\
     line = name ++ tail /\
     pystr.startswith ":" (pystr.lstrip tail) = true /\
     mdadm.md_device name = true) \/
  (exists path, In path dev_md /\ name = pystr.basename path).
Proof.
  unfold mdadm._resolve_md_name. cbv zeta.
  destruct (match fs "/proc/mounts" with
            | Ok text =>
                match mdadm.scan_mounts prefer_mountpoint (pystr.lines text) with
                | Ok found => found
                | Raise _ => None
                end
            | Raise _ => None
            end) as [found|] eqn:Efm.
  { intros H. injection H as ->. left.
    destruct (fs "/proc/mounts") as [mounts|e]; [|discriminate].
    destruct (mdadm.scan_mounts prefer_mountpoint (pystr.lines mounts))
      as [[found|]|e] eqn:Es; try discriminate.
    injection Efm as ->.
    destruct (scan_mounts_spec _ _ _ Es) as (l & d & r & t & H).
    exists mounts, l, d, r, t. split; [reflexivity|exact H]. }
  destruct (match fs "/proc/mdstat" with
            | Ok text => mdadm.scan_mdstat (pystr.lines text)
            | Raise _ => None
            end) as [found|] eqn:Efd.
  { intros H. injection H as ->. right. left.
    destruct (fs "/proc/mdstat") as [mdstat|e]; [|discriminate].
    destruct (scan_mdstat_spec _ _ Efd) as (l & t & H).
    exists mdstat, l, t. split; [reflexivity|exact H]. }
  destruct (pystr.least dev_md) as [path|] eqn:El; [|discriminate].
  intros H. injection H as <-. right. right. exists path.
  split; [|reflexivity].
  unfold pystr.least in El. apply least_in in El.
  destruct El as [El|El]; [discriminate|exact El].
Qed.

(** The scenario: /proc/mounts names /dev/md0 as the device of the storage
    mount. *)
Lemma resolved_name_comes_from_the_system_witness :
  mdadm._resolve_md_name config.STORAGE_MOUNT scenario.fs [] = Some "md0" /\
  mdadm.md_device "md0" = true.
Proof.
  assert (H : mdadm._resolve_md_name config.STORAGE_MOUNT scenario.fs []
              = Some "md0") by (vm_compute; reflexivity).
  split; [exact H|].
  destruct (resolved_name_comes_from_the_system _ _ _ _ H)
    as [(_ & _ & _ & _ & _ & _ & _ & _ & _ & Hd)
       |[(_ & _ & _ & _ & _ & _ & _ & Hd)|(path & [] & _)]]; exact Hd.
Defined.

Lemma tagged_number_here_spec tag unit s run :
  mdadm.tagged_number_here tag unit s = Some run ->
  exists after,
    s = tag ++ run ++ unit ++ after /\ mdadm.number_text run = true.
Proof.
  unfold mdadm.tagged_number_here.
  destruct (pystr.after_prefix tag s) as [rest|] eqn:E; [|discriminate].
  destruct (pystr.span pystr.is_digit_or_dot rest) as [r tail] eqn:Es.
  destruct (pystr.truthy r) eqn:T; [|discriminate].
  destruct (pystr.startswith unit tail) eqn:U; [|discriminate].
  intros H. injection H as <-.
  apply after_prefix_spec in E. apply span_spec in Es as [-> Hall].
  destruct (startswith_inv _ _ U) as [after ->].
  exists after. split; [exact E|].
  unfold mdadm.number_text. rewrite T, Hall. reflexivity.
Qed.

Lemma search_tagged_number_spec tag unit s run :
  mdadm.search_tagged_number tag unit s = Some run ->
  exists before after,
    s = before ++ tag ++ run ++ unit ++ after /\
    mdadm.number_text run = true.
Proof.
  induction s as [|c s IH]; cbn [mdadm.search_tagged_number];
    destruct (mdadm.tagged_number_here tag unit _) as [r|] eqn:E;
    try discriminate; intros H.
  - injection H as ->.
    destruct (tagged_number_here_spec _ _ _ _ E) as (after & Hs & Hn).
    exists "", after. split; [exact Hs|exact Hn].
  - injection H as ->.
    destruct (tagged_number_here_spec _ _ _ _ E) as (after & Hs & Hn).
    exists "", after. split; [exact Hs|exact Hn].
  - destruct (IH H) as (before & after & -> & Hn).
    exists (String c before), after. split; [reflexivity|exact Hn].
Qed.

Lemma percent_here_spec s run :
  mdadm.percent_here s = Some run ->
  exists ws1 ws2 after,
    s = ws1 ++ "=" ++ ws2 ++ run ++ "%" ++ after /\
    pystr.all_chars pystr.is_space ws1 = true /\
    pystr.all_chars pystr.is_space ws2 = true /\
    mdadm.number_text run = true.
Proof.
  unfold mdadm.percent_here.
  destruct (lstrip_spec s) as (ws1 & Hs & Hw1).
  destruct (pystr.lstrip s) as [|c rest]; [discriminate|].
  destruct (Ascii.eqb c "=") eqn:Ec; [|discriminate].
  apply Ascii.eqb_eq in Ec. subst c.
  destruct (lstrip_spec rest) as (ws2 & Hr & Hw2).
  intros H. apply tagged_number_here_spec in H as (after & Hl & Hn).
  exists ws1, ws2, after. rewrite Hs, Hr, Hl.
  repeat split; assumption.
Qed.

Lemma action_percent_here_spec s run :
  mdadm.action_percent_here s = Some run ->
  exists action rest,
    In action ["resync"; "check"; "recover"; "recovery"] /\
    s = action ++ rest /\ mdadm.percent_here rest = Some run.
Proof.
  unfold mdadm.action_percent_here. cbn [fold_left].
  assert (Hone : forall action,
            In action ["resync"; "check"; "recover"; "recovery"] ->
            match pystr.after_prefix action s with
            | Some rest => mdadm.percent_here rest
            | None => None
            end = Some run ->
            exists action rest,
              In action ["resync"; "check"; "recover"; "recovery"] /\
              s = action ++ rest /\ mdadm.percent_here rest = Some run).
  { intros action Hin H.
    destruct (pystr.after_prefix action s) as [rest|] eqn:E; [|discriminate].
    apply after_prefix_spec in E. exists action, rest. auto. }
  destruct (match pystr.after_prefix "resync" s with
            | Some rest => mdadm.percent_here rest | None => None end)
    as [r|] eqn:E1.
  { intros H. injection H as ->. apply (Hone "resync"); [cbn; tauto|exact E1]. }
  destruct (match pystr.after_prefix "check" s with
            | Some rest => mdadm.percent_here rest | None => None end)
    as [r|] eqn:E2.
  { intros H. injection H as ->. apply (Hone "check"); [cbn; tauto|exact E2]. }
  destruct (match pystr.after_prefix "recover" s with
            | Some rest => mdadm.percent_here rest | None => None end)
    as [r|] eqn:E3.
  { intros H. injection H as ->.
    apply (Hone "recover"); [cbn; tauto|exact E3]. }
  intros H. apply (Hone "recovery"); [cbn; tauto|exact H].
Qed.

Lemma search_action_percent_spec s run :
  mdadm.search_action_percent s = Some run ->
  exists middle action rest,
    In action ["resync"; "check"; "recover"; "recovery"] /\
    s = middle ++ action ++ rest /\ mdadm.percent_here rest = Some run.
Proof.
  induction s as [|c s IH]; cbn [mdadm.search_action_percent];
    destruct (mdadm.action_percent_here _) as [r|] eqn:E;
    try discriminate; intros H.
  - injection H as ->.
    destruct (action_percent_here_spec _ _ E) as (a & rest & Hin & Hs & Hp).
    exists "", a, rest. auto.
  - destruct (IH H) as (middle & a & rest & Hin & -> & Hp).
    exists (String c middle), a, rest. auto.
Qed.

Lemma search_progress_spec md s run :
  mdadm.search_progress md s = Some run ->
  exists before middle action rest,
    In action ["resync"; "check"; "recover"; "recovery"] /\
    s = before ++ (md ++ " :") ++ middle ++ action ++ rest /\
    mdadm.percent_here rest = Some run.
Proof.
  induction s as [|c s IH]; cbn [mdadm.search_progress];
    destruct (pystr.after_prefix (md ++ " :") _) as [rest0|] eqn:E;
    try discriminate; intros H.
  - apply after_prefix_spec in E.
    destruct (search_action_percent_spec _ _ H) as (m & a & rest & Hin & -> & Hp).
    exists "", m, a, rest. auto.
  - apply after_prefix_spec in E.
    destruct (search_action_percent_spec _ _ H) as (m & a & rest & Hin & -> & Hp).
    exists "", m, a, rest. auto.
  - destruct (IH H) as (before & m & a & rest & Hin & -> & Hp).
    exists (String c before), m, a, rest. auto.
Qed.

Lemma parsed_some m x :
  mdadm.parsed m = Ok (Some x) ->
  exists run, m = Some run /\ pyfloat.of_string run = Ok x.
Proof.
  unfold mdadm.parsed. destruct m as [run|]; [|discriminate].
  destruct (pyfloat.of_string run) as [y|] eqn:E; [|discriminate].
  intros H. injection H as <-. exists run. split; [reflexivity|exact E].
Qed.

Lemma parse_mdstat_fields md fs a b :
  let st := mdadm.parse_mdstat md fs (mdadm.mkStatus a b None None None) in
  (forall x, mdadm.progress st = Some x ->
     exists mdstat run,
       fs "/proc/mdstat" = Ok mdstat /\
       mdadm.search_progress md mdstat = Some run /\
       pyfloat.of_string run = Ok x) /\
  (forall x, mdadm.finish_min st = Some x ->
     exists mdstat run,
       fs "/proc/mdstat" = Ok mdstat /\
       mdadm.search_tagged_number "finish=" "min" mdstat = Some run /\
       pyfloat.of_string run = Ok x) /\
  (forall x, mdadm.speed_kps st = Some x ->
     exists mdstat run,
       fs "/proc/mdstat" = Ok mdstat /\
       mdadm.search_tagged_number "speed=" "K/sec" mdstat = Some run /\
       pyfloat.of_string run = Ok x).
Proof.
  unfold mdadm.parse_mdstat. cbv zeta.
  destruct (fs "/proc/mdstat") as [mdstat|e];
    [|repeat split; intros x H; discriminate H].
  destruct (mdadm.parsed (mdadm.search_progress md mdstat)) as [pct|e] eqn:Ep;
    [|repeat split; intros x H; discriminate H].
  assert (Hp : forall x, pct = Some x ->
             exists mdstat0 run,
               Ok (A := string) mdstat = Ok mdstat0 /\
               mdadm.search_progress md mdstat0 = Some run /\
               pyfloat.of_string run = Ok x).
  { intros x ->. destruct (parsed_some _ _ Ep) as (run & Hr & Hx).
    exists mdstat, run. auto. }
  destruct (mdadm.parsed (mdadm.search_tagged_number "finish=" "min" mdstat))
    as [fin|e] eqn:Ef;
    [|repeat split; [exact Hp|intros x H; discriminate H..]].
  assert (Hf : forall x, fin = Some x ->
             exists mdstat0 run,
               Ok (A := string) mdstat = Ok mdstat0 /\
               mdadm.search_tagged_number "finish=" "min" mdstat0 = Some run /\
               pyfloat.of_string run = Ok x).
  { intros x ->. destruct (parsed_some _ _ Ef) as (run & Hr & Hx).
    exists mdstat, run. auto. }
  destruct (mdadm.parsed (mdadm.search_tagged_number "speed=" "K/sec" mdstat))
    as [spd|e] eqn:Es;
    [|repeat split; [exact Hp|exact Hf|intros x H; discriminate H]].
  repeat split; [exact Hp|exact Hf|].
  intros x Hspd. cbn [mdadm.speed_kps] in Hspd. subst spd.
  destruct (parsed_some _ _ Es) as (run & Hr & Hx).
  exists mdstat, run. auto.
Qed.

(** X18. The sync numbers are quoted from /proc/mdstat.  Whenever
    [_get_status] returns a status for an array named [md<digits>]:
    - a [progress] is the value of a run of digits and dots that stands in
      /proc/mdstat after the header ["<md_name> :"], some text, one of the
      words resync, check, recover, recovery, optional blanks, an equals
      sign, optional blanks, and before a percent sign;
    - a [finish_min] is the value of such a run between ["finish="] and
      ["min"], and a [speed_kps] of one between ["speed="] and ["K/sec"];
    so no number is reported that the log does not contain in that form,
    and none at all when /proc/mdstat cannot be read. *)
Theorem sync_numbers_are_quoted (md : string) (fs : mdadm.files)
    (st : mdadm.status) :
  mdadm.md_device md = true ->
  mdadm._get_status (Some md) fs = Ok st ->
  (forall x, mdadm.progress st = Some x ->
     exists mdstat before middle action ws1 ws2 run after,
       fs "/proc/mdstat" = Ok mdstat /\
       mdstat = before ++ (md ++ " :") ++ middle ++ action
                  ++ ws1 ++ "=" ++ ws2 ++ run ++ "%" ++ after /\
       In action ["resync"; "check"; "recover"; "recovery"] /\
       pystr.all_chars pystr.is_space ws1 = true /\
       pystr.all_chars pystr.is_space ws2 = true /\
       mdadm.number_text run = true /\ pyfloat.of_string run = Ok x) /\
  (forall x, mdadm.finish_min st = Some x ->
     exists mdstat before run after,
       fs "/proc/mdstat" = Ok mdstat /\
       mdstat = before ++ "finish=" ++ run ++ "min" ++ after /\
       mdadm.number_text run = true /\ pyfloat.of_string run = Ok x) /\
  (forall x, mdadm.speed_kps st = Some x ->
     exists mdstat before run after,
       fs "/proc/mdstat" = Ok mdstat /\
       mdstat = before ++ "speed=" ++ run ++ "K/sec" ++ after /\
       mdadm.number_text run = true /\ pyfloat.of_string run = Ok x).
Proof.
  intros _ Hst.
  assert (Hcases : st = mdadm.no_status \/
            (exists a b, st = mdadm.mkStatus a b None None None) \/
            (exists a b, st = mdadm.parse_mdstat md fs
                                (mdadm.mkStatus a b None None None))).
  { unfold mdadm._get_status in Hst.
    destruct (negb (pystr.truthy md)); [injection Hst as <-; auto|].
    destruct (mdadm.read_attribute fs _) as [state|]; [|discriminate].
    destruct (mdadm.read_attribute fs _) as [action|]; [|discriminate].
    destruct (mdadm.sync_active action); injection Hst as <-; eauto. }
  destruct Hcases as [->|[(a & b & ->)|(a & b & ->)]];
    [repeat split; intros x H; discriminate H..|].
  destruct (parse_mdstat_fields md fs a b) as (Hp & Hf & Hs).
  split; [|split].
  - intros x Hx. destruct (Hp x Hx) as (mdstat & run & Hfs & Hsearch & Hval).
    destruct (search_progress_spec _ _ _ Hsearch)
      as (before & middle & action & rest & Hin & -> & Hpct).
    destruct (percent_here_spec _ _ Hpct)
      as (ws1 & ws2 & after & -> & Hw1 & Hw2 & Hn).
    exists (before ++ (md ++ " :") ++ middle ++ action
              ++ ws1 ++ "=" ++ ws2 ++ run ++ "%" ++ after),
      before, middle, action, ws1, ws2, run, after.
    repeat split; assumption.
  - intros x Hx. destruct (Hf x Hx) as (mdstat & run & Hfs & Hsearch & Hval).
    destruct (search_tagged_number_spec _ _ _ _ Hsearch)
      as (before & after & -> & Hn).
    exists (before ++ "finish=" ++ run ++ "min" ++ after), before, run, after.
    repeat split; assumption.
  - intros x Hx. destruct (Hs x Hx) as (mdstat & run & Hfs & Hsearch & Hval).
    destruct (search_tagged_number_spec _ _ _ _ Hsearch)
      as (before & after & -> & Hn).
    exists (before ++ "speed=" ++ run ++ "K/sec" ++ after), before, run, after.
    repeat split; assumption.
Qed.

(** The scenario: md0 resyncs at 52.2 %, 396.1 min to go. *)
Lemma sync_numbers_are_quoted_witness :
  mdadm.md_device "md0" = true /\
  mdadm._get_status (Some "md0") scenario.fs
    = Ok (mdadm.mkStatus (Some "clean") (Some "resync")
            (Some 52.2%float) (Some 396.1%float) (Some 99181%float)) /\
  exists mdstat before run after,
    scenario.fs "/proc/mdstat" = Ok mdstat /\
    mdstat = before ++ "finish=" ++ run ++ "min" ++ after /\
    mdadm.number_text run = true /\ pyfloat.of_string run = Ok 396.1%float.
Proof.
  assert (H : mdadm._get_status (Some "md0") scenario.fs
              = Ok (mdadm.mkStatus (Some "clean") (Some "resync")
                      (Some 52.2%float) (Some 396.1%float)
                      (Some 99181%float))) by (vm_compute; reflexivity).
  split; [reflexivity|]. split; [exact H|].
  exact (proj1 (proj2 (sync_numbers_are_quoted "md0" _ _ eq_refl H)) _ eq_refl).
Defined.

(** ** The cache under its own smoke test *)

Lemma get_cached {V W : Type} (_fetch : string -> W -> result V * W)
    now key ttl_s (self : base.CachedDataSource V) w v ts :
  base._cache self !! key = Some v ->
  base._timestamps self !! key = Some ts ->
  base.get _fetch now key ttl_s self w
    = if (now - ts <? ttl_s)%float
      then base.mkOutcome (Ok v) self w []
      else base.refresh _fetch now key self w.
Proof. intros Hc Ht. unfold base.get. rewrite Hc, Ht. reflexivity. Qed.

(** X19. [test_caching] depends on the clock in two places only.  Whatever
    the five [get]s read from the clock, the test returns [True] exactly
    when the second read is less than the TTL of one second after the
    first and the third is not: the first fetch, the fetch of another key
    and the fetch after [invalidate] happen at every reading. *)
Theorem test_caching_passes_iff_timing (t1 t2 t3 t4 t5 : float) :
  test_smoke.test_caching t1 t2 t3 t4 t5
    = (t2 - t1 <? 1)%float && negb (t3 - t1 <? 1)%float.
Proof.
  unfold test_smoke.test_caching. cbv zeta.
  set (s1 := base.mkSource (<["test" := "data_test_1"]> ∅)
                           (<["test" := t1]> ∅)).
  change (base.get test_smoke._fetch t1 "test" 1%float base.init 0%nat)
    with (base.mkOutcome (Ok "data_test_1") s1 1%nat ["test"]).
  cbn [base.world base.source base.returned Nat.eqb negb].
  rewrite (get_cached test_smoke._fetch t2 "test" 1 s1 1%nat "data_test_1" t1
             eq_refl eq_refl).
  destruct (t2 - t1 <? 1)%float; [|reflexivity].
  cbn [base.world base.source base.returned Nat.eqb negb andb].
  change (test_smoke.differ (Ok "data_test_1") (Ok "data_test_1")) with false.
  cbv iota.
  rewrite (get_cached test_smoke._fetch t3 "test" 1 s1 1%nat "data_test_1" t1
             eq_refl eq_refl).
  destruct (t3 - t1 <? 1)%float; [reflexivity|].
  subst s1. vm_compute. reflexivity.
Qed.

(** ** A condition that lasts sounds once per cooldown *)

Section PlanFacts.

Variable time : nat -> float.

Lemma fold_left_flat_map {A B S : Type} (f : S -> B -> S) (g : A -> list B)
    (l : list A) : forall s,
  fold_left f (flat_map g l) s
    = fold_left (fun acc x => fold_left f (g x) acc) l s.
Proof.
  induction l as [|x l IH]; intros s; [reflexivity|].
  cbn [flat_map fold_left]. rewrite fold_left_app. apply IH.
Qed.

Lemma fold_left_ext_eq {A S : Type} (f g : S -> A -> S) (l : list A) :
  (forall s x, f s x = g s x) ->
  forall s, fold_left f l s = fold_left g l s.
Proof.
  intros H. induction l as [|x l IH]; intros s; [reflexivity|].
  cbn [fold_left]. rewrite H. apply IH.
Qed.

(** [check] performs its plan. *)
Lemma check_plan raid_status smart throttle s :
  alarms.check time raid_status smart throttle s
    = fold_left (alarms.perform time)
        (alarms.plan raid_status smart throttle) s.
Proof.
  unfold alarms.check, alarms.plan. cbv zeta.
  rewrite !fold_left_app, !fold_left_flat_map.
  assert (Hraid : forall s0,
            fold_left (alarms.perform time) (alarms.raid_plan raid_status) s0
              = alarms.check_raid time raid_status s0).
  { intros s0. unfold alarms.raid_plan, alarms.check_raid. cbv zeta.
    destruct (alarms.degraded _); [reflexivity|].
    destruct (alarms.resyncing _); reflexivity. }
  rewrite Hraid.
  rewrite (fold_left_ext_eq
             (fun acc x => fold_left (alarms.perform time)
                             (alarms.temperature_plan x) acc)
             (fun acc item => alarms.check_temperature time item acc)).
  2:{ intros s0 [name data].
      unfold alarms.temperature_plan, alarms.check_temperature.
      cbn [fst snd]. destruct (alarms.temperature_c data) as [temp|];
        [|reflexivity].
      destruct (60 <=? temp)%float; [reflexivity|].
      destruct (50 <=? temp)%float; reflexivity. }
  rewrite (fold_left_ext_eq
             (fun acc x => fold_left (alarms.perform time)
                             (alarms.sectors_plan x) acc)
             (fun acc item => alarms.check_sectors time item acc)).
  2:{ intros s0 [name data].
      unfold alarms.sectors_plan, alarms.check_sectors, alarms.disk_sound.
      cbn [fst snd]. destruct (_ || _); reflexivity. }
  unfold alarms.power_plan, alarms.check_power.
  destruct (_ || _); reflexivity.
Qed.

Lemma perform_cooldown s action :
  alarms.cooldown (alarms.alarm_state (alarms.perform time s action))
    = alarms.cooldown (alarms.alarm_state s).
Proof.
  unfold alarms.perform. destruct (snd action) as [name|]; [|reflexivity].
  rewrite alert_alarm_state. apply should_alert_cooldown.
Qed.

Lemma perform_readings s action :
  (alarms.readings s <= alarms.readings (alarms.perform time s action))%nat.
Proof.
  unfold alarms.perform, alarms.alert.
  destruct (snd action) as [name|]; [|cbn; lia].
  destruct (alarms.should_alert _ _ _). cbn. lia.
Qed.

Lemma perform_other s action other :
  fst action <> other ->
  alarms.last_alert (alarms.alarm_state (alarms.perform time s action)) !! other
    = alarms.last_alert (alarms.alarm_state s) !! other.
Proof.
  intros H. unfold alarms.perform. destruct (snd action) as [name|].
  - apply alert_other, H.
  - apply resolve_other, H.
Qed.

(** After [should_alert] has been asked about an id, the id is stamped,
    provided the clock is past the cooldown. *)
Lemma alert_leaves_stamp alarm_id name s :
  (alarms.cooldown (alarms.alarm_state s)
     <=? time (alarms.readings s) - 0)%float = true \/
  is_Some (alarms.last_alert (alarms.alarm_state s) !! alarm_id) ->
  is_Some (alarms.last_alert
             (alarms.alarm_state (alarms.alert time alarm_id name s))
           !! alarm_id).
Proof.
  intros H. rewrite alert_alarm_state.
  destruct (should_alert_cases (time (alarms.readings s)) alarm_id
              (alarms.alarm_state s)) as [[Hc ->]|[Hc ->]];
    cbn [snd alarms.last_alert].
  - rewrite lookup_insert_eq. eauto.
  - destruct H as [H|H]; [|exact H].
    destruct (alarms.last_alert (alarms.alarm_state s) !! alarm_id)
      as [t|]; [eauto|].
    change (default 0%float None) with 0%float in Hc. congruence.
Qed.

Lemma stamped_kept actions alarm_id : forall s,
  (forall action, In action actions -> fst action = alarm_id ->
                  snd action <> None) ->
  is_Some (alarms.last_alert (alarms.alarm_state s) !! alarm_id) ->
  is_Some (alarms.last_alert
             (alarms.alarm_state (fold_left (alarms.perform time) actions s))
           !! alarm_id).
Proof.
  induction actions as [|a rest IH]; intros s Hkind Hs; [exact Hs|].
  cbn [fold_left]. apply IH.
  - intros b Hb. apply Hkind. right. exact Hb.
  - destruct (String.eqb (fst a) alarm_id) eqn:E.
    + apply String.eqb_eq in E.
      pose proof (Hkind a (or_introl eq_refl) E) as Hsome.
      unfold alarms.perform. destruct (snd a) as [name|]; [|congruence].
      rewrite E. apply alert_leaves_stamp. right. exact Hs.
    + apply String.eqb_neq in E. rewrite perform_other by exact E. exact Hs.
Qed.

Lemma absent_kept actions alarm_id : forall s,
  (forall action, In action actions -> fst action = alarm_id ->
                  snd action = None) ->
  alarms.last_alert (alarms.alarm_state s) !! alarm_id = None ->
  alarms.last_alert
    (alarms.alarm_state (fold_left (alarms.perform time) actions s))
    !! alarm_id = None.
Proof.
  induction actions as [|a rest IH]; intros s Hkind Hs; [exact Hs|].
  cbn [fold_left]. apply IH.
  - intros b Hb. apply Hkind. right. exact Hb.
  - destruct (String.eqb (fst a) alarm_id) eqn:E.
    + apply String.eqb_eq in E.
      pose proof (Hkind a (or_introl eq_refl) E) as Hnone.
      unfold alarms.perform. rewrite Hnone, E.
      unfold alarms.resolve, alarms.clear.
      cbn [alarms.alarm_state alarms.last_alert].
      apply lookup_delete_eq.
    + apply String.eqb_neq in E. rewrite perform_other by exact E. exact Hs.
Qed.

Lemma exclusive_tail a rest :
  alarms.exclusive (a :: rest) -> alarms.exclusive rest.
Proof.
  intros H alarm_id name Hin Hout.
  apply (H alarm_id name); right; assumption.
Qed.

(** Once the plan has been performed, every alarm it sounds is stamped and
    every alarm it clears is not. *)
Lemma plan_settles actions : forall s,
  alarms.exclusive actions ->
  (forall n, (alarms.readings s <= n)%nat ->
     (alarms.cooldown (alarms.alarm_state s) <=? time n - 0)%float = true) ->
  let s' := fold_left (alarms.perform time) actions s in
  (forall alarm_id name, In (alarm_id, Some name) actions ->
     is_Some (alarms.last_alert (alarms.alarm_state s') !! alarm_id)) /\
  (forall alarm_id, In (alarm_id, None) actions ->
     alarms.last_alert (alarms.alarm_state s') !! alarm_id = None).
Proof.
  induction actions as [|a rest IH]; intros s Hex Hclock s'.
  - split; intros ? *; intros [].
  - subst s'. cbn [fold_left].
    assert (Hclock' : forall n,
              (alarms.readings (alarms.perform time s a) <= n)%nat ->
              (alarms.cooldown (alarms.alarm_state (alarms.perform time s a))
                 <=? time n - 0)%float = true).
    { intros n Hn. rewrite perform_cooldown. apply Hclock.
      pose proof (perform_readings s a). lia. }
    destruct (IH (alarms.perform time s a) (exclusive_tail _ _ Hex) Hclock')
      as [IHs IHc].
    split.
    + intros alarm_id name [->|Hin]; [|exact (IHs _ _ Hin)].
      apply stamped_kept.
      * intros [id act] Hb Hid Hact. cbn in Hid, Hact. subst id act.
        apply (Hex alarm_id name); [left; reflexivity|right; exact Hb].
      * unfold alarms.perform. cbn [fst snd].
        apply alert_leaves_stamp. left. apply Hclock. lia.
    + intros alarm_id [->|Hin]; [|exact (IHc _ Hin)].
      apply absent_kept.
      * intros [id act] Hb Hid. cbn in Hid. subst id. cbn.
        destruct act as [name|]; [|reflexivity].
        exfalso. apply (Hex alarm_id name); [right; exact Hb|left; reflexivity].
      * unfold alarms.perform, alarms.resolve, alarms.clear.
        cbn [fst snd alarms.alarm_state alarms.last_alert].
        apply lookup_delete_eq.
Qed.

(** Performing the plan again within the cooldown of every stamp changes
    nothing but the number of clock readings. *)
Lemma plan_repeats_silently actions (a0 : alarms.AlarmState) (r0 : nat) :
  (forall alarm_id name, In (alarm_id, Some name) actions ->
     is_Some (alarms.last_alert a0 !! alarm_id)) ->
  (forall alarm_id, In (alarm_id, None) actions ->
     alarms.last_alert a0 !! alarm_id = None) ->
  (forall n alarm_id t, (r0 <= n)%nat ->
     alarms.last_alert a0 !! alarm_id = Some t ->
     (alarms.cooldown a0 <=? time n - t)%float = false) ->
  forall s,
    alarms.alarm_state s = a0 -> (r0 <= alarms.readings s)%nat ->
    let s' := fold_left (alarms.perform time) actions s in
    alarms.dispatched s' = alarms.dispatched s /\ alarms.alarm_state s' = a0.
Proof.
  intros Hs Hc Hcool.
  induction actions as [|a rest IH]; intros s Ha Hr s'; [split; auto|].
  subst s'. cbn [fold_left].
  assert (Hstep : alarms.dispatched (alarms.perform time s a)
                    = alarms.dispatched s /\
                  alarms.alarm_state (alarms.perform time s a) = a0).
  { destruct a as [id [name|]]; unfold alarms.perform; cbn [fst snd].
    - destruct (Hs id name (or_introl eq_refl)) as [t Ht].
      rewrite <- Ha in Ht.
      destruct (alert_within_cooldown time id name s t Ht) as [Hd Hst].
      + rewrite Ha. apply (Hcool _ id); [exact Hr|]. rewrite <- Ha. exact Ht.
      + rewrite Hd, Hst. auto.
    - split; [reflexivity|]. unfold alarms.resolve, alarms.clear.
      cbn [alarms.alarm_state]. rewrite Ha.
      pose proof (Hc id (or_introl eq_refl)) as Hnone.
      destruct a0 as [cd m].
      cbn [alarms.cooldown alarms.last_alert] in *. f_equal.
      apply delete_id. exact Hnone. }
  destruct Hstep as [Hd Hst].
  destruct (IH (fun id name H => Hs id name (or_intror H))
               (fun id H => Hc id (or_intror H))
               (alarms.perform time s a) Hst) as [Hd' Hst'].
  { pose proof (perform_readings s a). lia. }
  split; [rewrite Hd'; exact Hd|exact Hst'].
Qed.

End PlanFacts.

Lemma first_char_unique a b s :
  pystr.startswith (String a "") s = true ->
  pystr.startswith (String b "") s = true -> a = b.
Proof.
  destruct s as [|c s]; cbn [pystr.startswith]; [discriminate|].
  intros Ha Hb.
  apply andb_prop in Ha as [Ha _]. apply andb_prop in Hb as [Hb _].
  apply Ascii.eqb_eq in Ha, Hb. congruence.
Qed.

Lemma append_inv_head pre : forall a b, pre ++ a = pre ++ b -> a = b.
Proof.
  induction pre as [|c pre IH]; intros a b H; [exact H|].
  change (String c (pre ++ a) = String c (pre ++ b)) in H.
  injection H as H. apply IH, H.
Qed.

Lemma in_singleton {A : Type} (x y : A) : In x [y] -> x = y.
Proof. intros [H|[]]. symmetry. exact H. Qed.

Lemma same_name_same_item (items : list (string * alarms.disk)) a b :
  List.NoDup (map fst items) ->
  In a items -> In b items -> fst a = fst b -> a = b.
Proof.
  induction items as [|x items IH]; intros Hnd Ha Hb Hab; [destruct Ha|].
  cbn [map] in Hnd. apply NoDup_cons_iff in Hnd as [Hx Hnd].
  destruct Ha as [->|Ha], Hb as [->|Hb].
  - reflexivity.
  - exfalso. apply Hx. rewrite Hab. apply in_map, Hb.
  - exfalso. apply Hx. rewrite <- Hab. apply in_map, Ha.
  - apply IH; assumption.
Qed.

(** Where an action of the plan comes from: the block, which the first
    letter of the alarm id tells. *)
Lemma in_plan raid_status smart throttle alarm_id act :
  In (alarm_id, act) (alarms.plan raid_status smart throttle) ->
  (pystr.startswith "r" alarm_id = true /\
   In (alarm_id, act) (alarms.raid_plan raid_status)) \/
  (pystr.startswith "t" alarm_id = true /\
   exists item, In item (default [] smart) /\
     In (alarm_id, act) (alarms.temperature_plan item)) \/
  (pystr.startswith "s" alarm_id = true /\
   exists item, In item (default [] smart) /\
     In (alarm_id, act) (alarms.sectors_plan item)) \/
  (pystr.startswith "p" alarm_id = true /\
   In (alarm_id, act) (alarms.power_plan throttle)).
Proof.
  unfold alarms.plan. cbv zeta. intros H.
  apply in_app_or in H as [H|H]; [left|right].
  { split; [|exact H]. unfold alarms.raid_plan in H. cbv zeta in H.
    destruct (alarms.degraded _);
      [apply in_singleton in H; injection H as -> _; reflexivity|].
    destruct (alarms.resyncing _);
      [apply in_singleton in H; injection H as -> _; reflexivity|].
    destruct H as [H|H]; [injection H as <- _; reflexivity|].
    apply in_singleton in H. injection H as -> _. reflexivity. }
  apply in_app_or in H as [H|H]; [left|right].
  { apply in_flat_map in H as (item & Hitem & H).
    split; [|exists item; split; assumption].
    unfold alarms.temperature_plan in H.
    destruct (alarms.temperature_c (snd item)); [|destruct H].
    apply in_singleton in H. injection H as -> _. reflexivity. }
  apply in_app_or in H as [H|H]; [left|right].
  { apply in_flat_map in H as (item & Hitem & H).
    split; [|exists item; split; assumption].
    unfold alarms.sectors_plan in H.
    apply in_singleton in H. injection H as -> _. reflexivity. }
  split; [|exact H]. unfold alarms.power_plan in H.
  apply in_singleton in H. injection H as -> _. reflexivity.
Qed.

Lemma plan_exclusive raid_status smart throttle :
  List.NoDup (map fst (default [] smart)) ->
  alarms.exclusive (alarms.plan raid_status smart throttle).
Proof.
  intros Hnd alarm_id name Hs Hc.
  apply in_plan in Hs, Hc.
  destruct Hs as [[Ps Hs]|[[Ps Hs]|[[Ps Hs]|[Ps Hs]]]];
    destruct Hc as [[Pc Hc]|[[Pc Hc]|[[Pc Hc]|[Pc Hc]]]];
    try (pose proof (first_char_unique _ _ _ Ps Pc) as Hchar;
         discriminate Hchar).
  - unfold alarms.raid_plan in Hs, Hc. cbv zeta in Hs, Hc.
    destruct (alarms.degraded _);
      [apply in_singleton in Hc; discriminate Hc|].
    destruct (alarms.resyncing _);
      [apply in_singleton in Hc; discriminate Hc|].
    destruct Hs as [Hs|Hs]; [discriminate Hs|].
    apply in_singleton in Hs. discriminate Hs.
  - destruct Hs as (a & Ha & Hs), Hc as (b & Hb & Hc).
    unfold alarms.temperature_plan in Hs, Hc.
    destruct (alarms.temperature_c (snd a)) as [ta|] eqn:Ea; [|destruct Hs].
    destruct (alarms.temperature_c (snd b)) as [tb|] eqn:Eb; [|destruct Hc].
    apply in_singleton in Hs, Hc.
    injection Hs as Hida Hacta. injection Hc as Hidb Hactb.
    assert (Hab : a = b).
    { apply (same_name_same_item _ a b Hnd Ha Hb).
      apply (append_inv_head "temp_"). congruence. }
    subst b. rewrite Ea in Eb. injection Eb as <-. congruence.
  - destruct Hs as (a & Ha & Hs), Hc as (b & Hb & Hc).
    unfold alarms.sectors_plan in Hs, Hc.
    apply in_singleton in Hs, Hc.
    injection Hs as Hida Hacta. injection Hc as Hidb Hactb.
    assert (Hab : a = b).
    { apply (same_name_same_item _ a b Hnd Ha Hb).
      apply (append_inv_head "smart_"). congruence. }
    subst b. congruence.
  - unfold alarms.power_plan in Hs, Hc.
    apply in_singleton in Hs, Hc.
    injection Hs as Hacta. injection Hc as Hactb. congruence.
Qed.

(** X20. A condition that lasts sounds once per cooldown.  Let [check]
    evaluate the same readings twice, the disks of the SMART dict having
    distinct names and the clock being past the cooldown since the epoch.
    If every clock reading of the second evaluation is less than the
    cooldown after every stamp the first one left, the second evaluation
    dispatches no pattern and leaves the alarm state as it was: each alarm
    it asks about was stamped by the first evaluation, and each alarm it
    clears was cleared already. *)
Theorem lasting_condition_sounds_once
    (time : nat -> float) (raid_status : mdadm.status)
    (smart : option (list (string * alarms.disk)))
    (throttle : system.throttle) (s : alarms.state) :
  List.NoDup (map fst (default [] smart)) ->
  (forall n, (alarms.readings s <= n)%nat ->
     (alarms.cooldown (alarms.alarm_state s) <=? time n - 0)%float = true) ->
  let s1 := alarms.check time raid_status smart throttle s in
  (forall n alarm_id t, (alarms.readings s1 <= n)%nat ->
     alarms.last_alert (alarms.alarm_state s1) !! alarm_id = Some t ->
     (alarms.cooldown (alarms.alarm_state s1) <=? time n - t)%float = false) ->
  let s2 := alarms.check time raid_status smart throttle s1 in
  alarms.dispatched s2 = alarms.dispatched s1 /\
  alarms.alarm_state s2 = alarms.alarm_state s1.
Proof.
  intros Hnd Hclock s1 Hcool s2. subst s2.
  assert (Hs1 : s1 = fold_left (alarms.perform time)
                       (alarms.plan raid_status smart throttle) s)
    by apply check_plan.
  rewrite check_plan.
  destruct (plan_settles time _ s (plan_exclusive raid_status smart throttle Hnd)
              Hclock) as [Hstamped Hcleared].
  rewrite <- Hs1 in Hstamped, Hcleared.
  apply (plan_repeats_silently time _ (alarms.alarm_state s1)
           (alarms.readings s1) Hstamped Hcleared Hcool s1 eq_refl).
  lia.
Qed.

(** A degraded array and a hot disk, evaluated at 1000 s and again one
    minute later. *)
Lemma lasting_condition_sounds_once_witness :
  let time := fun n => if (n <? 2)%nat then 1000%float else 1060%float in
  let raid := mdadm.mkStatus (Some "clean, degraded") (Some "idle")
                None None None in
  let smart := Some [("sda", alarms.mkDisk (Some 61%float) None None None
                                None None None)] in
  let s1 := alarms.check time raid smart system.not_throttled alarms.start in
  alarms.dispatched s1 = ["double"; "triple"] /\
  alarms.dispatched
    (alarms.check time raid smart system.not_throttled s1)
    = ["double"; "triple"].
Proof.
  intros time raid smart s1.
  assert (H1 : alarms.dispatched s1 = ["double"; "triple"])
    by (vm_compute; reflexivity).
  split; [exact H1|].
  refine (eq_trans
            (proj1 (lasting_condition_sounds_once time raid smart
                      system.not_throttled alarms.start _ _ _)) H1).
  - cbn [default map fst]. constructor; [intros []|constructor].
  - intros n _. subst time. cbv beta.
    destruct (n <? 2)%nat; vm_compute; reflexivity.
  - intros n alarm_id t Hn.
    assert (Hm : alarms.last_alert (alarms.alarm_state s1)
                 = <["temp_sda" := 1000%float]>
                     (<["raid_degraded" := 1000%float]> ∅))
      by (vm_compute; reflexivity).
    assert (Hr : alarms.readings s1 = 2%nat) by (vm_compute; reflexivity).
    fold s1 in Hn. rewrite Hr in Hn.
    fold s1. rewrite Hm.
    assert (Ht : time n = 1060%float).
    { subst time. cbv beta. destruct (Nat.ltb_spec n 2); [lia|reflexivity]. }
    rewrite Ht.
    intros Hl. apply lookup_insert_Some in Hl as [[_ <-]|[_ Hl]];
      [vm_compute; reflexivity|].
    apply lookup_insert_Some in Hl as [[_ <-]|[_ Hl]];
      [vm_compute; reflexivity|].
    rewrite lookup_empty in Hl. discriminate Hl.
Defined.

(** ** The home page and the RAID alarm *)

Lemma not_shown_not_resyncing raid_status :
  home.sync_shown raid_status = false ->
  alarms.resyncing (default "" (mdadm.sync_action raid_status)) = false.
Proof.
  unfold home.sync_shown, alarms.resyncing, pystr.in_tuple.
  cbn [existsb]. intros H.
  apply orb_false_elim in H as [E1 H].
  apply orb_false_elim in H as [E2 H].
  apply orb_false_elim in H as [E3 _].
  rewrite E1, E2, E3. reflexivity.
Qed.

(** X21. The home page and the RAID alarm read the status alike.  For
    every status and alarm state: when the home page draws the clean view,
    the RAID block of [check] sounds nothing and clears both RAID alarms;
    when it draws the degraded view, the block asks for the alarm
    [raid_degraded] with "double"; and a check or repair of an array that
    is not degraded is drawn as a sync view but clears both alarms. *)
Theorem home_view_matches_raid_alarm {Ctx : Type}
    (degraded_values : Ctx -> mdadm.status -> result (string * string * string))
    (clean_values : Ctx -> result (string * string * string))
    (ctx : Ctx) (raid_status : mdadm.status)
    (time : nat -> float) (s : alarms.state) :
  let drawn := home.render degraded_values clean_values ctx raid_status in
  let after := alarms.check_raid time raid_status s in
  let quiet := alarms.resolve "raid_resync" (alarms.resolve "raid_degraded" s) in
  (home.view_of drawn = Some home.CleanView -> after = quiet) /\
  (home.view_of drawn = Some home.DegradedView ->
   after = alarms.alert time "raid_degraded" "double" s) /\
  (alarms.degraded (default "" (mdadm.array_state raid_status)) = false ->
   pystr.in_tuple (default "" (mdadm.sync_action raid_status))
     ["check"; "repair"] = true ->
   home.view_of drawn = Some home.SyncView /\ after = quiet).
Proof.
  intros drawn after quiet. subst drawn after quiet.
  rewrite render_cases. unfold alarms.check_raid. cbv zeta.
  fold (alarms.degraded (default "" (mdadm.array_state raid_status))).
  split; [|split].
  - destruct (home.sync_shown raid_status) eqn:Es;
      [rewrite view_of_resync; discriminate|].
    rewrite (not_shown_not_resyncing _ Es).
    destruct (alarms.degraded _);
      [rewrite view_of_degraded; discriminate|reflexivity].
  - destruct (home.sync_shown raid_status) eqn:Es;
      [rewrite view_of_resync; discriminate|].
    destruct (alarms.degraded _);
      [reflexivity|rewrite view_of_clean; discriminate].
  - intros Hd Hc. rewrite Hd.
    unfold home.sync_shown, alarms.resyncing, pystr.in_tuple in *.
    cbn [existsb] in *.
    apply orb_prop in Hc as [Hc|Hc];
      [|apply orb_prop in Hc as [Hc|Hc]; [|discriminate Hc]];
      apply String.eqb_eq in Hc; rewrite Hc;
      (split; [exact (view_of_resync raid_status _)|reflexivity]).
Qed.

(** A clean array under check: drawn as "Check", nothing sounded. *)
Lemma home_view_matches_raid_alarm_witness :
  let raid := mdadm.mkStatus (Some "clean") (Some "check") None None None in
  alarms.degraded (default "" (mdadm.array_state raid)) = false /\
  home.view_of
    (home.render (fun (_ : unit) _ => Ok ("", "", "")) (fun _ => Ok ("", "", ""))
       tt raid) = Some home.SyncView /\
  alarms.check_raid (fun _ => 1000%float) raid alarms.start
    = alarms.resolve "raid_resync"
        (alarms.resolve "raid_degraded" alarms.start).
Proof.
  intros raid.
  assert (Hd : alarms.degraded (default "" (mdadm.array_state raid)) = false)
    by reflexivity.
  split; [exact Hd|].
  exact (proj2 (proj2 (home_view_matches_raid_alarm
                         (fun (_ : unit) _ => Ok ("", "", ""))
                         (fun _ => Ok ("", "", "")) tt raid
                         (fun _ => 1000%float) alarms.start))
           Hd eq_refl).
Defined.

(** ** Disk alarms while the SMART data is missing *)

Lemma others_kept time actions alarm_id : forall s,
  (forall action, In action actions -> fst action <> alarm_id) ->
  alarms.last_alert
    (alarms.alarm_state (fold_left (alarms.perform time) actions s))
    !! alarm_id
  = alarms.last_alert (alarms.alarm_state s) !! alarm_id.
Proof.
  induction actions as [|a rest IH]; intros s Hne; [reflexivity|].
  cbn [fold_left]. rewrite IH by (intros b Hb; apply Hne; right; exact Hb).
  apply perform_other. apply Hne. left. reflexivity.
Qed.

Lemma startswith_first c pre s :
  pystr.startswith (String c pre) s = true ->
  pystr.startswith (String c "") s = true.
Proof.
  destruct s as [|d s]; cbn [pystr.startswith]; [discriminate|].
  intros H. apply andb_prop in H as [H _]. rewrite H. reflexivity.
Qed.

(** X22. Without SMART data the disk alarms are frozen.  When the SMART
    read gives nothing ([None] after a failed request, or an empty dict),
    an evaluation neither sounds nor clears any disk alarm: the stamp of
    every alarm id starting with "temp_" or "smart_" is what it was, and
    at most two patterns are dispatched, for the RAID and power blocks. *)
Theorem disk_alarms_frozen_without_smart
    (time : nat -> float) (raid_status : mdadm.status)
    (smart : option (list (string * alarms.disk)))
    (throttle : system.throttle) (s : alarms.state) (alarm_id : string) :
  default [] smart = [] ->
  pystr.startswith "temp_" alarm_id = true \/
  pystr.startswith "smart_" alarm_id = true ->
  let s' := alarms.check time raid_status smart throttle s in
  alarms.last_alert (alarms.alarm_state s') !! alarm_id
    = alarms.last_alert (alarms.alarm_state s) !! alarm_id /\
  alarms.dispatches_more buzzer.known 2 s s'.
Proof.
  intros Hempty Hid s'. subst s'. split.
  - rewrite check_plan. apply others_kept.
    intros [id act] Hin Heq. cbn [fst] in Heq. subst id.
    apply in_plan in Hin. rewrite Hempty in Hin.
    destruct Hin as [[P _]|[[_ (item & [] & _)]|[[_ (item & [] & _)]|[P _]]]];
      destruct Hid as [Hid|Hid]; apply startswith_first in Hid;
      pose proof (first_char_unique _ _ _ P Hid) as Hc; discriminate Hc.
  - pose proof (more_check time buzzer.known eq_refl eq_refl eq_refl eq_refl
                  raid_status smart throttle s) as H.
    rewrite Hempty in H. exact H.
Qed.

(** Glances down while sda is stamped hot: the stamp stays. *)
Lemma disk_alarms_frozen_without_smart_witness :
  let s := alarms.mkState
             (alarms.mkAlarmState 300 (<["temp_sda" := 1000%float]> ∅))
             1 ["triple"] in
  let clean := mdadm.mkStatus (Some "clean") (Some "idle") None None None in
  alarms.last_alert
    (alarms.alarm_state
       (alarms.check (fun _ => 1060%float) clean None system.not_throttled s))
    !! "temp_sda" = Some 1000%float.
Proof.
  intros s clean.
  rewrite (proj1 (disk_alarms_frozen_without_smart (fun _ => 1060%float) clean
                    None system.not_throttled s "temp_sda" eq_refl
                    (or_introl eq_refl))).
  reflexivity.
Defined.
